(** * Surface_Offline: the offline surface-location cache of Pupil Player

    A shallow embedding of
    [pupil_src/shared_modules/surface_tracker/surface_offline.py].
    The object [self] is a record threaded through a small state and
    exception monad; Python exceptions are values of [exn]; the calls that
    leave the object (cancelling or starting a background job, invoking the
    change subscriber) are recorded in an effect log. *)

From Stdlib Require Import ZArith QArith Bool Lia.
From stdpp Require Import base list.

Local Open Scope Z_scope.

(** ** Python values the module relies on *)

Module Py.

(** The exception classes that occur in the module. *)
Inductive exn : Type := TypeError | AttributeError | IndexError | KeyError.

(** [l[i]] on a list of length [n]: a negative index counts from the end,
    anything outside [-n, n) raises IndexError (here: [None]). *)
Definition norm_index (n : nat) (i : Z) : option nat :=
  if (0 <=? i) && (i <? Z.of_nat n) then Some (Z.to_nat i)
  else if (- Z.of_nat n <=? i) && (i <? 0) then Some (Z.to_nat (Z.of_nat n + i))
  else None.

Definition getitem {A : Type} (l : list A) (i : Z) : option A :=
  match norm_index (length l) i with
  | Some n => l !! n
  | None => None
  end.

Definition setitem {A : Type} (l : list A) (i : Z) (v : A) : option (list A) :=
  match norm_index (length l) i with
  | Some n => Some (<[n:=v]> l)
  | None => None
  end.

(** [slice(start, stop)] with integer bounds and no step: a section. *)
Record slice : Type := Slice { start : Z; stop : Z }.

Definition clamp (n : nat) (i : Z) : Z :=
  if i <? 0 then Z.max (i + Z.of_nat n) 0 else Z.min i (Z.of_nat n).

(** [l[start:stop]]: bounds are clamped, the result may be shorter than
    [stop - start]. *)
Definition getslice {A : Type} (l : list A) (sec : slice) : list A :=
  let a := clamp (length l) (start sec) in
  let b := clamp (length l) (stop sec) in
  take (Z.to_nat (b - a)) (drop (Z.to_nat a) l).

(** [enumerate(l)] *)
Fixpoint enumerate_from {A : Type} (k : Z) (l : list A) : list (Z * A) :=
  match l with
  | [] => []
  | x :: l' => (k, x) :: enumerate_from (k + 1) l'
  end.

Definition enumerate {A : Type} (l : list A) : list (Z * A) := enumerate_from 0 l.

(** A dict with integer keys, in insertion order; assigning an existing
    key replaces its value in place. *)
Fixpoint dict_set {V : Type} (k : Z) (v : V) (d : list (Z * V)) : list (Z * V) :=
  match d with
  | [] => [(k, v)]
  | (k', v') :: d' => if k' =? k then (k, v) :: d' else (k', v') :: dict_set k v d'
  end.

(** The value of a [multiprocessing.Value("i", _)] after assigning [v]:
    a C int, stored modulo 2^32. *)
Definition c_int (v : Z) : Z := (v + 2 ^ 31) mod 2 ^ 32 - 2 ^ 31.

End Py.

Import Py.

(** ** Exceptions and state *)

(** The result of running a method on an object of type [St]: it returns
    (with the object as the method left it), an exception escapes (the
    mutations made before the raise persist), or the model ran out of
    fuel. *)
Inductive outcome (St A : Type) : Type :=
| Return (a : A) (s : St)
| Raise (e : exn) (s : St)
| OutOfFuel.

Arguments Return {St A} a s.
Arguments Raise {St A} e s.
Arguments OutOfFuel {St A}.

Definition M (St A : Type) : Type := St -> outcome St A.

Definition ret {St A : Type} (a : A) : M St A := fun s => Return a s.

Definition bind {St A B : Type} (m : M St A) (f : A -> M St B) : M St B :=
  fun s => match m s with
           | Return a s' => f a s'
           | Raise e s' => Raise e s'
           | OutOfFuel => OutOfFuel
           end.

Definition raise {St A : Type} (e : exn) : M St A := fun s => Raise e s.

Definition get {St : Type} : M St St := fun s => Return s s.

Definition modify {St : Type} (f : St -> St) : M St unit := fun s => Return tt (f s).

Definition out_of_fuel {St A : Type} : M St A := fun _ => OutOfFuel.

(** An expression that raises without touching the object. *)
Definition lift {St A : Type} (r : exn + A) : M St A :=
  match r with
  | inl e => raise e
  | inr a => ret a
  end.

(** [try: body  except <classes>: handler] *)
Definition try_except {St A : Type} (body : M St A) (classes : exn -> bool)
  (handler : M St A) : M St A :=
  fun s => match body s with
           | Raise e s' => if classes e then handler s' else Raise e s'
           | r => r
           end.

Notation "'let*' x ':=' m 'in' k" := (bind m (fun x => k))
  (at level 10, x name, m at level 100, k at level 200).
Notation "m '>>' k" := (bind m (fun _ => k))
  (at level 90, right associativity).

(** The object a run leaves, whether it returns or raises, satisfies [P]. *)
Definition ends_in {St A : Type} (P : St -> Prop) (o : outcome St A) : Prop :=
  match o with
  | Return _ s' | Raise _ s' => P s'
  | OutOfFuel => True
  end.

(** [m] relates the object it starts from to the object it leaves. *)
Definition keeps {St A : Type} (R : St -> St -> Prop) (m : M St A) : Prop :=
  forall s, ends_in (R s) (m s).

(** Subscripting with the exception Python raises. *)
Definition subscript {A : Type} (l : list A) (i : Z) : exn + A :=
  match getitem l i with
  | Some x => inr x
  | None => inl IndexError
  end.

(** ** The data model *)

(** Types that belong to collaborators outside the module: detected
    markers (with their id), the camera model, transformation matrices, the
    registered-marker tables and the private remainder of the base class
    [Surface], the subscriber callable, a corner position, marker vertices,
    gaze events, timestamps, time windows, mapped points, and the serialised
    forms of a location and of the base class. *)
Class External : Type := {
  Marker : Type;
  marker_id : Marker -> Z;
  CameraModel : Type;
  Matrix : Type;
  RegisteredMarkers : Type;
  BaseRest : Type;
  Subscriber : Type;
  Position : Type;
  Vertices : Type;
  GazeEvents : Type;
  Timestamps : Type;
  Window : Type;
  MappedPoint : Type;
  Serialized : Type;
  BaseDict : Type
}.

Section DataModel.

Context {ext : External}.

(** [Surface_Location]: the attributes the module reads and writes. *)
Record Surface_Location : Type := Build_Location {
  loc_detected : bool;
  loc_dist_img_to_surf_trans : option Matrix;
  loc_surf_to_dist_img_trans : option Matrix;
  loc_img_to_surf_trans : option Matrix;
  loc_surf_to_img_trans : option Matrix;
  loc_num_detected_markers : Z
}.

(** Modelled from the spec: the constructor of [Surface_Location], which is
    not part of this module. [Surface_Location(detected=False)] is the
    NotDetected state; only Detected carries geometry. *)
Definition Surface_Location_not_detected : Surface_Location :=
  Build_Location false None None None None 0.

(** An entry of the location cache: [False] (not computed yet) or a
    location. *)
Definition CacheEntry : Type := option Surface_Location.

(** An entry of the marker cache: [False] (not computed yet) or the list of
    markers detected in the frame. *)
Definition MarkerEntry : Type := option (list Marker).
Definition MarkerCache : Type := list MarkerEntry.

(** Modelled from the spec: the handle that
    [background_tasks.background_data_processor] returns, which is not part
    of this module. It exposes a lazy, finite, pull-based sequence of
    [(index, location)] results, a [completed] flag and cancellation. What
    the task's process will have produced at each later poll is fixed in
    advance: a poll delivers the results available then and says whether
    the task has completed. *)
Record Job : Type := Build_Job {
  job_polls : list (list (Z * Surface_Location) * bool);
  job_completed : bool
}.

(** [job.fetch()], consumed to the end. *)
Definition job_fetch (j : Job) : list (Z * Surface_Location) * Job :=
  match job_polls j with
  | [] => ([], j)
  | (results, done) :: polls => (results, Build_Job polls done)
  end.

(** What the module does to the world outside the object. *)
Inductive Effect : Type :=
| JobCancelled (j : Job)
| JobStarted (j : Job)
| SurfaceChanged (cb : Subscriber).

(** The attributes of the base class [Surface] the module touches. *)
Record Surface : Type := Build_Surface {
  registered_markers_undist : RegisteredMarkers;
  registered_markers_dist : RegisteredMarkers;
  build_up_status : Q;
  detected : bool;
  dist_img_to_surf_trans : option Matrix;
  surf_to_dist_img_trans : option Matrix;
  img_to_surf_trans : option Matrix;
  surf_to_img_trans : option Matrix;
  num_detected_markers : Z;
  base_rest : BaseRest
}.

Record Surface_Offline : Type := Build_Surface_Offline {
  base : Surface;
  location_cache : option (list CacheEntry);
  cache_seek_idx : Z;
  location_cache_filler : option Job;
  observations_frame_idxs : list Z;
  on_surface_change : option Subscriber;
  start_idx : option Z;
  effects : list Effect
}.

(** Modelled from the spec: the property [defined] of the base class, which
    is not part of this module. The definition is terminal once
    [build_up_status] has reached 1.0. *)
Definition defined (s : Surface_Offline) : bool :=
  Qle_bool 1 (build_up_status (base s)).

(** *** Attribute assignment *)

Definition set_base (f : Surface -> Surface) (s : Surface_Offline) : Surface_Offline :=
  Build_Surface_Offline (f (base s)) (location_cache s) (cache_seek_idx s)
    (location_cache_filler s) (observations_frame_idxs s) (on_surface_change s)
    (start_idx s) (effects s).

Definition set_location_cache (c : option (list CacheEntry)) (s : Surface_Offline)
  : Surface_Offline :=
  Build_Surface_Offline (base s) c (cache_seek_idx s)
    (location_cache_filler s) (observations_frame_idxs s) (on_surface_change s)
    (start_idx s) (effects s).

Definition set_cache_seek_idx (v : Z) (s : Surface_Offline) : Surface_Offline :=
  Build_Surface_Offline (base s) (location_cache s) (c_int v)
    (location_cache_filler s) (observations_frame_idxs s) (on_surface_change s)
    (start_idx s) (effects s).

Definition set_location_cache_filler (j : option Job) (s : Surface_Offline)
  : Surface_Offline :=
  Build_Surface_Offline (base s) (location_cache s) (cache_seek_idx s)
    j (observations_frame_idxs s) (on_surface_change s)
    (start_idx s) (effects s).

Definition set_observations_frame_idxs (l : list Z) (s : Surface_Offline)
  : Surface_Offline :=
  Build_Surface_Offline (base s) (location_cache s) (cache_seek_idx s)
    (location_cache_filler s) l (on_surface_change s)
    (start_idx s) (effects s).

Definition set_start_idx (i : option Z) (s : Surface_Offline) : Surface_Offline :=
  Build_Surface_Offline (base s) (location_cache s) (cache_seek_idx s)
    (location_cache_filler s) (observations_frame_idxs s) (on_surface_change s)
    i (effects s).

Definition emit (e : Effect) (s : Surface_Offline) : Surface_Offline :=
  Build_Surface_Offline (base s) (location_cache s) (cache_seek_idx s)
    (location_cache_filler s) (observations_frame_idxs s) (on_surface_change s)
    (start_idx s) (effects s ++ [e]).

Definition set_build_up_status (q : Q) (b : Surface) : Surface :=
  Build_Surface (registered_markers_undist b) (registered_markers_dist b) q
    (detected b) (dist_img_to_surf_trans b) (surf_to_dist_img_trans b)
    (img_to_surf_trans b) (surf_to_img_trans b) (num_detected_markers b)
    (base_rest b).

(** Lines 87-92 of [update_location]: the surface adopts a location. *)
Definition adopt_location (location : Surface_Location) (b : Surface) : Surface :=
  Build_Surface (registered_markers_undist b) (registered_markers_dist b)
    (build_up_status b)
    (loc_detected location) (loc_dist_img_to_surf_trans location)
    (loc_surf_to_dist_img_trans location) (loc_img_to_surf_trans location)
    (loc_surf_to_img_trans location) (loc_num_detected_markers location)
    (base_rest b).

Record AddedInPlayer : Type := Build_AddedInPlayer {
  aip_start_idx : option Z;
  aip_observations_frame_idxs : list Z
}.

(** The saved record: the keys of the base class, and the keys ["cache"]
    (missing, null or a list) and ["added_in_player"] (missing or a
    record). *)
Record SaveDict : Type := Build_SaveDict {
  dict_base : BaseDict;
  dict_cache : option (option (list Serialized));
  dict_added_in_player : option AddedInPlayer
}.

End DataModel.

(** The methods of the base class and the other collaborators, taken as
    they are; each is a total function of its arguments.
    [Surface_Location_bool] is [bool(location)], which the class
    [Surface_Location] decides. *)
Class Collaborators {ext : External} : Type := {
  Surface_Location_bool : Surface_Location -> bool;
  get_serializable_copy : Surface_Location -> Serialized;
  load_from_serializable_copy : Serialized -> exn + Surface_Location;
  Surface_update_definition :
    Z -> list (Z * Marker) -> CameraModel -> Surface -> Surface;
  Surface_prune_markers : Surface -> Surface;
  Surface_move_corner : Z -> Position -> CameraModel -> Surface -> Surface;
  Surface_add_marker : Z -> Vertices -> CameraModel -> Surface -> Surface;
  Surface_pop_marker : Z -> Surface -> Surface;
  Surface_locate :
    list (Z * Marker) -> CameraModel -> RegisteredMarkers -> RegisteredMarkers ->
    Surface_Location;
  Surface_map_gaze_and_fixation_events :
    GazeEvents -> CameraModel -> option Matrix -> Surface -> list MappedPoint;
  Surface_save_to_dict : Surface -> BaseDict;
  Surface_load_from_dict : BaseDict -> Surface -> Surface;
  enclosing_window : Timestamps -> Z -> Window;
  by_ts_window : GazeEvents -> Window -> GazeEvents;
  background_data_processor :
    MarkerCache -> CameraModel * RegisteredMarkers * RegisteredMarkers ->
    list bool -> Z -> Job
}.

Section Methods.

Context {ext : External} {col : Collaborators}.

Local Abbreviation SM := (M Surface_Offline).

(** ** The methods of [Surface_Offline] *)

(** Lines 32-39 without [init_dict]; [b] is the object as the base class
    sets it up. *)
Definition __init__ (b : Surface) : Surface_Offline :=
  Build_Surface_Offline b None (c_int 0) None [] None None [].

(** [{m.id: m for m in markers}] *)
Definition markers_by_id (markers : list Marker) : list (Z * Marker) :=
  fold_left (fun d m => dict_set (marker_id m) m d) markers [].

(** [x is False] for a cache entry *)
Definition is_False {A : Type} (e : option A) : bool :=
  match e with
  | None => true
  | Some _ => false
  end.

(** [not marker_cache[i]]: [False] and the empty list are falsy. *)
Definition marker_entry_not (e : MarkerEntry) : bool :=
  match e with
  | None | Some [] => true
  | Some (_ :: _) => false
  end.

(** Modelled from the spec: [Cache_List], which is not part of this module,
    is an ordered sequence with point lookup, half-open range slicing and
    forced in-place update of a single index. [Cache_List(l, ...)] holds the
    entries of [l]; [cache.update(key, item, force=True)] is [cache[key] =
    item] and [cache[key]], [cache[section]] are those of a list. *)
Definition Cache_List_update (cache : list CacheEntry) (key : Z) (item : Surface_Location)
  : exn + list CacheEntry :=
  match setitem cache key (Some item) with
  | Some cache' => inr cache'
  | None => inl IndexError
  end.

(** [self.location_cache.update(key, item, force=True)]: on [None] the
    attribute lookup fails. *)
Definition location_cache_update (key : Z) (item : Surface_Location) : SM unit :=
  let* s := get in
  match location_cache s with
  | None => raise AttributeError
  | Some cache =>
      let* cache' := lift (Cache_List_update cache key item) in
      modify (set_location_cache (Some cache'))
  end.

(** [self.on_surface_change(self)]: calling [None] is a TypeError. *)
Definition call_on_surface_change : SM unit :=
  let* s := get in
  match on_surface_change s with
  | None => raise TypeError
  | Some cb => modify (emit (SurfaceChanged cb))
  end.

(** Lines 183-185. *)
Definition _update_definition (idx : Z) (visible_markers : list (Z * Marker))
  (camera_model : CameraModel) : SM unit :=
  let* s := get in
  modify (set_observations_frame_idxs (observations_frame_idxs s ++ [idx])) >>
  modify (set_base (Surface_update_definition idx visible_markers camera_model)).

(** [self.location_cache_filler.cancel()] *)
Definition cancel_location_cache_filler : SM unit :=
  let* s := get in
  match location_cache_filler s with
  | None => raise AttributeError
  | Some j => modify (emit (JobCancelled j))
  end.

(** Lines 161-181. *)
Definition _recalculate_location_cache (frame_idx : Z) (marker_cache : MarkerCache)
  (camera_model : CameraModel) : SM unit :=
  let* s := get in
  match location_cache_filler s with
  | Some _ => cancel_location_cache_filler
  | None => ret tt
  end >>
  let visited_list := map is_False marker_cache in
  modify (set_cache_seek_idx frame_idx) >>
  modify (set_location_cache (Some (replicate (length marker_cache) None))) >>
  let* s := get in
  let j := background_data_processor marker_cache
             (camera_model, registered_markers_undist (base s),
              registered_markers_dist (base s))
             visited_list (cache_seek_idx s) in
  modify (set_location_cache_filler (Some j)) >>
  modify (emit (JobStarted j)).

(** Lines 146-156: the location of a single frame. *)
Definition locate_entry (entry : MarkerEntry) (camera_model : CameraModel)
  (b : Surface) : Surface_Location :=
  if marker_entry_not entry then Surface_Location_not_detected
  else Surface_locate (markers_by_id (default [] entry)) camera_model
         (registered_markers_undist b) (registered_markers_dist b).

(** Lines 142-159. *)
Definition update_location_cache (frame_idx : Z) (marker_cache : MarkerCache)
  (camera_model : CameraModel) : SM unit :=
  try_except
    (let* entry := lift (subscript marker_cache frame_idx) in
     let* s := get in
     let location := locate_entry entry camera_model (base s) in
     location_cache_update frame_idx location)
    (fun e => match e with TypeError | AttributeError => true | _ => false end)
    (_recalculate_location_cache frame_idx marker_cache camera_model).

(** Lines 130-136: the loop over the fetched results; the body yields
    [false] when it leaves through [break]. *)
Fixpoint fetch_loop (results : list (Z * Surface_Location)) : SM unit :=
  match results with
  | [] => ret tt
  | (cache_idx, location) :: results' =>
      let* continue :=
        try_except
          (location_cache_update cache_idx location >> ret true)
          (fun e => match e with AttributeError => true | _ => false end)
          (cancel_location_cache_filler >>
           modify (set_location_cache_filler None) >>
           ret false) in
      if continue then fetch_loop results' else ret tt
  end.

(** Lines 128-140. *)
Definition _fetch_from_location_cache_filler : SM unit :=
  let* s := get in
  match location_cache_filler s with
  | None => ret tt
  | Some j =>
      let (results, j') := job_fetch j in
      modify (set_location_cache_filler (Some j')) >>
      fetch_loop results >>
      let* s := get in
      match location_cache_filler s with
      | None => raise AttributeError
      | Some j'' =>
          if job_completed j'' then
            modify (set_location_cache_filler None) >>
            call_on_surface_change
          else ret tt
      end
  end.

(** [def_idx == len(marker_cache)]; [None] is not equal to a number. *)
Definition def_idx_at_end (def_idx : option Z) (marker_cache : MarkerCache) : bool :=
  match def_idx with
  | Some i => i =? Z.of_nat (length marker_cache)
  | None => false
  end.

(** [marker_cache[def_idx] is False]: indexing with [None] is a TypeError. *)
Definition marker_entry_is_False (marker_cache : MarkerCache) (def_idx : option Z)
  : exn + bool :=
  match def_idx with
  | None => inl TypeError
  | Some i =>
      match subscript marker_cache i with
      | inl e => inl e
      | inr entry => inr (is_False entry)
      end
  end.

(** [i in l] for a list of numbers *)
Definition Z_in (i : Z) (l : list Z) : bool := existsb (Z.eqb i) l.

(** Lines 98-99: at the end of the video, start from the beginning. *)
Definition wrap_def_idx (def_idx : option Z) (frame_idx : Z)
  (marker_cache : MarkerCache) : option Z :=
  if def_idx_at_end def_idx marker_cache && (frame_idx >? 0) then Some 0 else def_idx.

(** Lines 109-112: a frame that has not contributed yet is fed into the
    definition. *)
Definition observe_frame (camera_model : CameraModel) (marker_cache : MarkerCache)
  (def_idx : Z) : SM unit :=
  let* s := get in
  if negb (Z_in def_idx (observations_frame_idxs s)) then
    let* markers := lift (subscript marker_cache def_idx) in
    match markers with
    | None => raise TypeError (* iterating over False *)
    | Some ms => _update_definition def_idx (markers_by_id ms) camera_model
    end
  else ret tt.

(** Lines 101-120: the rest of the loop body; [next] is the loop entered
    again after [def_idx += 1]. *)
Definition scan_body (next : option Z -> SM unit) (camera_model : CameraModel)
  (frame_idx : Z) (marker_cache : MarkerCache) (def_idx : option Z) : SM unit :=
  (* try: if marker_cache[def_idx] is False: break
     except TypeError: def_idx = self.start_idx = frame_idx *)
  let* r :=
    try_except
      (let* unknown := lift (marker_entry_is_False marker_cache def_idx) in
       ret (if unknown then None else def_idx))
      (fun e => match e with TypeError => true | _ => false end)
      (modify (set_start_idx (Some frame_idx)) >>
       ret (Some frame_idx)) in
  match r with
  | None => ret tt (* break *)
  | Some i =>
      observe_frame camera_model marker_cache i >>
      if i =? frame_idx - 1 then
        modify (set_base (set_build_up_status 1)) >>
        modify (set_base Surface_prune_markers)
        (* break *)
      else
        next (Some (i + 1))
  end.

(** Lines 96-126: the [while ... else] statement, entered with the current
    value of [def_idx] ([None] while [start_idx] is unset). Every iteration
    costs one unit of fuel. *)
Fixpoint scan_loop (fuel : nat) (camera_model : CameraModel) (frame_idx : Z)
  (marker_cache : MarkerCache) (def_idx : option Z) : SM unit :=
  let* s := get in
  if defined s then
    (* else: the loop ended without break *)
    modify (set_location_cache None) >>
    match on_surface_change s with
    | Some _ => call_on_surface_change
    | None => ret tt
    end
  else
    match fuel with
    | O => out_of_fuel
    | S fuel' =>
        scan_body (scan_loop fuel' camera_model frame_idx marker_cache)
          camera_model frame_idx marker_cache
          (wrap_def_idx def_idx frame_idx marker_cache)
    end.

(** Lines 94-126. *)
Definition _build_definition_from_cache (fuel : nat) (camera_model : CameraModel)
  (frame_idx : Z) (marker_cache : MarkerCache) : SM unit :=
  let* s := get in
  scan_loop fuel camera_model frame_idx marker_cache (start_idx s).

(** [self.location_cache[i]]: subscripting [None] is a TypeError. *)
Definition location_cache_getitem (i : Z) : SM CacheEntry :=
  let* s := get in
  match location_cache s with
  | None => raise TypeError
  | Some cache => lift (subscript cache i)
  end.

(** Lines 65-68: what [update_location] does before it looks the frame
    up. *)
Definition update_location_prelude (fuel : nat) (frame_idx : Z)
  (marker_cache : MarkerCache) (camera_model : CameraModel) : SM unit :=
  let* s := get in
  (if negb (defined s)
   then _build_definition_from_cache fuel camera_model frame_idx marker_cache
   else ret tt) >>
  _fetch_from_location_cache_filler.

(** Lines 64-92. The bootstrap loop and the recursive call draw on the same
    fuel. *)
Fixpoint update_location (fuel : nat) (frame_idx : Z) (marker_cache : MarkerCache)
  (camera_model : CameraModel) : SM unit :=
  match fuel with
  | O => out_of_fuel
  | S fuel' =>
      update_location_prelude fuel' frame_idx marker_cache camera_model >>
      let* location :=
        try_except
          (location_cache_getitem frame_idx)
          (fun e => match e with TypeError | AttributeError => true | _ => false end)
          (_recalculate_location_cache frame_idx marker_cache camera_model >>
           ret None) in
      match location with
      | None =>
          let* entry := lift (subscript marker_cache frame_idx) in
          if negb (is_False entry) then
            update_location_cache frame_idx marker_cache camera_model >>
            update_location fuel' frame_idx marker_cache camera_model
          else
            modify (set_base (adopt_location Surface_Location_not_detected))
      | Some location =>
          modify (set_base (adopt_location location))
      end
  end.

(** Lines 187-195. *)
Definition move_corner (frame_idx : Z) (marker_cache : MarkerCache) (corner_idx : Z)
  (new_pos : Position) (camera_model : CameraModel) : SM unit :=
  modify (set_base (Surface_move_corner corner_idx new_pos camera_model)) >>
  modify (set_location_cache (Some (replicate (length marker_cache) None))) >>
  update_location_cache frame_idx marker_cache camera_model.

(** Lines 197-199. *)
Definition add_marker (id : Z) (verts_px : Vertices) (camera_model : CameraModel)
  : SM unit :=
  modify (set_base (Surface_add_marker id verts_px camera_model)) >>
  modify (set_location_cache None).

(** Lines 201-203. *)
Definition pop_marker (id : Z) : SM unit :=
  modify (set_base (Surface_pop_marker id)) >>
  modify (set_location_cache None).

(** *** Sections of the cache *)

(** [self.location_cache[section]]: subscripting [None] is a TypeError. *)
Definition location_cache_getslice (section : slice) (s : Surface_Offline)
  : exn + list CacheEntry :=
  match location_cache s with
  | None => inl TypeError
  | Some cache => inr (getslice cache section)
  end.

(** [location and location.detected], taken as a condition. *)
Definition location_and_detected (location : CacheEntry) : bool :=
  match location with
  | None => false
  | Some l => if Surface_Location_bool l then loc_detected l else false
  end.

(** Lines 49-60: the body of the loop, for one enumerated entry of the
    section. *)
Definition frame_gaze (section : slice) (all_world_timestamps : Timestamps)
  (all_gaze_events : GazeEvents) (camera_model : CameraModel) (s : Surface_Offline)
  (item : Z * CacheEntry) : list MappedPoint :=
  let frame_idx := fst item + start section in
  let location := snd item in
  if location_and_detected location then
    let frame_window := enclosing_window all_world_timestamps frame_idx in
    let gaze_events := by_ts_window all_gaze_events frame_window in
    Surface_map_gaze_and_fixation_events gaze_events camera_model
      (loc_img_to_surf_trans (default Surface_Location_not_detected location))
      (base s)
  else [].

(** Lines 41-62. The method reads the object and does not change it. *)
Definition map_section (section : slice) (all_world_timestamps : Timestamps)
  (all_gaze_events : GazeEvents) (camera_model : CameraModel) (s : Surface_Offline)
  : exn + list (list MappedPoint) :=
  match location_cache_getslice section s with
  | inl TypeError => inr []
  | inl e => inl e
  | inr location_cache =>
      inr (fold_left
             (fun section_gaze_on_surf item =>
                section_gaze_on_surf ++
                [frame_gaze section all_world_timestamps all_gaze_events
                   camera_model s item])
             (enumerate location_cache) [])
  end.

(** [bool(x)] for a cache entry: [False] or a location. *)
Definition entry_bool (x : CacheEntry) : bool :=
  match x with
  | None => false
  | Some l => Surface_Location_bool l
  end.

(** [sum(bools)] *)
Definition sum_bool (bs : list bool) : Z :=
  fold_left (fun acc b => acc + Z.b2z b) bs 0.

(** Lines 254-259. *)
Definition visible_count_in_section (section : slice) (s : Surface_Offline) : Z :=
  match location_cache s with
  | None => 0
  | Some cache =>
      let section_cache := getslice cache section in
      sum_bool (map entry_bool section_cache)
  end.

(** Lines 262-263. *)
Definition _cache_positive_eval_fn (x : CacheEntry) : bool :=
  match x with
  | None => false
  | Some l => loc_detected l
  end.

(** *** Persistence *)

(** Lines 210-218: [None] when the loop left through [break]. *)
Fixpoint save_loop (cache : list CacheEntry) (cache_to_file : list Serialized)
  : option (list Serialized) :=
  match cache with
  | [] => Some cache_to_file
  | None :: _ => None
  | Some location :: cache' =>
      save_loop cache' (cache_to_file ++ [get_serializable_copy location])
  end.

(** Lines 205-225. *)
Definition save_to_dict (s : Surface_Offline) : SaveDict :=
  let cache_to_file :=
    match location_cache s with
    | None => None
    | Some cache => save_loop cache []
    end in
  Build_SaveDict (Surface_save_to_dict (base s)) (Some cache_to_file)
    (Some (Build_AddedInPlayer (start_idx s) (observations_frame_idxs s))).

(** Lines 231-235: every element of the list is replaced by the location it
    describes. *)
Fixpoint load_loop (cache : list Serialized) : exn + list CacheEntry :=
  match cache with
  | [] => inr []
  | location :: cache' =>
      match load_from_serializable_copy location with
      | inl e => inl e
      | inr l =>
          match load_loop cache' with
          | inl e => inl e
          | inr ls => inr (Some l :: ls)
          end
      end
  end.

(** [init_dict["cache"]] followed by [len(cache)] and the loop. *)
Definition load_cache (init_dict : SaveDict) : exn + list CacheEntry :=
  match dict_cache init_dict with
  | None => inl KeyError
  | Some None => inl TypeError
  | Some (Some cache) => load_loop cache
  end.

(** Lines 227-252. *)
Definition _load_from_dict (init_dict : SaveDict) : SM unit :=
  modify (set_base (Surface_load_from_dict (dict_base init_dict))) >>
  try_except
    (let* cache := lift (load_cache init_dict) in
     modify (set_location_cache (Some cache)))
    (fun e => match e with KeyError | TypeError => true | _ => false end)
    (modify (set_location_cache None)) >>
  match dict_added_in_player init_dict with
  | None =>
      modify (set_observations_frame_idxs []) >>
      modify (set_start_idx (Some 0)) >>
      modify (set_base (set_build_up_status 1))
  | Some added_in_player =>
      modify (set_observations_frame_idxs (aip_observations_frame_idxs added_in_player)) >>
      modify (set_start_idx (aip_start_idx added_in_player))
  end.

(** *** What a method keeps

    Relations between the object a method starts from and the object it
    leaves. *)

(** The shape of the cache: whether it is there, its length, and which of
    its entries are resolved. *)
Definition cache_shape_kept (s s' : Surface_Offline) : Prop :=
  match location_cache s with
  | None => location_cache s' = None
  | Some c =>
      exists c', location_cache s' = Some c' /\
                 length c' = length c /\
                 forall k l, c !! k = Some (Some l) -> exists l', c' !! k = Some (Some l')
  end.

(** The definition of the surface: the registered markers, the build-up
    status, the rest of the base class, the frames that contributed and the
    start of the scan. *)
Definition definition_kept (s s' : Surface_Offline) : Prop :=
  registered_markers_undist (base s') = registered_markers_undist (base s) /\
  registered_markers_dist (base s') = registered_markers_dist (base s) /\
  build_up_status (base s') = build_up_status (base s) /\
  base_rest (base s') = base_rest (base s) /\
  observations_frame_idxs s' = observations_frame_idxs s /\
  start_idx s' = start_idx s.

(** The progress of the scan: a start that is set stays, frames are only
    added to the observations, and none is added twice. *)
Definition scan_progress (s s' : Surface_Offline) : Prop :=
  (forall i, start_idx s = Some i -> start_idx s' = Some i) /\
  (exists added, observations_frame_idxs s' = observations_frame_idxs s ++ added) /\
  (NoDup (observations_frame_idxs s) -> NoDup (observations_frame_idxs s')).

(** *** A full pass of the scan *)

(** The frames a scan that starts at [frame_idx] visits on a recording of
    [n] frames, in order: from [frame_idx] to the last frame, then from
    frame 0 to [frame_idx - 1]. *)
Definition full_pass (frame_idx : Z) (n : nat) : list Z :=
  seqZ frame_idx (Z.of_nat n - frame_idx) ++ seqZ 0 frame_idx.

(** The markers of a frame that has been processed upstream. *)
Definition frame_markers (marker_cache : MarkerCache) (i : Z) : list Marker :=
  match marker_cache !! Z.to_nat i with
  | Some (Some ms) => ms
  | _ => []
  end.

(** The base class after the frames of [path] have been fed into the
    definition one after the other (lines 110-112 on each of them). *)
Definition feed_frames (camera_model : CameraModel) (marker_cache : MarkerCache)
  (path : list Z) (b : Surface) : Surface :=
  fold_left
    (fun b i =>
       Surface_update_definition i (markers_by_id (frame_markers marker_cache i))
         camera_model b)
    path b.

End Methods.

(** ** A concrete recording

    An instance of the collaborators on which the methods can be run: markers
    are their ids, matrices are numbers, a frame with at least one marker
    adds a fifth to the build-up status and is located as detected, and a
    new background task has not produced anything yet. *)

Module Scenario.

#[export] Instance ext : External := {|
  Marker := Z;
  marker_id := fun m => m;
  CameraModel := unit;
  Matrix := Z;
  RegisteredMarkers := unit;
  BaseRest := unit;
  Subscriber := unit;
  Position := Z * Z;
  Vertices := unit;
  GazeEvents := list Z;
  Timestamps := unit;
  Window := Z * Z;
  MappedPoint := Z * Z;
  Serialized := bool * (option Z * option Z * option Z * option Z) * Z;
  BaseDict := unit
|}.

Definition serialize (l : Surface_Location) : Serialized :=
  (loc_detected l,
   (loc_dist_img_to_surf_trans l, loc_surf_to_dist_img_trans l,
    loc_img_to_surf_trans l, loc_surf_to_img_trans l),
   loc_num_detected_markers l).

Definition deserialize (c : Serialized) : exn + Surface_Location :=
  let '(d, (m1, m2, m3, m4), k) := c in
  inr (Build_Location d m1 m2 m3 m4 k).

Definition accumulate (idx : Z) (visible_markers : list (Z * Marker))
  (camera_model : CameraModel) (b : Surface) : Surface :=
  match visible_markers with
  | [] => b
  | _ :: _ => set_build_up_status (Qplus (build_up_status b) (Qmake 1 5)) b
  end.

Definition locate (visible_markers : list (Z * Marker)) (camera_model : CameraModel)
  (undist dist : RegisteredMarkers) : Surface_Location :=
  match visible_markers with
  | [] => Surface_Location_not_detected
  | _ :: _ =>
      Build_Location true (Some 1) (Some 2) (Some 3) (Some 4)
        (Z.of_nat (length visible_markers))
  end.

Definition map_events (events : GazeEvents) (camera_model : CameraModel)
  (trans_matrix : option Matrix) (b : Surface) : list MappedPoint :=
  map (fun e => (default 0 trans_matrix, e)) events.

Definition window (ts : Timestamps) (idx : Z) : Window := (10 * idx, 10 * idx + 10).

Definition events_in (events : GazeEvents) (w : Window) : GazeEvents :=
  List.filter (fun e => (fst w <=? e) && (e <? snd w)) events.

#[export] Instance col : Collaborators := {|
  Surface_Location_bool := loc_detected;
  get_serializable_copy := serialize;
  load_from_serializable_copy := deserialize;
  Surface_update_definition := accumulate;
  Surface_prune_markers := fun b => b;
  Surface_move_corner := fun _ _ _ b => b;
  Surface_add_marker := fun _ _ _ b => b;
  Surface_pop_marker := fun _ b => b;
  Surface_locate := locate;
  Surface_map_gaze_and_fixation_events := map_events;
  Surface_save_to_dict := fun _ => tt;
  Surface_load_from_dict := fun _ b => b;
  enclosing_window := window;
  by_ts_window := events_in;
  background_data_processor := fun _ _ _ _ => Build_Job [] false
|}.

(** A surface whose definition has the given build-up status. *)
Definition surface (status : Q) : Surface :=
  Build_Surface tt tt status false None None None None 0 tt.

(** A detected location. *)
Definition seen : Surface_Location :=
  Build_Location true (Some 1) (Some 2) (Some 3) (Some 4) 1.

(** Recordings of [n] frames: no frame has markers, every frame shows
    marker 7, no frame has been processed yet. *)
Definition empty_frames (n : nat) : MarkerCache := replicate n (Some []).
Definition marker_frames (n : nat) : MarkerCache := replicate n (Some [7]).
Definition unknown_frames (n : nat) : MarkerCache := replicate n None.

(** The object as [__init__] leaves it, for a surface with the given
    build-up status. *)
Definition fresh (status : Q) : Surface_Offline := __init__ (surface status).

(** A defined surface without subscriber whose background task delivers
    its last two results and reports completion at the next poll. *)
Definition finishing : Surface_Offline :=
  Build_Surface_Offline (surface 1) (Some [None; None]) 0
    (Some (Build_Job [([(0, Surface_Location_not_detected); (1, seen)], true)] false))
    [] None (Some 0) [].

(** A defined surface whose cache was dropped while its background task
    still has a result to deliver. *)
Definition invalidated : Surface_Offline :=
  Build_Surface_Offline (surface 1) None 0
    (Some (Build_Job [([(0, seen)], false)] false))
    [] None (Some 0) [].

(** An undefined surface with a subscriber, a scan that started at frame 0
    and a provisional cache. *)
Definition provisional : Surface_Offline :=
  Build_Surface_Offline (surface 0) (Some [Some seen; None]) 0 None
    [] (Some tt) (Some 0) [].

(** A defined surface with a subscriber and a live background task. *)
Definition editing : Surface_Offline :=
  Build_Surface_Offline (surface 1) (Some [Some seen; Some seen]) 0
    (Some (Build_Job [([(1, seen)], true)] false))
    [] (Some tt) (Some 0) [].

(** A defined surface with a subscriber and a cache of two frames, the
    second one not computed yet. *)
Definition half_filled : Surface_Offline :=
  Build_Surface_Offline (surface 1) (Some [Some seen; None]) 0 None
    [] (Some tt) (Some 0) [].

(** The same with both frames computed. *)
Definition filled : Surface_Offline :=
  Build_Surface_Offline (surface 1) (Some [Some seen; Some Surface_Location_not_detected])
    0 None [] (Some tt) (Some 0) [].

(** [half_filled] after the second frame has been computed on demand. *)
Definition filled_by_demand : Surface_Offline :=
  Build_Surface_Offline (surface 1) (Some [Some seen; Some seen]) 0 None
    [] (Some tt) (Some 0) [].

(** A defined surface whose task delivers three results, two of them for
    frame 0, and goes on. *)
Definition draining : Surface_Offline :=
  Build_Surface_Offline (surface 1) (Some [None; None; None]) 0
    (Some (Build_Job
             [([(0, seen); (2, seen); (0, Surface_Location_not_detected)], false)]
             false))
    [] (Some tt) (Some 0) [].

(** [finishing] with a subscriber. *)
Definition finishing_subscribed : Surface_Offline :=
  Build_Surface_Offline (surface 1) (Some [None; None]) 0
    (Some (Build_Job [([(0, Surface_Location_not_detected); (1, seen)], true)] false))
    [] (Some tt) (Some 0) [].

(** A record as a surface created outside the player leaves it: neither a
    cache nor player metadata. *)
Definition legacy_record : SaveDict := Build_SaveDict tt None None.

(** [half_filled] with a live background task that has nothing at its next
    poll and delivers NotDetected for frame 1 at the poll after that. *)
Definition racing : Surface_Offline :=
  Build_Surface_Offline (surface 1) (Some [Some seen; None]) 0
    (Some (Build_Job [([], false); ([(1, Surface_Location_not_detected)], false)] false))
    [] (Some tt) (Some 0) [].

(** An undefined surface whose scan started at frame 0 and has fed that
    frame into the definition; its cache of two frames is still empty. *)
Definition bootstrapping : Surface_Offline :=
  Build_Surface_Offline (surface (Qmake 1 5)) (Some [None; None]) 0 None
    [0] (Some tt) (Some 0) [].


End Scenario.

(** ** Properties *)

(** Runs the monad: unfolds its operations and evaluates, keeping the
    methods folded. *)
Ltac run :=
  unfold bind, ret, get, modify, raise, lift, try_except;
  cbn -[update_location scan_loop scan_body observe_frame locate_entry replicate
       Z_in _recalculate_location_cache update_location_cache
       _fetch_from_location_cache_filler update_location_prelude].

Section Properties.

Context {ext : External} {col : Collaborators}.

(** *** Subscripting *)

Lemma norm_index_in_range (n : nat) (i : Z) :
  0 <= i < Z.of_nat n -> norm_index n i = Some (Z.to_nat i).
Proof.
  intros Hi. unfold norm_index.
  destruct (0 <=? i) eqn:H0; [|lia].
  destruct (i <? Z.of_nat n) eqn:H1; [reflexivity|lia].
Qed.

Lemma norm_index_lt (n : nat) (i : Z) (k : nat) :
  norm_index n i = Some k -> (k < n)%nat.
Proof.
  unfold norm_index.
  destruct ((0 <=? i) && (i <? Z.of_nat n)) eqn:H0.
  - intros [= <-]. apply andb_true_iff in H0 as [? ?]. lia.
  - destruct ((- Z.of_nat n <=? i) && (i <? 0)) eqn:H1; [|discriminate].
    intros [= <-]. apply andb_true_iff in H1 as [? ?]. lia.
Qed.

Lemma subscript_inr {A : Type} (l : list A) (i : Z) (x : A) :
  subscript l i = inr x <->
  exists n, norm_index (length l) i = Some n /\ l !! n = Some x.
Proof.
  unfold subscript, getitem. destruct (norm_index (length l) i) as [n|].
  - destruct (l !! n) as [y|] eqn:Hy; split.
    + intros [= ->]. eauto.
    + intros (m & [= <-] & Hm). congruence.
    + discriminate.
    + intros (m & [= <-] & Hm). congruence.
  - split; [discriminate | intros (m & Hm & _); discriminate].
Qed.

Lemma subscript_in_range {A : Type} (l : list A) (i : Z) :
  0 <= i < Z.of_nat (length l) ->
  exists x, l !! Z.to_nat i = Some x /\ subscript l i = inr x.
Proof.
  intros Hi. destruct (lookup_lt_is_Some_2 l (Z.to_nat i)) as [x Hx]; [lia|].
  exists x. split; [exact Hx|]. apply subscript_inr. exists (Z.to_nat i).
  split; [apply norm_index_in_range; exact Hi | exact Hx].
Qed.

(** *** Updating a single entry and moving a corner *)

Lemma Cache_List_update_norm (cache : list CacheEntry) (key : Z) (n : nat)
  (item : Surface_Location) :
  norm_index (length cache) key = Some n ->
  Cache_List_update cache key item = inr (<[n:=Some item]> cache).
Proof.
  intros Hn. unfold Cache_List_update, setitem. rewrite Hn. reflexivity.
Qed.

Lemma update_location_cache_writes (frame_idx : Z) (marker_cache : MarkerCache)
  (camera_model : CameraModel) (s : Surface_Offline) (cache : list CacheEntry)
  (n : nat) (entry : MarkerEntry) :
  norm_index (length marker_cache) frame_idx = Some n ->
  marker_cache !! n = Some entry ->
  location_cache s = Some cache ->
  length cache = length marker_cache ->
  update_location_cache frame_idx marker_cache camera_model s =
  Return tt (set_location_cache
               (Some (<[n:=Some (locate_entry entry camera_model (base s))]> cache)) s).
Proof.
  intros Hn He Hc Hlen.
  assert (Hsub : subscript marker_cache frame_idx = inr entry)
    by (apply subscript_inr; eauto).
  unfold update_location_cache, try_except, bind, lift, get, location_cache_update.
  rewrite Hsub. cbn. rewrite Hc. cbn.
  rewrite (Cache_List_update_norm cache frame_idx n) by (rewrite Hlen; exact Hn).
  reflexivity.
Qed.

Lemma replicate_insert_resolved (N n : nat) (x : Surface_Location) (i : nat) :
  (n < N)%nat ->
  (exists l, <[n:=Some x]> (replicate N (None : CacheEntry)) !! i = Some (Some l))
  <-> i = n.
Proof.
  intros Hn. split.
  - intros [l Hl]. destruct (decide (i = n)) as [->|Hne]; [reflexivity|].
    rewrite list_lookup_insert_ne in Hl by congruence.
    apply lookup_replicate in Hl as [Hl _]. discriminate.
  - intros ->. exists x. apply list_lookup_insert_eq.
    rewrite length_replicate. exact Hn.
Qed.

Lemma move_corner_in_range (frame_idx : Z) (marker_cache : MarkerCache)
  (corner_idx : Z) (new_pos : Position) (camera_model : CameraModel)
  (s : Surface_Offline) (entry : MarkerEntry) :
  0 <= frame_idx < Z.of_nat (length marker_cache) ->
  marker_cache !! Z.to_nat frame_idx = Some entry ->
  let b := Surface_move_corner corner_idx new_pos camera_model (base s) in
  move_corner frame_idx marker_cache corner_idx new_pos camera_model s =
  Return tt
    (set_location_cache
       (Some (<[Z.to_nat frame_idx := Some (locate_entry entry camera_model b)]>
                (replicate (length marker_cache) None)))
       (set_base (Surface_move_corner corner_idx new_pos camera_model) s)).
Proof.
  intros Hi He b. unfold move_corner, bind, modify.
  rewrite (update_location_cache_writes frame_idx marker_cache camera_model _
             (replicate (length marker_cache) None) (Z.to_nat frame_idx) entry).
  - reflexivity.
  - apply norm_index_in_range; exact Hi.
  - exact He.
  - reflexivity.
  - apply length_replicate.
Qed.

(** Claim C6, as amended: a call to [move_corner] at a frame of the
    recording returns normally; it leaves the handle of the background task
    as it was and neither cancels nor starts a task (the effect log is
    unchanged); the base class has moved the corner; the cache has been
    reset to the length of the marker cache and exactly the entry of the
    edited frame is resolved. *)
Theorem move_corner_resets_and_resolves_one (frame_idx : Z) (marker_cache : MarkerCache)
  (corner_idx : Z) (new_pos : Position) (camera_model : CameraModel)
  (s : Surface_Offline) :
  0 <= frame_idx < Z.of_nat (length marker_cache) ->
  exists s' cache',
    move_corner frame_idx marker_cache corner_idx new_pos camera_model s = Return tt s' /\
    location_cache_filler s' = location_cache_filler s /\
    effects s' = effects s /\
    base s' = Surface_move_corner corner_idx new_pos camera_model (base s) /\
    location_cache s' = Some cache' /\
    length cache' = length marker_cache /\
    forall i : nat,
      (exists l, cache' !! i = Some (Some l)) <-> i = Z.to_nat frame_idx.
Proof.
  intros Hi.
  destruct (lookup_lt_is_Some_2 marker_cache (Z.to_nat frame_idx)) as [entry He]; [lia|].
  eexists _, _. split; [apply (move_corner_in_range _ _ _ _ _ _ entry Hi He)|].
  cbn. repeat split.
  - rewrite length_insert. apply length_replicate.
  - apply replicate_insert_resolved. lia.
  - apply replicate_insert_resolved. lia.
Qed.

(** Claim C10: [move_corner] at a frame whose marker-cache entry is still
    [False] (not computed upstream) writes the NotDetected location into the
    freshly reset cache at that index, because the single-entry recompute
    gives a [False] entry the same location as an entry without markers. *)
Theorem move_corner_unknown_markers_writes_not_detected (frame_idx : Z)
  (marker_cache : MarkerCache) (corner_idx : Z) (new_pos : Position)
  (camera_model : CameraModel) (s : Surface_Offline) :
  0 <= frame_idx < Z.of_nat (length marker_cache) ->
  marker_cache !! Z.to_nat frame_idx = Some None ->
  (forall b, locate_entry None camera_model b = locate_entry (Some []) camera_model b) /\
  exists s' cache',
    move_corner frame_idx marker_cache corner_idx new_pos camera_model s = Return tt s' /\
    location_cache s' = Some cache' /\
    cache' !! Z.to_nat frame_idx = Some (Some Surface_Location_not_detected).
Proof.
  intros Hi He. split; [reflexivity|].
  eexists _, _. split; [apply (move_corner_in_range _ _ _ _ _ _ None Hi He)|].
  cbn. split; [reflexivity|].
  apply list_lookup_insert_eq. rewrite length_replicate. lia.
Qed.

(** *** Sections of the cache *)

Lemma clamp_in_range (n : nat) (i : Z) : 0 <= i <= Z.of_nat n -> clamp n i = i.
Proof. intros Hi. unfold clamp. destruct (i <? 0) eqn:E; lia. Qed.

Lemma getslice_in_range {A : Type} (l : list A) (a b : Z) :
  0 <= a <= b -> b <= Z.of_nat (length l) ->
  getslice l (Slice a b) = take (Z.to_nat (b - a)) (drop (Z.to_nat a) l).
Proof.
  intros Ha Hb. unfold getslice. cbn.
  rewrite !clamp_in_range by lia. reflexivity.
Qed.

Lemma getslice_length {A : Type} (l : list A) (a b : Z) :
  0 <= a <= b -> b <= Z.of_nat (length l) ->
  length (getslice l (Slice a b)) = Z.to_nat (b - a).
Proof.
  intros Ha Hb. rewrite getslice_in_range by assumption.
  rewrite length_take, length_drop. lia.
Qed.

Lemma getslice_lookup {A : Type} (l : list A) (a b : Z) (k : nat) :
  0 <= a <= b -> b <= Z.of_nat (length l) -> (k < Z.to_nat (b - a))%nat ->
  getslice l (Slice a b) !! k = l !! (Z.to_nat a + k)%nat.
Proof.
  intros Ha Hb Hk. rewrite getslice_in_range by assumption.
  rewrite lookup_take_lt by exact Hk. apply lookup_drop.
Qed.

Lemma enumerate_from_lookup {A : Type} (l : list A) (k : Z) (i : nat) :
  enumerate_from k l !! i = (fun x => (k + Z.of_nat i, x)) <$> l !! i.
Proof.
  revert k i. induction l as [|x l IH]; intros k i; [reflexivity|].
  destruct i as [|i]; cbn.
  - f_equal. f_equal. lia.
  - rewrite IH. destruct (l !! i); cbn; [|reflexivity]. do 2 f_equal. lia.
Qed.

Lemma fold_left_snoc_map {A B : Type} (f : A -> B) (l : list A) (acc : list B) :
  fold_left (fun acc x => acc ++ [f x]) l acc = acc ++ map f l.
Proof.
  revert acc. induction l as [|x l IH]; intros acc; cbn.
  - symmetry. apply app_nil_r.
  - rewrite IH, <- app_assoc. reflexivity.
Qed.

Lemma map_section_as_map (section : slice) (all_world_timestamps : Timestamps)
  (all_gaze_events : GazeEvents) (camera_model : CameraModel) (s : Surface_Offline) :
  map_section section all_world_timestamps all_gaze_events camera_model s =
  match location_cache s with
  | None => inr []
  | Some cache =>
      inr (map (frame_gaze section all_world_timestamps all_gaze_events camera_model s)
             (enumerate (getslice cache section)))
  end.
Proof.
  unfold map_section, location_cache_getslice.
  destruct (location_cache s) as [cache|]; [|reflexivity].
  f_equal.
  rewrite <- (app_nil_l (map _ _)), <- fold_left_snoc_map.
  reflexivity.
Qed.

Lemma sum_bool_count {A : Type} (f : A -> bool) (l : list A) :
  sum_bool (map f l) = Z.of_nat (length (List.filter f l)).
Proof.
  unfold sum_bool.
  assert (G : forall acc, fold_left (fun acc b => acc + Z.b2z b) (map f l) acc =
                          acc + Z.of_nat (length (List.filter f l))).
  { induction l as [|x l IH]; intros acc; cbn; [lia|].
    rewrite IH. destruct (f x); cbn; lia. }
  apply G.
Qed.

Lemma visible_count_in_section_counts_truthy (section : slice) (s : Surface_Offline) :
  visible_count_in_section section s =
  match location_cache s with
  | None => 0
  | Some cache => Z.of_nat (length (List.filter entry_bool (getslice cache section)))
  end.
Proof.
  unfold visible_count_in_section. destruct (location_cache s); [|reflexivity].
  apply sum_bool_count.
Qed.

Lemma filter_ext_bool {A : Type} (f g : A -> bool) (l : list A) :
  (forall x, f x = g x) -> List.filter f l = List.filter g l.
Proof.
  intros E. induction l as [|x l IH]; cbn; [reflexivity|].
  rewrite E, IH. reflexivity.
Qed.



(** Claim C8: [map_section] never raises and yields the empty list on an
    absent cache. On a cache and a section within it, the result has one
    entry per frame of the section, in order; the entry of a frame is its
    events mapped through the stored image-to-surface transform when the
    cache entry of that frame is Detected, and the empty list otherwise.
    (A detected [Surface_Location] is taken to be truthy.) *)
Theorem map_section_aligned_with_range
  (Hbool : forall l : Surface_Location,
      loc_detected l = true -> Surface_Location_bool l = true)
  (section : slice) (all_world_timestamps : Timestamps)
  (all_gaze_events : GazeEvents) (camera_model : CameraModel) (s : Surface_Offline) :
  (exists r, map_section section all_world_timestamps all_gaze_events camera_model s
             = inr r) /\
  (location_cache s = None ->
   map_section section all_world_timestamps all_gaze_events camera_model s = inr []) /\
  (forall cache, location_cache s = Some cache ->
     0 <= start section <= stop section ->
     stop section <= Z.of_nat (length cache) ->
     exists r,
       map_section section all_world_timestamps all_gaze_events camera_model s = inr r /\
       length r = Z.to_nat (stop section - start section) /\
       forall k : nat, (k < Z.to_nat (stop section - start section))%nat ->
         r !! k =
         Some (match cache !! (Z.to_nat (start section) + k)%nat with
               | Some (Some l) =>
                   if loc_detected l then
                     Surface_map_gaze_and_fixation_events
                       (by_ts_window all_gaze_events
                          (enclosing_window all_world_timestamps
                             (start section + Z.of_nat k)))
                       camera_model (loc_img_to_surf_trans l) (base s)
                   else []
               | _ => []
               end)).
Proof.
  rewrite map_section_as_map. split; [|split].
  - destruct (location_cache s); eauto.
  - intros ->. reflexivity.
  - intros cache -> Hab Hb. destruct section as [a b]; cbn in *.
    unfold CacheEntry in *.
    eexists. split; [reflexivity|]. split.
    + rewrite length_map. unfold enumerate.
      assert (L : forall (l : list CacheEntry) k, length (enumerate_from k l) = length l).
      { induction l as [|x l IH]; intros k; cbn; [reflexivity|]. rewrite IH. reflexivity. }
      rewrite L. apply getslice_length; assumption.
    + intros k Hk. rewrite list_lookup_fmap. unfold enumerate.
      rewrite enumerate_from_lookup, getslice_lookup by assumption.
      destruct (lookup_lt_is_Some_2 cache (Z.to_nat a + k)) as [e He]; [lia|].
      rewrite He. cbn. f_equal. unfold frame_gaze. cbn.
      replace (0 + Z.of_nat k + a) with (a + Z.of_nat k) by lia.
      destruct e as [l|]; cbn; [|reflexivity].
      destruct (loc_detected l) eqn:Hd.
      * rewrite (Hbool l Hd). reflexivity.
      * destruct (Surface_Location_bool l); reflexivity.
Qed.

(** *** Saving and loading *)

Lemma resolved_cache_locations (cache : list CacheEntry) :
  ~ In None cache -> exists ls : list Surface_Location, cache = map Some ls.
Proof.
  induction cache as [|e cache IH]; intros Hn.
  - exists []. reflexivity.
  - destruct e as [l|]; [|exfalso; apply Hn; left; reflexivity].
    destruct IH as [ls ->]; [intros Hin; apply Hn; right; exact Hin|].
    exists (l :: ls). reflexivity.
Qed.

Lemma save_loop_resolved (ls : list Surface_Location) (acc : list Serialized) :
  save_loop (map Some ls) acc = Some (acc ++ map get_serializable_copy ls).
Proof.
  revert acc. induction ls as [|l ls IH]; intros acc; cbn.
  - rewrite app_nil_r. reflexivity.
  - rewrite IH, <- app_assoc. reflexivity.
Qed.

Lemma save_loop_partial (cache : list CacheEntry) (acc : list Serialized) :
  In None cache -> save_loop cache acc = None.
Proof.
  revert acc. induction cache as [|e cache IH]; intros acc Hin; [destruct Hin|].
  destruct e as [l|]; cbn; [|reflexivity].
  apply IH. destruct Hin as [Hin|Hin]; [discriminate | exact Hin].
Qed.

Lemma load_loop_saved
  (Hrt : forall l, load_from_serializable_copy (get_serializable_copy l) = inr l)
  (ls : list Surface_Location) :
  load_loop (map get_serializable_copy ls) = inr (map Some ls).
Proof.
  induction ls as [|l ls IH]; cbn; [reflexivity|].
  rewrite Hrt, IH. reflexivity.
Qed.

(** Claim C7: provided loading a serialised location gives the location
    back, [save_to_dict] followed by [_load_from_dict] restores a cache
    without [False] entries to an equal cache; if the cache is absent or has
    a [False] entry, the saved record holds the null cache and loading it
    leaves the cache absent. *)
Theorem save_then_load_round_trip
  (Hrt : forall l, load_from_serializable_copy (get_serializable_copy l) = inr l)
  (s s0 : Surface_Offline) :
  (forall cache, location_cache s = Some cache -> ~ In None cache ->
     exists s', _load_from_dict (save_to_dict s) s0 = Return tt s' /\
                location_cache s' = Some cache) /\
  (location_cache s = None \/
   (exists cache, location_cache s = Some cache /\ In None cache) ->
     dict_cache (save_to_dict s) = Some None /\
     exists s', _load_from_dict (save_to_dict s) s0 = Return tt s' /\
                location_cache s' = None).
Proof.
  split.
  - intros cache Hc Hres. destruct (resolved_cache_locations cache Hres) as [ls ->].
    unfold _load_from_dict, save_to_dict, load_cache, try_except, bind, modify, lift.
    cbn. rewrite Hc, save_loop_resolved. cbn. rewrite (load_loop_saved Hrt). cbn.
    eexists. split; reflexivity.
  - intros Hpart.
    assert (Hnull : dict_cache (save_to_dict s) = Some None).
    { unfold save_to_dict. cbn. destruct Hpart as [-> | (cache & -> & Hin)].
      - reflexivity.
      - rewrite (save_loop_partial cache [] Hin). reflexivity. }
    split; [exact Hnull|].
    unfold _load_from_dict, load_cache, try_except, bind, modify, lift.
    rewrite Hnull. cbn. eexists. split; reflexivity.
Qed.

(** With the truth value every Python object has unless its class says
    otherwise, the count is that of the computed entries. *)
Lemma visible_count_in_section_default_truth
  (Hobj : forall l : Surface_Location, Surface_Location_bool l = true)
  (section : slice) (s : Surface_Offline) (cache : list CacheEntry) :
  location_cache s = Some cache ->
  visible_count_in_section section s =
  Z.of_nat (length (List.filter (fun e => negb (is_False e)) (getslice cache section))).
Proof.
  intros Hc. rewrite visible_count_in_section_counts_truthy, Hc.
  do 2 f_equal. apply filter_ext_bool.
  intros [l|]; cbn; [apply Hobj | reflexivity].
Qed.

(** *** Draining the background task *)

Lemma fetch_without_job (s : Surface_Offline) :
  location_cache_filler s = None ->
  _fetch_from_location_cache_filler s = Return tt s.
Proof.
  intros Hf. unfold _fetch_from_location_cache_filler, bind, get. cbn.
  rewrite Hf. reflexivity.
Qed.

Lemma fetch_nothing_new (s : Surface_Offline) (j j' : Job) :
  location_cache_filler s = Some j ->
  job_fetch j = ([], j') ->
  job_completed j' = false ->
  _fetch_from_location_cache_filler s =
  Return tt (set_location_cache_filler (Some j') s).
Proof.
  intros Hf Hj Hc. unfold _fetch_from_location_cache_filler, bind, get. cbn.
  rewrite Hf, Hj. cbn. rewrite Hc. reflexivity.
Qed.

Lemma fetch_completed_without_subscriber (s : Surface_Offline) (j j' : Job) :
  location_cache_filler s = Some j ->
  job_fetch j = ([], j') ->
  job_completed j' = true ->
  on_surface_change s = None ->
  _fetch_from_location_cache_filler s =
  Raise TypeError (set_location_cache_filler None s).
Proof.
  intros Hf Hj Hc Hs. unfold _fetch_from_location_cache_filler, bind, get. cbn.
  rewrite Hf, Hj. cbn. rewrite Hc. cbn.
  unfold call_on_surface_change, bind, get. cbn. rewrite Hs. reflexivity.
Qed.

Lemma fetch_into_absent_cache (s : Surface_Offline) (j j' : Job)
  (r : Z * Surface_Location) (rs : list (Z * Surface_Location)) :
  location_cache_filler s = Some j ->
  job_fetch j = (r :: rs, j') ->
  location_cache s = None ->
  _fetch_from_location_cache_filler s =
  Raise AttributeError (set_location_cache_filler None (emit (JobCancelled j') s)).
Proof.
  intros Hf Hj Hc. unfold _fetch_from_location_cache_filler, bind, get. cbn.
  rewrite Hf, Hj. destruct r as [idx loc]. cbn.
  unfold try_except, bind, location_cache_update, get. cbn. rewrite Hc. cbn.
  reflexivity.
Qed.

(** *** One step of [update_location] *)

Lemma update_location_unfold (fuel : nat) (frame_idx : Z) (marker_cache : MarkerCache)
  (camera_model : CameraModel) :
  update_location (S fuel) frame_idx marker_cache camera_model =
  (update_location_prelude fuel frame_idx marker_cache camera_model >>
   let* location :=
     try_except
       (location_cache_getitem frame_idx)
       (fun e => match e with TypeError | AttributeError => true | _ => false end)
       (_recalculate_location_cache frame_idx marker_cache camera_model >>
        ret None) in
   match location with
   | None =>
       let* entry := lift (subscript marker_cache frame_idx) in
       if negb (is_False entry) then
         update_location_cache frame_idx marker_cache camera_model >>
         update_location fuel frame_idx marker_cache camera_model
       else
         modify (set_base (adopt_location Surface_Location_not_detected))
   | Some location =>
       modify (set_base (adopt_location location))
   end).
Proof. reflexivity. Qed.

Lemma prelude_defined_without_job (fuel : nat) (frame_idx : Z)
  (marker_cache : MarkerCache) (camera_model : CameraModel) (s : Surface_Offline) :
  defined s = true ->
  update_location_prelude fuel frame_idx marker_cache camera_model s =
  _fetch_from_location_cache_filler s.
Proof.
  intros Hd. unfold update_location_prelude, bind, get. rewrite Hd. reflexivity.
Qed.

Lemma update_location_prelude_raises (fuel : nat) (frame_idx : Z)
  (marker_cache : MarkerCache) (camera_model : CameraModel) (s s' : Surface_Offline)
  (e : exn) :
  update_location_prelude fuel frame_idx marker_cache camera_model s = Raise e s' ->
  update_location (S fuel) frame_idx marker_cache camera_model s = Raise e s'.
Proof.
  intros Hp. rewrite update_location_unfold. unfold bind at 1. rewrite Hp. reflexivity.
Qed.

Lemma update_location_resolved (fuel : nat) (frame_idx : Z)
  (marker_cache : MarkerCache) (camera_model : CameraModel) (s s1 : Surface_Offline)
  (cache : list CacheEntry) (location : Surface_Location) :
  update_location_prelude fuel frame_idx marker_cache camera_model s = Return tt s1 ->
  location_cache s1 = Some cache ->
  subscript cache frame_idx = inr (Some location) ->
  update_location (S fuel) frame_idx marker_cache camera_model s =
  Return tt (set_base (adopt_location location) s1).
Proof.
  intros Hp Hc Hl. rewrite update_location_unfold. unfold bind at 1. rewrite Hp.
  unfold location_cache_getitem. run. rewrite Hc. run. rewrite Hl.
  reflexivity.
Qed.

Lemma update_location_pending (fuel : nat) (frame_idx : Z)
  (marker_cache : MarkerCache) (camera_model : CameraModel) (s s1 : Surface_Offline)
  (cache : list CacheEntry) :
  update_location_prelude fuel frame_idx marker_cache camera_model s = Return tt s1 ->
  location_cache s1 = Some cache ->
  subscript cache frame_idx = inr None ->
  subscript marker_cache frame_idx = inr None ->
  update_location (S fuel) frame_idx marker_cache camera_model s =
  Return tt (set_base (adopt_location Surface_Location_not_detected) s1).
Proof.
  intros Hp Hc Hl Hm. rewrite update_location_unfold. unfold bind at 1. rewrite Hp.
  unfold location_cache_getitem. run. rewrite Hc. run. rewrite Hl. run.
  rewrite Hm. reflexivity.
Qed.

Lemma update_location_on_demand (fuel : nat) (frame_idx : Z)
  (marker_cache : MarkerCache) (camera_model : CameraModel) (s s1 : Surface_Offline)
  (cache : list CacheEntry) (n : nat) (markers : list Marker) :
  update_location_prelude fuel frame_idx marker_cache camera_model s = Return tt s1 ->
  location_cache s1 = Some cache ->
  norm_index (length cache) frame_idx = Some n ->
  cache !! n = Some None ->
  subscript marker_cache frame_idx = inr (Some markers) ->
  update_location (S fuel) frame_idx marker_cache camera_model s =
  update_location fuel frame_idx marker_cache camera_model
    (set_location_cache
       (Some (<[n:=Some (locate_entry (Some markers) camera_model (base s1))]> cache))
       s1).
Proof.
  intros Hp Hc Hn Hl Hm.
  assert (Hsub : subscript cache frame_idx = inr None) by (apply subscript_inr; eauto).
  rewrite update_location_unfold. unfold bind at 1. rewrite Hp.
  unfold location_cache_getitem. run. rewrite Hc. run. rewrite Hsub. run.
  rewrite Hm. run.
  unfold update_location_cache, location_cache_update. run. rewrite Hm. run.
  rewrite Hc. run.
  rewrite (Cache_List_update_norm cache frame_idx n _ Hn).
  reflexivity.
Qed.

(** *** The bootstrap scan *)

Lemma scan_loop_defined (fuel : nat) (camera_model : CameraModel) (frame_idx : Z)
  (marker_cache : MarkerCache) (def_idx : option Z) (s : Surface_Offline) :
  defined s = true ->
  scan_loop fuel camera_model frame_idx marker_cache def_idx s =
  Return tt (match on_surface_change s with
             | Some cb => emit (SurfaceChanged cb) (set_location_cache None s)
             | None => set_location_cache None s
             end).
Proof.
  intros Hd. destruct fuel; cbn -[defined]; unfold bind, get; rewrite Hd;
    unfold call_on_surface_change; run;
    destruct (on_surface_change s) eqn:Hs; run; rewrite ?Hs; reflexivity.
Qed.

Lemma scan_loop_unfold (fuel : nat) (camera_model : CameraModel) (frame_idx : Z)
  (marker_cache : MarkerCache) (def_idx : option Z) (s : Surface_Offline) :
  defined s = false ->
  scan_loop (S fuel) camera_model frame_idx marker_cache def_idx s =
  scan_body (scan_loop fuel camera_model frame_idx marker_cache)
    camera_model frame_idx marker_cache
    (wrap_def_idx def_idx frame_idx marker_cache) s.
Proof.
  intros Hd. cbn -[defined scan_body]. unfold bind at 1, get. rewrite Hd. reflexivity.
Qed.

Lemma scan_loop_unknown (fuel : nat) (camera_model : CameraModel) (frame_idx : Z)
  (marker_cache : MarkerCache) (def_idx : option Z) (i : Z) (s : Surface_Offline) :
  defined s = false ->
  wrap_def_idx def_idx frame_idx marker_cache = Some i ->
  subscript marker_cache i = inr None ->
  scan_loop (S fuel) camera_model frame_idx marker_cache def_idx s = Return tt s.
Proof.
  intros Hd Hw Hm. rewrite scan_loop_unfold by exact Hd. rewrite Hw.
  unfold scan_body, marker_entry_is_False. run. rewrite Hm. reflexivity.
Qed.

(** Claim C3, as amended: when the bootstrap scan, on a surface that is
    not yet defined, reaches at an integer scan position a marker-cache
    entry that is [False], it stops and leaves the object exactly as it was:
    the definition is still not final, the location cache is untouched and
    no subscriber is called. The cache is set to absent and the subscriber
    (if set) called when the loop ends because the surface has become
    defined. *)
Theorem scan_aborts_on_unknown_marker_entry (fuel : nat) (camera_model : CameraModel)
  (frame_idx : Z) (marker_cache : MarkerCache) (def_idx : option Z) (i : Z)
  (s : Surface_Offline) :
  defined s = false ->
  wrap_def_idx def_idx frame_idx marker_cache = Some i ->
  subscript marker_cache i = inr None ->
  scan_loop (S fuel) camera_model frame_idx marker_cache def_idx s = Return tt s /\
  (forall (s' : Surface_Offline) (def_idx' : option Z),
     defined s' = true ->
     exists s'',
       scan_loop fuel camera_model frame_idx marker_cache def_idx' s' = Return tt s'' /\
       location_cache s'' = None /\
       effects s'' = effects s' ++
                     match on_surface_change s' with
                     | Some cb => [SurfaceChanged cb]
                     | None => []
                     end).
Proof.
  intros Hd Hw Hm. split; [apply (scan_loop_unknown _ _ _ _ _ i); assumption|].
  intros s' def_idx' Hd'. eexists. split; [apply scan_loop_defined; exact Hd'|].
  destruct (on_surface_change s'); cbn; [split; reflexivity|].
  split; [reflexivity | symmetry; apply app_nil_r].
Qed.

(** *** Recalculation *)

Lemma c_int_in_range (v : Z) : - 2 ^ 31 <= v < 2 ^ 31 -> c_int v = v.
Proof. intros Hv. unfold c_int. rewrite Z.mod_small; lia. Qed.

Lemma recalculate_location_cache_spec (frame_idx : Z) (marker_cache : MarkerCache)
  (camera_model : CameraModel) (s : Surface_Offline) :
  exists s2 j,
    _recalculate_location_cache frame_idx marker_cache camera_model s = Return tt s2 /\
    j = background_data_processor marker_cache
          (camera_model, registered_markers_undist (base s),
           registered_markers_dist (base s))
          (map is_False marker_cache) (c_int frame_idx) /\
    location_cache s2 = Some (replicate (length marker_cache) None) /\
    cache_seek_idx s2 = c_int frame_idx /\
    location_cache_filler s2 = Some j /\
    effects s2 = effects s ++
                 match location_cache_filler s with
                 | Some j0 => [JobCancelled j0]
                 | None => []
                 end ++ [JobStarted j] /\
    base s2 = base s /\
    on_surface_change s2 = on_surface_change s.
Proof.
  unfold _recalculate_location_cache, cancel_location_cache_filler. run.
  destruct (location_cache_filler s) as [j0|] eqn:Hf; run; rewrite ?Hf; run;
    eexists _, _; (split; [reflexivity|]); repeat split;
    cbn; rewrite <- ?app_assoc; reflexivity.
Qed.

(** *** Looking up a frame when the cache is absent *)

Lemma update_location_absent (fuel : nat) (frame_idx : Z)
  (marker_cache : MarkerCache) (camera_model : CameraModel)
  (s s1 s2 : Surface_Offline) :
  update_location_prelude fuel frame_idx marker_cache camera_model s = Return tt s1 ->
  location_cache s1 = None ->
  _recalculate_location_cache frame_idx marker_cache camera_model s1 = Return tt s2 ->
  update_location (S fuel) frame_idx marker_cache camera_model s =
  (let* entry := lift (subscript marker_cache frame_idx) in
   if negb (is_False entry) then
     update_location_cache frame_idx marker_cache camera_model >>
     update_location fuel frame_idx marker_cache camera_model
   else
     modify (set_base (adopt_location Surface_Location_not_detected))) s2.
Proof.
  intros Hp Hc Hr. rewrite update_location_unfold. unfold bind at 1. rewrite Hp.
  unfold location_cache_getitem. run. rewrite Hc. run. rewrite Hr. reflexivity.
Qed.

Lemma add_marker_leaves_cache_absent (id : Z) (verts_px : Vertices)
  (camera_model : CameraModel) (s : Surface_Offline) :
  exists s', add_marker id verts_px camera_model s = Return tt s' /\
             location_cache s' = None.
Proof. eexists. split; reflexivity. Qed.

Lemma pop_marker_leaves_cache_absent (id : Z) (s : Surface_Offline) :
  exists s', pop_marker id s = Return tt s' /\ location_cache s' = None.
Proof. eexists. split; reflexivity. Qed.

(** Claim C4, as amended: when [update_location] reaches the lookup with
    the cache absent (as [add_marker] and [pop_marker] always leave it), it
    cancels a stale background task if there is one, sets the seek cursor
    to [frame_idx], resets the cache to all-[False] of the length of the
    marker cache and starts exactly one new background task. If the marker
    cache has nothing for [frame_idx] yet, the call ends there: the surface
    is not detected, has no transformation and no marker, and the cache
    stays all-[False]. Otherwise the entry of [frame_idx] is computed on
    demand (NotDetected for a frame without markers, [Surface.locate] for a
    frame with markers), written into the fresh cache, and
    [update_location] is entered again; on a defined surface whose new
    task has nothing to deliver yet, the call returns with the six location
    attributes of the surface set to those of the computed location. *)
Theorem update_location_on_absent_cache (fuel : nat) (frame_idx : Z)
  (marker_cache : MarkerCache) (camera_model : CameraModel)
  (s s1 : Surface_Offline) :
  update_location_prelude (S fuel) frame_idx marker_cache camera_model s
    = Return tt s1 ->
  location_cache s1 = None ->
  - 2 ^ 31 <= frame_idx < 2 ^ 31 ->
  exists s2 j,
    _recalculate_location_cache frame_idx marker_cache camera_model s1 = Return tt s2 /\
    j = background_data_processor marker_cache
          (camera_model, registered_markers_undist (base s1),
           registered_markers_dist (base s1))
          (map is_False marker_cache) frame_idx /\
    location_cache s2 = Some (replicate (length marker_cache) None) /\
    cache_seek_idx s2 = frame_idx /\
    location_cache_filler s2 = Some j /\
    effects s2 = effects s1 ++
                 match location_cache_filler s1 with
                 | Some j0 => [JobCancelled j0]
                 | None => []
                 end ++ [JobStarted j] /\
    (subscript marker_cache frame_idx = inr None ->
     exists s',
       update_location (S (S fuel)) frame_idx marker_cache camera_model s =
       Return tt s' /\
       s' = set_base (adopt_location Surface_Location_not_detected) s2 /\
       detected (base s') = false /\
       dist_img_to_surf_trans (base s') = None /\
       surf_to_dist_img_trans (base s') = None /\
       img_to_surf_trans (base s') = None /\
       surf_to_img_trans (base s') = None /\
       num_detected_markers (base s') = 0 /\
       location_cache s' = Some (replicate (length marker_cache) None) /\
       location_cache_filler s' = Some j /\
       effects s' = effects s2) /\
    (forall (markers : list Marker) (n : nat),
       norm_index (length marker_cache) frame_idx = Some n ->
       marker_cache !! n = Some (Some markers) ->
       let location := locate_entry (Some markers) camera_model (base s1) in
       let s3 :=
         set_location_cache
           (Some (<[n:=Some location]> (replicate (length marker_cache) None))) s2 in
       (markers <> [] ->
        location = Surface_locate (markers_by_id markers) camera_model
                     (registered_markers_undist (base s1))
                     (registered_markers_dist (base s1))) /\
       (markers = [] -> location = Surface_Location_not_detected) /\
       update_location (S (S fuel)) frame_idx marker_cache camera_model s =
       update_location (S fuel) frame_idx marker_cache camera_model s3 /\
       (forall j' : Job,
          defined s1 = true -> job_fetch j = ([], j') -> job_completed j' = false ->
          exists s',
            update_location (S (S fuel)) frame_idx marker_cache camera_model s =
            Return tt s' /\
            s' = set_base (adopt_location location)
                   (set_location_cache_filler (Some j') s3) /\
            detected (base s') = loc_detected location /\
            dist_img_to_surf_trans (base s') = loc_dist_img_to_surf_trans location /\
            surf_to_dist_img_trans (base s') = loc_surf_to_dist_img_trans location /\
            img_to_surf_trans (base s') = loc_img_to_surf_trans location /\
            surf_to_img_trans (base s') = loc_surf_to_img_trans location /\
            num_detected_markers (base s') = loc_num_detected_markers location /\
            location_cache s' =
            Some (<[n:=Some location]> (replicate (length marker_cache) None)) /\
            location_cache_filler s' = Some j' /\
            effects s' = effects s2)) /\
    (forall id verts_px cm s0, exists s',
       add_marker id verts_px cm s0 = Return tt s' /\ location_cache s' = None) /\
    (forall id s0, exists s', pop_marker id s0 = Return tt s' /\ location_cache s' = None).
Proof.
  intros Hp Hc Hrange.
  destruct (recalculate_location_cache_spec frame_idx marker_cache camera_model s1)
    as (s2 & j & Hrec & Hj & Hc2 & Hseek & Hf2 & Heff & Hb2 & Hs2).
  rewrite (c_int_in_range _ Hrange) in Hj, Hseek.
  exists s2, j. repeat (split; [assumption|]).
  pose proof (update_location_absent _ _ _ _ _ _ _ Hp Hc Hrec) as Hstep.
  split; [|split; [|split]].
  - intros Hm. eexists. split; [rewrite Hstep; run; rewrite Hm; reflexivity|].
    split; [reflexivity|]. cbn. repeat split; assumption.
  - intros markers n Hn He location s3.
    assert (Hsub : subscript marker_cache frame_idx = inr (Some markers))
      by (apply subscript_inr; eauto).
    assert (Hgo : update_location (S (S fuel)) frame_idx marker_cache camera_model s =
                  update_location (S fuel) frame_idx marker_cache camera_model s3).
    { rewrite Hstep. run. rewrite Hsub. run.
      rewrite (update_location_cache_writes _ _ _ _ _ n (Some markers) Hn He Hc2)
        by apply length_replicate.
      rewrite Hb2. reflexivity. }
    split; [|split; [|split; [exact Hgo|]]].
    + intros Hne. unfold location, locate_entry.
      destruct markers; [congruence | reflexivity].
    + intros ->. reflexivity.
    + intros j' Hd Hfetch Hdone.
      exists (set_base (adopt_location location)
                (set_location_cache_filler (Some j') s3)).
      split.
      { rewrite Hgo.
        apply (update_location_resolved _ _ _ _ _ _
                 (<[n:=Some location]> (replicate (length marker_cache) None))).
        - rewrite prelude_defined_without_job.
          + apply (fetch_nothing_new s3 j j'); [exact Hf2 | exact Hfetch | exact Hdone].
          + unfold defined in *. cbn. rewrite Hb2. exact Hd.
        - reflexivity.
        - apply subscript_inr. exists n. split.
          + rewrite length_insert, length_replicate. exact Hn.
          + apply list_lookup_insert_eq. rewrite length_replicate.
            apply (norm_index_lt _ _ _ Hn). }
      split; [reflexivity|]. cbn. repeat split.
  - intros. apply add_marker_leaves_cache_absent.
  - intros. apply pop_marker_leaves_cache_absent.
Qed.

(** *** Exceptions that escape the drain *)

Lemma update_location_raises_when_task_completes_unsubscribed (fuel : nat)
  (frame_idx : Z) (marker_cache : MarkerCache) (camera_model : CameraModel)
  (s : Surface_Offline) (j j' : Job) :
  defined s = true ->
  location_cache_filler s = Some j ->
  job_fetch j = ([], j') ->
  job_completed j' = true ->
  on_surface_change s = None ->
  update_location (S fuel) frame_idx marker_cache camera_model s =
  Raise TypeError (set_location_cache_filler None s).
Proof.
  intros Hd Hf Hj Hc Hs. apply update_location_prelude_raises.
  rewrite prelude_defined_without_job by exact Hd.
  apply (fetch_completed_without_subscriber s j j'); assumption.
Qed.

Lemma update_location_raises_after_drain_break (fuel : nat)
  (frame_idx : Z) (marker_cache : MarkerCache) (camera_model : CameraModel)
  (s : Surface_Offline) (j j' : Job)
  (r : Z * Surface_Location) (rs : list (Z * Surface_Location)) :
  defined s = true ->
  location_cache_filler s = Some j ->
  job_fetch j = (r :: rs, j') ->
  location_cache s = None ->
  update_location (S fuel) frame_idx marker_cache camera_model s =
  Raise AttributeError (set_location_cache_filler None (emit (JobCancelled j') s)).
Proof.
  intros Hd Hf Hj Hc. apply update_location_prelude_raises.
  rewrite prelude_defined_without_job by exact Hd.
  apply (fetch_into_absent_cache s j j' r rs); assumption.
Qed.

End Properties.

(** ** The bootstrap scan over a whole recording *)

Section Scan.

Context {ext : External} {col : Collaborators}.

Variable camera_model : CameraModel.
Variable frame_idx : Z.
Variable marker_cache : MarkerCache.

(** Every frame of the recording has been processed upstream. *)
Hypothesis markers_known :
  forall n : nat, (n < length marker_cache)%nat ->
    exists ms, marker_cache !! n = Some (Some ms).

(** No frame of the recording completes the definition by itself. *)
Hypothesis accumulation_pending :
  forall (idx : Z) (n : nat) (ms : list Marker) (b : Surface),
    marker_cache !! n = Some (Some ms) ->
    Qle_bool 1 (build_up_status b) = false ->
    Qle_bool 1 (build_up_status
                  (Surface_update_definition idx (markers_by_id ms) camera_model b))
    = false.

Lemma Z_in_snoc (x i : Z) (l : list Z) : Z_in x (l ++ [i]) = Z_in x l || (x =? i).
Proof. unfold Z_in. rewrite existsb_app. cbn. rewrite orb_false_r. reflexivity. Qed.

Lemma known_frame (i : Z) :
  0 <= i < Z.of_nat (length marker_cache) ->
  exists ms, marker_cache !! Z.to_nat i = Some (Some ms) /\
             subscript marker_cache i = inr (Some ms).
Proof.
  intros Hi. destruct (markers_known (Z.to_nat i)) as [ms Hms]; [lia|].
  exists ms. split; [exact Hms|]. apply subscript_inr. exists (Z.to_nat i).
  split; [apply norm_index_in_range; exact Hi | exact Hms].
Qed.

Lemma observe_frame_known (i : Z) (s : Surface_Offline) :
  0 <= i < Z.of_nat (length marker_cache) ->
  defined s = false ->
  exists s1,
    observe_frame camera_model marker_cache i s = Return tt s1 /\
    defined s1 = false /\
    start_idx s1 = start_idx s /\
    location_cache s1 = location_cache s /\
    effects s1 = effects s /\
    forall x, Z_in x (observations_frame_idxs s1) =
              Z_in x (observations_frame_idxs s) || (x =? i).
Proof.
  intros Hi Hd. destruct (known_frame i Hi) as (ms & Hms & Hsub).
  unfold observe_frame. run.
  destruct (Z_in i (observations_frame_idxs s)) eqn:Hin; run.
  - exists s. repeat split; try assumption. intros x.
    destruct (x =? i) eqn:Hx; [|rewrite orb_false_r; reflexivity].
    apply Z.eqb_eq in Hx. subst x. rewrite Hin. reflexivity.
  - rewrite Hsub. unfold _update_definition. run.
    eexists. split; [reflexivity|]. repeat split.
    + unfold defined in *. cbn. apply (accumulation_pending i _ ms _ Hms Hd).
    + intros x. cbn. apply Z_in_snoc.
Qed.

(** One iteration at a frame that does not close the loop. *)
Lemma scan_body_continues (next : option Z -> M Surface_Offline unit) (i : Z)
  (s : Surface_Offline) :
  0 <= i < Z.of_nat (length marker_cache) ->
  i <> frame_idx - 1 ->
  defined s = false ->
  exists s1,
    scan_body next camera_model frame_idx marker_cache (Some i) s =
    next (Some (i + 1)) s1 /\
    defined s1 = false /\
    start_idx s1 = start_idx s /\
    location_cache s1 = location_cache s /\
    effects s1 = effects s /\
    forall x, Z_in x (observations_frame_idxs s1) =
              Z_in x (observations_frame_idxs s) || (x =? i).
Proof.
  intros Hi Hne Hd. destruct (known_frame i Hi) as (ms & Hms & Hsub).
  destruct (observe_frame_known i s Hi Hd) as (s1 & Hobs & Hinv).
  exists s1. split; [|exact Hinv].
  unfold scan_body, marker_entry_is_False. run. rewrite Hsub. run.
  rewrite Hobs. apply Z.eqb_neq in Hne. rewrite Hne. reflexivity.
Qed.

(** The iteration at the frame before [frame_idx] closes the loop. *)
Lemma scan_body_closes (next : option Z -> M Surface_Offline unit)
  (s : Surface_Offline) :
  0 <= frame_idx - 1 < Z.of_nat (length marker_cache) ->
  defined s = false ->
  exists s1,
    scan_body next camera_model frame_idx marker_cache (Some (frame_idx - 1)) s =
    Return tt (set_base Surface_prune_markers
                 (set_base (set_build_up_status 1) s1)) /\
    defined s1 = false /\
    start_idx s1 = start_idx s /\
    location_cache s1 = location_cache s /\
    effects s1 = effects s /\
    forall x, Z_in x (observations_frame_idxs s1) =
              Z_in x (observations_frame_idxs s) || (x =? frame_idx - 1).
Proof.
  intros Hi Hd. destruct (known_frame _ Hi) as (ms & Hms & Hsub).
  destruct (observe_frame_known _ s Hi Hd) as (s1 & Hobs & Hinv).
  exists s1. split; [|exact Hinv].
  unfold scan_body, marker_entry_is_False. run. rewrite Hsub. run.
  rewrite Hobs, Z.eqb_refl. reflexivity.
Qed.

(** The first iteration of a scan whose start is not set yet. *)
Lemma scan_body_sets_start (next : option Z -> M Surface_Offline unit)
  (s : Surface_Offline) :
  0 <= frame_idx < Z.of_nat (length marker_cache) ->
  defined s = false ->
  exists s1,
    scan_body next camera_model frame_idx marker_cache None s =
    next (Some (frame_idx + 1)) s1 /\
    defined s1 = false /\
    start_idx s1 = Some frame_idx /\
    location_cache s1 = location_cache s /\
    effects s1 = effects s /\
    forall x, Z_in x (observations_frame_idxs s1) =
              Z_in x (observations_frame_idxs s) || (x =? frame_idx).
Proof.
  intros Hi Hd.
  destruct (observe_frame_known frame_idx (set_start_idx (Some frame_idx) s) Hi Hd)
    as (s1 & Hobs & Hinv).
  exists s1. split; [|exact Hinv].
  unfold scan_body, marker_entry_is_False. run.
  rewrite Hobs. replace (frame_idx =? frame_idx - 1) with false by lia. reflexivity.
Qed.

Lemma wrap_def_idx_inside (i : Z) :
  i <> Z.of_nat (length marker_cache) ->
  wrap_def_idx (Some i) frame_idx marker_cache = Some i.
Proof.
  intros Hi. unfold wrap_def_idx, def_idx_at_end.
  apply Z.eqb_neq in Hi. rewrite Hi. reflexivity.
Qed.

Lemma scan_segment (k : nat) :
  forall (fuel : nat) (i : Z) (s : Surface_Offline),
    0 <= i ->
    i + Z.of_nat k <= Z.of_nat (length marker_cache) ->
    (forall x, i <= x < i + Z.of_nat k -> x <> frame_idx - 1) ->
    defined s = false ->
    exists s',
      scan_loop (k + fuel) camera_model frame_idx marker_cache (Some i) s =
      scan_loop fuel camera_model frame_idx marker_cache (Some (i + Z.of_nat k)) s' /\
      defined s' = false /\
      start_idx s' = start_idx s /\
      location_cache s' = location_cache s /\
      effects s' = effects s /\
      forall x, Z_in x (observations_frame_idxs s') =
                Z_in x (observations_frame_idxs s) ||
                ((i <=? x) && (x <? i + Z.of_nat k)).
Proof.
  induction k as [|k IH]; intros fuel i s Hi Hk Hclose Hd.
  - exists s. rewrite Z.add_0_r. repeat split; try assumption.
    intros x. replace ((i <=? x) && (x <? i)) with false by lia.
    rewrite orb_false_r. reflexivity.
  - destruct (scan_body_continues
                (scan_loop (k + fuel) camera_model frame_idx marker_cache) i s)
      as (s1 & Hstep & Hd1 & Hs1 & Hc1 & He1 & Ho1);
      [lia | apply Hclose; lia | exact Hd |].
    destruct (IH fuel (i + 1) s1) as (s' & Hrun & Hd' & Hs' & Hc' & He' & Ho');
      [lia | lia | intros x Hx; apply Hclose; lia | exact Hd1 |].
    exists s'. split; [|repeat split].
    + cbn [Nat.add]. rewrite scan_loop_unfold by exact Hd.
      rewrite wrap_def_idx_inside by lia.
      rewrite Hstep, Hrun. do 2 f_equal. lia.
    + exact Hd'.
    + congruence.
    + congruence.
    + congruence.
    + intros x. rewrite Ho', Ho1. rewrite <- orb_assoc. f_equal.
      apply Bool.eq_iff_eq_true.
      rewrite orb_true_iff, !andb_true_iff, Z.eqb_eq, !Z.leb_le, !Z.ltb_lt. lia.
Qed.

Lemma wrap_def_idx_at_end :
  0 < frame_idx ->
  wrap_def_idx (Some (Z.of_nat (length marker_cache))) frame_idx marker_cache = Some 0.
Proof.
  intros Hf. unfold wrap_def_idx, def_idx_at_end. rewrite Z.eqb_refl.
  replace (frame_idx >? 0) with true by lia. reflexivity.
Qed.

Lemma scan_past_end (fuel : nat) (s : Surface_Offline) :
  defined s = false ->
  frame_idx <= 0 ->
  scan_loop (S fuel) camera_model frame_idx marker_cache
    (Some (Z.of_nat (length marker_cache))) s = Raise IndexError s.
Proof.
  intros Hd Hf. rewrite scan_loop_unfold by exact Hd.
  unfold wrap_def_idx, def_idx_at_end. rewrite Z.eqb_refl.
  replace (frame_idx >? 0) with false by lia. cbn [andb].
  unfold scan_body, marker_entry_is_False, subscript, getitem, norm_index.
  rewrite Z.ltb_irrefl.
  assert (Hneg : (Z.of_nat (length marker_cache) <? 0) = false)
    by (apply Z.ltb_ge; lia).
  rewrite Hneg, !andb_false_r. reflexivity.
Qed.

(** Claim C2 fails on the code for a scan that starts at frame 0. On a
    recording whose frames are all known and do not complete the definition
    by themselves, the scan of a fresh surface at [frame_idx = 0] visits
    every frame and is then not closed: with fuel for one more iteration it
    subscripts the marker cache one past its end and raises IndexError,
    the definition still not final. *)
Theorem scan_from_frame_zero_never_closes (fuel : nat) (s : Surface_Offline) :
  frame_idx = 0 ->
  (0 < length marker_cache)%nat ->
  start_idx s = None ->
  defined s = false ->
  exists s',
    _build_definition_from_cache (S (length marker_cache) + fuel) camera_model
      frame_idx marker_cache s = Raise IndexError s' /\
    defined s' = false /\
    start_idx s' = Some 0 /\
    forall x, 0 <= x < Z.of_nat (length marker_cache) ->
              Z_in x (observations_frame_idxs s') = true.
Proof.
  intros Hf Hn Hstart Hd.
  unfold _build_definition_from_cache. run. rewrite Hstart.
  cbn [Nat.add]. rewrite scan_loop_unfold by exact Hd.
  change (wrap_def_idx None frame_idx marker_cache) with (@None Z).
  destruct (scan_body_sets_start
              (scan_loop (length marker_cache + fuel) camera_model frame_idx
                 marker_cache) s)
    as (s1 & Hstep & Hd1 & Hs1 & _ & _ & Ho1); [lia | exact Hd |].
  rewrite Hstep.
  replace (length marker_cache + fuel)%nat
    with ((length marker_cache - 1) + S fuel)%nat by lia.
  destruct (scan_segment (length marker_cache - 1) (S fuel) (frame_idx + 1) s1)
    as (s2 & Hrun & Hd2 & Hs2 & _ & _ & Ho2); [lia | lia | intros x Hx; lia | exact Hd1 |].
  rewrite Hrun.
  replace (frame_idx + 1 + Z.of_nat (length marker_cache - 1))
    with (Z.of_nat (length marker_cache)) by lia.
  exists s2. split; [apply scan_past_end; [exact Hd2 | lia]|].
  split; [exact Hd2|]. split; [rewrite Hs2, Hs1, Hf; reflexivity|].
  intros x Hx. rewrite Ho2, Ho1.
  rewrite !orb_true_iff, andb_true_iff, Z.eqb_eq, Z.leb_le, Z.ltb_lt. lia.
Qed.

(** The same scan started at a later frame wraps around and is closed at
    [frame_idx - 1]: every frame has been visited, the build-up status is
    set to 1 and the markers are pruned, the cache and the subscriber are
    left alone. *)
Lemma scan_from_later_frame_closes (fuel : nat) (s : Surface_Offline) :
  0 < frame_idx < Z.of_nat (length marker_cache) ->
  start_idx s = None ->
  defined s = false ->
  exists s' b,
    _build_definition_from_cache (length marker_cache + fuel) camera_model
      frame_idx marker_cache s = Return tt s' /\
    base s' = Surface_prune_markers (set_build_up_status 1 b) /\
    start_idx s' = Some frame_idx /\
    location_cache s' = location_cache s /\
    effects s' = effects s /\
    forall x, 0 <= x < Z.of_nat (length marker_cache) ->
              Z_in x (observations_frame_idxs s') = true.
Proof.
  intros Hf Hstart Hd.
  unfold _build_definition_from_cache. run. rewrite Hstart.
  replace (length marker_cache + fuel)%nat
    with (S ((length marker_cache - Z.to_nat frame_idx - 1) +
             ((Z.to_nat frame_idx - 1) + S fuel)))%nat by lia.
  rewrite scan_loop_unfold by exact Hd.
  change (wrap_def_idx None frame_idx marker_cache) with (@None Z).
  destruct (scan_body_sets_start
              (scan_loop ((length marker_cache - Z.to_nat frame_idx - 1) +
                          ((Z.to_nat frame_idx - 1) + S fuel))
                 camera_model frame_idx marker_cache) s)
    as (s1 & Hstep & Hd1 & Hs1 & Hc1 & He1 & Ho1); [lia | exact Hd |].
  rewrite Hstep.
  destruct (scan_segment (length marker_cache - Z.to_nat frame_idx - 1)
              (((Z.to_nat frame_idx - 1) + S fuel)) (frame_idx + 1) s1)
    as (s2 & Hrun & Hd2 & Hs2 & Hc2 & He2 & Ho2); [lia | lia | intros x Hx; lia | exact Hd1 |].
  rewrite Hrun.
  replace (frame_idx + 1 + Z.of_nat (length marker_cache - Z.to_nat frame_idx - 1))
    with (Z.of_nat (length marker_cache)) by lia.
  assert (Hwrap :
    scan_loop (((Z.to_nat frame_idx - 1) + S fuel)) camera_model frame_idx
      marker_cache (Some (Z.of_nat (length marker_cache))) s2 =
    scan_loop ((Z.to_nat frame_idx - 1) + S fuel) camera_model frame_idx
      marker_cache (Some 0) s2).
  { replace ((Z.to_nat frame_idx - 1) + S fuel)%nat
      with (S ((Z.to_nat frame_idx - 1) + fuel))%nat by lia.
    rewrite !scan_loop_unfold by exact Hd2.
    rewrite wrap_def_idx_at_end by lia.
    rewrite wrap_def_idx_inside by lia. reflexivity. }
  rewrite Hwrap.
  destruct (scan_segment (Z.to_nat frame_idx - 1) (S fuel) 0 s2)
    as (s3 & Hrun3 & Hd3 & Hs3 & Hc3 & He3 & Ho3); [lia | lia | intros x Hx; lia | exact Hd2 |].
  rewrite Hrun3.
  replace (0 + Z.of_nat (Z.to_nat frame_idx - 1)) with (frame_idx - 1) by lia.
  rewrite scan_loop_unfold by exact Hd3.
  rewrite wrap_def_idx_inside by lia.
  destruct (scan_body_closes
              (scan_loop fuel camera_model frame_idx marker_cache) s3)
    as (s4 & Hclose & Hd4 & Hs4 & Hc4 & He4 & Ho4); [lia | exact Hd3 |].
  rewrite Hclose. eexists _, (base s4). split; [reflexivity|].
  cbn [observations_frame_idxs set_base start_idx location_cache effects base].
  split; [reflexivity|]. split; [congruence|]. split; [congruence|].
  split; [congruence|].
  intros x Hx. rewrite Ho4, Ho3, Ho2, Ho1.
  rewrite !orb_true_iff, !andb_true_iff, !Z.eqb_eq, !Z.leb_le, !Z.ltb_lt. lia.
Qed.

End Scan.

(** ** What the methods keep *)

Section Keeps.

Context {St : Type} (R : St -> St -> Prop) `{!PreOrder R}.

Lemma ends_in_bind {A B : Type} (m : M St A) (f : A -> M St B) (s : St) :
  ends_in (R s) (m s) ->
  (forall a s1, m s = Return a s1 -> R s s1 -> ends_in (R s1) (f a s1)) ->
  ends_in (R s) (bind m f s).
Proof.
  intros Hm Hf. unfold bind. destruct (m s) as [a s1|e s1|]; [|exact Hm|exact I].
  specialize (Hf a s1 eq_refl Hm). cbn in Hm.
  destruct (f a s1) as [b s2|e s2|]; cbn in *; [| |exact I];
    etransitivity; eassumption.
Qed.

Lemma keeps_bind {A B : Type} (m : M St A) (f : A -> M St B) :
  keeps R m -> (forall a, keeps R (f a)) -> keeps R (bind m f).
Proof.
  intros Hm Hf s. apply ends_in_bind; [apply Hm | intros a s1 _ _; apply Hf].
Qed.

Lemma keeps_try_except {A : Type} (body handler : M St A) (classes : exn -> bool) :
  keeps R body -> keeps R handler -> keeps R (try_except body classes handler).
Proof.
  intros Hb Hh s. unfold try_except. specialize (Hb s).
  destruct (body s) as [a s1|e s1|]; [exact Hb| |exact I].
  destruct (classes e); [|exact Hb].
  specialize (Hh s1). cbn in Hb.
  destruct (handler s1) as [b s2|e2 s2|]; cbn in *; [| |exact I];
    etransitivity; eassumption.
Qed.

Lemma keeps_ret {A : Type} (a : A) : keeps R (ret a).
Proof. intros s. cbn. reflexivity. Qed.

Lemma keeps_raise {A : Type} (e : exn) : keeps R (raise (A := A) e).
Proof. intros s. cbn. reflexivity. Qed.

Lemma keeps_get : keeps R get.
Proof. intros s. cbn. reflexivity. Qed.

Lemma keeps_lift {A : Type} (r : exn + A) : keeps R (lift r).
Proof. destruct r; [apply keeps_raise | apply keeps_ret]. Qed.

Lemma keeps_modify (f : St -> St) : (forall s, R s (f s)) -> keeps R (modify f).
Proof. intros Hf s. cbn. apply Hf. Qed.

End Keeps.

Section Drain.

Context {ext : External} {col : Collaborators}.

Lemma cache_shape_kept_preorder : PreOrder cache_shape_kept.
Proof.
  split.
  - intros s. unfold cache_shape_kept. destruct (location_cache s) as [c|]; [|reflexivity].
    exists c. repeat split. eauto.
  - intros s1 s2 s3 H12 H23. unfold cache_shape_kept in *.
    destruct (location_cache s1) as [c1|].
    + destruct H12 as (c2 & E2 & L2 & P2). rewrite E2 in H23.
      destruct H23 as (c3 & E3 & L3 & P3). exists c3. split; [exact E3|].
      split; [congruence|]. intros k l Hk. destruct (P2 k l Hk) as [l2 Hl2].
      apply (P3 k l2 Hl2).
    + rewrite H12 in H23. exact H23.
Qed.

Lemma definition_kept_preorder : PreOrder definition_kept.
Proof.
  split.
  - intros s. repeat split.
  - intros s1 s2 s3 (A1 & A2 & A3 & A4 & A5 & A6) (B1 & B2 & B3 & B4 & B5 & B6).
    repeat split; congruence.
Qed.

Local Existing Instance cache_shape_kept_preorder.
Local Existing Instance definition_kept_preorder.

(** Assignments that do not touch the cache keep its shape. *)
Lemma cache_shape_kept_same (s s' : Surface_Offline) :
  location_cache s' = location_cache s -> cache_shape_kept s s'.
Proof.
  intros E. unfold cache_shape_kept. rewrite E.
  destruct (location_cache s) as [c|]; [|reflexivity]. exists c. repeat split. eauto.
Qed.

Lemma location_cache_update_keeps_shape (key : Z) (item : Surface_Location) :
  keeps cache_shape_kept (location_cache_update key item).
Proof.
  intros s. unfold location_cache_update, Cache_List_update, setitem. run.
  unfold cache_shape_kept.
  destruct (location_cache s) as [c|] eqn:Hc; run; rewrite ?Hc; [|reflexivity].
  destruct (norm_index (length c) key) as [n|] eqn:Hn; run; rewrite ?Hc.
  - exists (<[n:=Some item]> c). split; [reflexivity|].
    split; [apply length_insert|]. intros k l Hk.
    destruct (decide (k = n)) as [->|Hne].
    + exists item. apply list_lookup_insert_eq. apply (norm_index_lt _ _ _ Hn).
    + exists l. rewrite list_lookup_insert_ne by congruence. exact Hk.
  - exists c. repeat split. eauto.
Qed.

Lemma cancel_keeps_shape : keeps cache_shape_kept cancel_location_cache_filler.
Proof.
  intros s. unfold cancel_location_cache_filler. run.
  destruct (location_cache_filler s); run; apply cache_shape_kept_same; reflexivity.
Qed.

Lemma fetch_loop_keeps_shape (results : list (Z * Surface_Location)) :
  keeps cache_shape_kept (fetch_loop results).
Proof.
  induction results as [|[idx loc] results IH]; cbn [fetch_loop].
  - apply keeps_ret; typeclasses eauto.
  - apply keeps_bind; [typeclasses eauto | |].
    + apply keeps_try_except; [typeclasses eauto | |].
      * apply keeps_bind; [typeclasses eauto | apply location_cache_update_keeps_shape |].
        intros _. apply keeps_ret; typeclasses eauto.
      * apply keeps_bind; [typeclasses eauto | apply cancel_keeps_shape |]. intros _.
        apply keeps_bind; [typeclasses eauto | |].
        -- apply keeps_modify. intros s. apply cache_shape_kept_same. reflexivity.
        -- intros _. apply keeps_ret; typeclasses eauto.
    + intros [|]; [exact IH | apply keeps_ret; typeclasses eauto].
Qed.

Lemma call_on_surface_change_keeps_shape : keeps cache_shape_kept call_on_surface_change.
Proof.
  intros s. unfold call_on_surface_change. run.
  destruct (on_surface_change s); run; apply cache_shape_kept_same; reflexivity.
Qed.

Lemma fetch_keeps_shape : keeps cache_shape_kept _fetch_from_location_cache_filler.
Proof.
  unfold _fetch_from_location_cache_filler.
  apply keeps_bind; [typeclasses eauto | apply keeps_get; typeclasses eauto |].
  intros s0. destruct (location_cache_filler s0) as [j|]; [|apply keeps_ret; typeclasses eauto].
  destruct (job_fetch j) as [results j'].
  apply keeps_bind; [typeclasses eauto | |].
  { apply keeps_modify. intros s. apply cache_shape_kept_same. reflexivity. }
  intros _. apply keeps_bind; [typeclasses eauto | apply fetch_loop_keeps_shape |].
  intros _. apply keeps_bind; [typeclasses eauto | apply keeps_get; typeclasses eauto |].
  intros s1. destruct (location_cache_filler s1) as [j''|]; [|apply keeps_raise; typeclasses eauto].
  destruct (job_completed j''); [|apply keeps_ret; typeclasses eauto].
  apply keeps_bind; [typeclasses eauto | |].
  { apply keeps_modify. intros s. apply cache_shape_kept_same. reflexivity. }
  intros _. apply call_on_surface_change_keeps_shape.
Qed.

Lemma fetch_loop_merges (results : list (Z * Surface_Location)) :
  forall (c : list CacheEntry) (s : Surface_Offline),
    location_cache s = Some c ->
    (forall r, In r results -> 0 <= fst r < Z.of_nat (length c)) ->
    exists c',
      fetch_loop results s = Return tt (set_location_cache (Some c') s) /\
      length c' = length c /\
      (forall k : nat, (forall r, In r results -> Z.to_nat (fst r) <> k) ->
                       c' !! k = c !! k) /\
      (forall rs1 idx loc rs2,
         results = rs1 ++ (idx, loc) :: rs2 ->
         (forall r, In r rs2 -> fst r <> idx) ->
         c' !! Z.to_nat idx = Some (Some loc)).
Proof.
  induction results as [|[idx loc] results IH]; intros c s Hc Hin.
  - exists c. split; [destruct s; cbn in Hc; subst; reflexivity|].
    split; [reflexivity|]. split; [reflexivity|].
    intros [|? ?] ? ? ? E; discriminate E.
  - assert (Hidx : 0 <= idx < Z.of_nat (length c)) by (apply (Hin (idx, loc)); left; reflexivity).
    destruct (IH (<[Z.to_nat idx:=Some loc]> c)
                (set_location_cache (Some (<[Z.to_nat idx:=Some loc]> c)) s))
      as (c' & Hrun & Hlen & Hout & Hlast).
    { reflexivity. }
    { intros r Hr. rewrite length_insert. apply Hin. right. exact Hr. }
    exists c'. split; [|split; [|split]].
    + cbn [fetch_loop]. unfold location_cache_update. run. rewrite Hc. run.
      rewrite (Cache_List_update_norm c idx (Z.to_nat idx))
        by (apply norm_index_in_range; exact Hidx).
      run. rewrite Hrun. reflexivity.
    + rewrite Hlen. apply length_insert.
    + intros k Hk. rewrite Hout by (intros r Hr; apply Hk; right; exact Hr).
      apply list_lookup_insert_ne. apply (Hk (idx, loc)). left. reflexivity.
    + intros rs1 idx0 loc0 rs2 E Hrest. destruct rs1 as [|r rs1].
      * cbn in E. injection E as -> -> ->.
        rewrite Hout.
        -- apply list_lookup_insert_eq. unfold CacheEntry in *. lia.
        -- intros r Hr Heq. apply (Hrest r Hr).
           assert (0 <= fst r < Z.of_nat (length c)) by (apply Hin; right; exact Hr).
           unfold CacheEntry in *. lia.
      * cbn in E. injection E as E1 E2. apply (Hlast rs1 idx0 loc0 rs2 E2 Hrest).
Qed.

(** Extra X1: a drain whose task has not completed merges every fetched
    result into the cache: the length is kept, an entry no result names is
    unchanged, and an entry named by several results holds the last one. *)
Theorem fetch_merges_last_write_wins (s : Surface_Offline) (j j' : Job)
  (results : list (Z * Surface_Location)) (c : list CacheEntry) :
  location_cache_filler s = Some j ->
  job_fetch j = (results, j') ->
  job_completed j' = false ->
  location_cache s = Some c ->
  (forall r, In r results -> 0 <= fst r < Z.of_nat (length c)) ->
  exists c',
    _fetch_from_location_cache_filler s =
    Return tt (set_location_cache (Some c') (set_location_cache_filler (Some j') s)) /\
    length c' = length c /\
    (forall k : nat, (forall r, In r results -> Z.to_nat (fst r) <> k) ->
                     c' !! k = c !! k) /\
    (forall rs1 idx loc rs2,
       results = rs1 ++ (idx, loc) :: rs2 ->
       (forall r, In r rs2 -> fst r <> idx) ->
       c' !! Z.to_nat idx = Some (Some loc)).
Proof.
  intros Hf Hj Hdone Hc Hin.
  destruct (fetch_loop_merges results c (set_location_cache_filler (Some j') s) Hc Hin)
    as (c' & Hrun & Hrest).
  exists c'. split; [|exact Hrest].
  unfold _fetch_from_location_cache_filler. run. rewrite Hf, Hj. run.
  rewrite Hrun. run. rewrite Hdone. reflexivity.
Qed.

(** Extra X3: when the task reports completion at a drain and a subscriber
    is set, every fetched result is merged into the cache first (the length
    is kept, an entry no result names is unchanged, an entry named by
    several results holds the last one), the handle is dropped and the
    subscriber is called exactly once; nothing else of the object
    changes. *)
Theorem fetch_completed_notifies_once (s : Surface_Offline) (j j' : Job)
  (results : list (Z * Surface_Location)) (c : list CacheEntry) (cb : Subscriber) :
  location_cache_filler s = Some j ->
  job_fetch j = (results, j') ->
  job_completed j' = true ->
  on_surface_change s = Some cb ->
  location_cache s = Some c ->
  (forall r, In r results -> 0 <= fst r < Z.of_nat (length c)) ->
  exists s' c',
    _fetch_from_location_cache_filler s = Return tt s' /\
    location_cache s' = Some c' /\
    length c' = length c /\
    (forall k : nat, (forall r, In r results -> Z.to_nat (fst r) <> k) ->
                     c' !! k = c !! k) /\
    (forall rs1 idx loc rs2,
       results = rs1 ++ (idx, loc) :: rs2 ->
       (forall r, In r rs2 -> fst r <> idx) ->
       c' !! Z.to_nat idx = Some (Some loc)) /\
    location_cache_filler s' = None /\
    effects s' = effects s ++ [SurfaceChanged cb] /\
    base s' = base s /\
    cache_seek_idx s' = cache_seek_idx s /\
    observations_frame_idxs s' = observations_frame_idxs s /\
    on_surface_change s' = on_surface_change s /\
    start_idx s' = start_idx s.
Proof.
  intros Hf Hj Hdone Hcb Hc Hin.
  destruct (fetch_loop_merges results c (set_location_cache_filler (Some j') s) Hc Hin)
    as (c' & Hrun & Hlen & Hout & Hlast).
  eexists _, c'. split.
  { unfold _fetch_from_location_cache_filler. run. rewrite Hf, Hj. run.
    rewrite Hrun. run. rewrite Hdone. unfold call_on_surface_change. run.
    rewrite Hcb. reflexivity. }
  split; [reflexivity|]. split; [exact Hlen|]. split; [exact Hout|].
  split; [exact Hlast|]. repeat split.
Qed.

(** *** The definition is left alone outside the bootstrap *)

Ltac keeps_definition :=
  repeat first
    [ apply keeps_ret; typeclasses eauto
    | apply keeps_raise; typeclasses eauto
    | apply keeps_get; typeclasses eauto
    | apply keeps_lift; typeclasses eauto
    | apply keeps_modify; intros ?; repeat split
    | apply keeps_bind; [typeclasses eauto | | intros ?]
    | apply keeps_try_except; [typeclasses eauto | | ]
    | match goal with
      | |- keeps _ (match ?x with _ => _ end) => destruct x
      end ].

Lemma location_cache_update_keeps_definition (key : Z) (item : Surface_Location) :
  keeps definition_kept (location_cache_update key item).
Proof. unfold location_cache_update. keeps_definition. Qed.

Lemma cancel_keeps_definition : keeps definition_kept cancel_location_cache_filler.
Proof. unfold cancel_location_cache_filler. keeps_definition. Qed.

Lemma call_on_surface_change_keeps_definition :
  keeps definition_kept call_on_surface_change.
Proof. unfold call_on_surface_change. keeps_definition. Qed.

Lemma fetch_loop_keeps_definition (results : list (Z * Surface_Location)) :
  keeps definition_kept (fetch_loop results).
Proof.
  induction results as [|[idx loc] results IH]; cbn [fetch_loop].
  - keeps_definition.
  - apply keeps_bind; [typeclasses eauto | |].
    + apply keeps_try_except; [typeclasses eauto | |].
      * apply keeps_bind; [typeclasses eauto
                          | apply location_cache_update_keeps_definition |].
        intros _. keeps_definition.
      * apply keeps_bind; [typeclasses eauto | apply cancel_keeps_definition |].
        intros _. keeps_definition.
    + intros [|]; [exact IH | keeps_definition].
Qed.

Lemma fetch_keeps_definition : keeps definition_kept _fetch_from_location_cache_filler.
Proof.
  unfold _fetch_from_location_cache_filler.
  apply keeps_bind; [typeclasses eauto | keeps_definition |].
  intros s0. destruct (location_cache_filler s0) as [j|]; [|keeps_definition].
  destruct (job_fetch j) as [results j'].
  apply keeps_bind; [typeclasses eauto | keeps_definition |]. intros _.
  apply keeps_bind; [typeclasses eauto | apply fetch_loop_keeps_definition |]. intros _.
  apply keeps_bind; [typeclasses eauto | keeps_definition |].
  intros s1. destruct (location_cache_filler s1) as [j''|]; [|keeps_definition].
  destruct (job_completed j''); [|keeps_definition].
  apply keeps_bind; [typeclasses eauto | keeps_definition |]. intros _.
  apply call_on_surface_change_keeps_definition.
Qed.

Lemma recalculate_keeps_definition (frame_idx : Z) (marker_cache : MarkerCache)
  (camera_model : CameraModel) :
  keeps definition_kept (_recalculate_location_cache frame_idx marker_cache camera_model).
Proof.
  unfold _recalculate_location_cache.
  apply keeps_bind; [typeclasses eauto | keeps_definition |]. intros s0.
  apply keeps_bind; [typeclasses eauto | |].
  { destruct (location_cache_filler s0);
      [apply cancel_keeps_definition | keeps_definition]. }
  intros _. keeps_definition.
Qed.

Lemma update_location_cache_keeps_definition (frame_idx : Z)
  (marker_cache : MarkerCache) (camera_model : CameraModel) :
  keeps definition_kept (update_location_cache frame_idx marker_cache camera_model).
Proof.
  unfold update_location_cache.
  apply keeps_try_except; [typeclasses eauto | | apply recalculate_keeps_definition].
  apply keeps_bind; [typeclasses eauto | keeps_definition |]. intros entry.
  apply keeps_bind; [typeclasses eauto | keeps_definition |]. intros s0.
  apply location_cache_update_keeps_definition.
Qed.

Lemma definition_kept_defined (s s' : Surface_Offline) :
  definition_kept s s' -> defined s' = defined s.
Proof. intros (_ & _ & E & _). unfold defined. rewrite E. reflexivity. Qed.

(** Extra X4: on a defined surface [update_location], however it ends,
    leaves the definition alone: registered markers, build-up status,
    observations and start of the scan are as before. *)
Theorem update_location_keeps_definition (fuel : nat) (frame_idx : Z)
  (marker_cache : MarkerCache) (camera_model : CameraModel) :
  forall s : Surface_Offline,
    defined s = true ->
    ends_in (definition_kept s) (update_location fuel frame_idx marker_cache camera_model s).
Proof.
  induction fuel as [|fuel IH]; intros s Hd; [exact I|].
  rewrite update_location_unfold.
  apply ends_in_bind; [typeclasses eauto | |].
  { rewrite prelude_defined_without_job by exact Hd. apply fetch_keeps_definition. }
  intros _ s1 _ H1.
  assert (Hd1 : defined s1 = true) by (rewrite (definition_kept_defined _ _ H1); exact Hd).
  apply ends_in_bind; [typeclasses eauto | |].
  { apply keeps_try_except; [typeclasses eauto | |].
    - unfold location_cache_getitem. keeps_definition.
    - apply keeps_bind; [typeclasses eauto | apply recalculate_keeps_definition |].
      intros _. keeps_definition. }
  intros location s2 _ H2.
  assert (Hd2 : defined s2 = true) by (rewrite (definition_kept_defined _ _ H2); exact Hd1).
  destruct location as [location|].
  { apply keeps_modify. intros ?. repeat split. }
  apply ends_in_bind; [typeclasses eauto | apply keeps_lift; typeclasses eauto |].
  intros entry s3 _ H3.
  assert (Hd3 : defined s3 = true) by (rewrite (definition_kept_defined _ _ H3); exact Hd2).
  destruct (negb (is_False entry)).
  - apply ends_in_bind; [typeclasses eauto | apply update_location_cache_keeps_definition |].
    intros _ s4 _ H4. apply IH.
    rewrite (definition_kept_defined _ _ H4). exact Hd3.
  - apply keeps_modify. intros ?. repeat split.
Qed.

End Drain.

(** ** The lookup on a defined surface *)

Section Lookup.

Context {ext : External} {col : Collaborators}.

Ltac split_cases :=
  repeat (run;
          match goal with
          | |- context [match ?x with _ => _ end] =>
              lazymatch x with
              | context [match _ with _ => _ end] => fail
              | _ => destruct x eqn:?
              end
          end).

Lemma fetch_loop_terminates (results : list (Z * Surface_Location)) :
  forall s : Surface_Offline, fetch_loop results s <> OutOfFuel.
Proof.
  induction results as [|[idx loc] results IH]; intros s; cbn [fetch_loop].
  - discriminate.
  - unfold location_cache_update, cancel_location_cache_filler.
    split_cases; try discriminate; apply IH.
Qed.

Lemma fetch_terminates (s : Surface_Offline) :
  _fetch_from_location_cache_filler s <> OutOfFuel.
Proof.
  unfold _fetch_from_location_cache_filler, call_on_surface_change. run.
  destruct (location_cache_filler s) as [j|]; [|discriminate].
  destruct (job_fetch j) as [results j']. run.
  pose proof (fetch_loop_terminates results (set_location_cache_filler (Some j') s)) as Hl.
  destruct (fetch_loop results (set_location_cache_filler (Some j') s))
    as [[] s1|e s1|]; [|discriminate|congruence].
  split_cases; discriminate.
Qed.

(** Extra X2: the drain always ends, and however it ends (by returning or
    by raising) it neither creates nor drops the cache, it keeps the length
    of the cache, and no entry that was resolved becomes [False] again. *)
Theorem fetch_keeps_cache_shape (s : Surface_Offline) :
  _fetch_from_location_cache_filler s <> OutOfFuel /\
  ends_in
    (fun s' =>
       match location_cache s with
       | None => location_cache s' = None
       | Some c =>
           exists c', location_cache s' = Some c' /\
                      length c' = length c /\
                      forall k l, c !! k = Some (Some l) ->
                                  exists l', c' !! k = Some (Some l')
       end)
    (_fetch_from_location_cache_filler s).
Proof.
  split; [apply fetch_terminates | exact (fetch_keeps_shape s)].
Qed.

Lemma recalculate_terminates (frame_idx : Z) (marker_cache : MarkerCache)
  (camera_model : CameraModel) (s : Surface_Offline) :
  exists s2, _recalculate_location_cache frame_idx marker_cache camera_model s
             = Return tt s2.
Proof.
  destruct (recalculate_location_cache_spec frame_idx marker_cache camera_model s)
    as (s2 & j & Hr & _). exists s2. exact Hr.
Qed.

Lemma update_location_cache_terminates (frame_idx : Z) (marker_cache : MarkerCache)
  (camera_model : CameraModel) (s : Surface_Offline) :
  update_location_cache frame_idx marker_cache camera_model s <> OutOfFuel.
Proof.
  destruct (recalculate_terminates frame_idx marker_cache camera_model s) as [s2 Hr].
  unfold update_location_cache, location_cache_update. split_cases; try discriminate.
  all: rewrite Hr; discriminate.
Qed.

Lemma update_location_cache_writes_at (frame_idx : Z) (marker_cache : MarkerCache)
  (camera_model : CameraModel) (s : Surface_Offline) (cache : list CacheEntry)
  (n : nat) (entry : MarkerEntry) :
  subscript marker_cache frame_idx = inr entry ->
  location_cache s = Some cache ->
  norm_index (length cache) frame_idx = Some n ->
  update_location_cache frame_idx marker_cache camera_model s =
  Return tt (set_location_cache
               (Some (<[n:=Some (locate_entry entry camera_model (base s))]> cache)) s).
Proof.
  intros Hsub Hc Hn.
  unfold update_location_cache, location_cache_update. run. rewrite Hsub. run.
  rewrite Hc. run. rewrite (Cache_List_update_norm cache frame_idx n _ Hn).
  reflexivity.
Qed.

(** Once the entry of the frame is resolved, one level of [update_location]
    is enough, whatever the drain delivers. *)
Lemma update_location_on_resolved_entry (fuel : nat) (frame_idx : Z)
  (marker_cache : MarkerCache) (camera_model : CameraModel) (s : Surface_Offline)
  (cache : list CacheEntry) (n : nat) (location : Surface_Location) :
  defined s = true ->
  location_cache s = Some cache ->
  norm_index (length cache) frame_idx = Some n ->
  cache !! n = Some (Some location) ->
  update_location (S fuel) frame_idx marker_cache camera_model s <> OutOfFuel /\
  update_location (S fuel) frame_idx marker_cache camera_model s =
  update_location 1 frame_idx marker_cache camera_model s.
Proof.
  intros Hd Hc Hn Hl.
  pose proof (fetch_terminates s) as Hterm.
  pose proof (fetch_keeps_shape s) as Hshape.
  destruct (_fetch_from_location_cache_filler s) as [[] s1|e s1|] eqn:Hf;
    [| |congruence].
  - unfold cache_shape_kept in Hshape. cbn in Hshape. rewrite Hc in Hshape.
    destruct Hshape as (c1 & Hc1 & Hlen & Hres).
    destruct (Hres n location Hl) as [l1 Hl1].
    assert (Hsub : subscript c1 frame_idx = inr (Some l1)).
    { apply subscript_inr. exists n. rewrite Hlen. split; assumption. }
    assert (Hp : forall k, update_location_prelude k frame_idx marker_cache camera_model s
                           = Return tt s1)
      by (intros k; rewrite prelude_defined_without_job by exact Hd; exact Hf).
    rewrite (update_location_resolved fuel _ _ _ s s1 c1 l1 (Hp fuel) Hc1 Hsub).
    rewrite (update_location_resolved 0 _ _ _ s s1 c1 l1 (Hp 0%nat) Hc1 Hsub).
    split; [discriminate | reflexivity].
  - assert (Hp : forall k, update_location_prelude k frame_idx marker_cache camera_model s
                           = Raise e s1)
      by (intros k; rewrite prelude_defined_without_job by exact Hd; exact Hf).
    rewrite (update_location_prelude_raises fuel _ _ _ _ _ _ (Hp fuel)).
    rewrite (update_location_prelude_raises 0 _ _ _ _ _ _ (Hp 0%nat)).
    split; [discriminate | reflexivity].
Qed.

(** The lookup of lines 69-92, with the recursive call as a parameter. *)
Lemma lookup_stage_bounded (fuel : nat) (frame_idx : Z)
  (marker_cache : MarkerCache) (camera_model : CameraModel) (s : Surface_Offline)
  (K : nat -> M Surface_Offline unit) :
  (forall k, K k =
     let* location :=
       try_except
         (location_cache_getitem frame_idx)
         (fun e => match e with TypeError | AttributeError => true | _ => false end)
         (_recalculate_location_cache frame_idx marker_cache camera_model >>
          ret None) in
     match location with
     | None =>
         let* entry := lift (subscript marker_cache frame_idx) in
         if negb (is_False entry) then
           update_location_cache frame_idx marker_cache camera_model >>
           update_location k frame_idx marker_cache camera_model
         else
           modify (set_base (adopt_location Surface_Location_not_detected))
     | Some location =>
         modify (set_base (adopt_location location))
     end) ->
  defined s = true ->
  K (S fuel) s <> OutOfFuel /\ K (S fuel) s = K 1%nat s.
Proof.
  intros HK Hd. rewrite !HK. unfold location_cache_getitem. run.
  destruct (location_cache s) as [c|] eqn:Hc; run.
  - destruct (subscript c frame_idx) as [e|[location|]] eqn:Hsub; run.
    + unfold subscript in Hsub. destruct (getitem c frame_idx); [discriminate|].
      injection Hsub as <-. split; [discriminate | reflexivity].
    + split; [discriminate | reflexivity].
    + destruct (subscript marker_cache frame_idx) as [e|[ms|]] eqn:Hm; run;
        try (split; [discriminate | reflexivity]).
      apply subscript_inr in Hsub as (n & Hn & Hl).
      rewrite (update_location_cache_writes_at _ _ _ _ c n _ Hm Hc Hn).
      apply (update_location_on_resolved_entry fuel _ _ _ _
               (<[n:=Some (locate_entry (Some ms) camera_model (base s))]> c) n
               (locate_entry (Some ms) camera_model (base s))).
      * exact Hd.
      * reflexivity.
      * rewrite length_insert. exact Hn.
      * apply list_lookup_insert_eq. apply (norm_index_lt _ _ _ Hn).
  - destruct (recalculate_location_cache_spec frame_idx marker_cache camera_model s)
      as (s2 & j & Hr & _ & Hc2 & _ & _ & _ & Hb2 & _).
    rewrite Hr. run.
    destruct (subscript marker_cache frame_idx) as [e|[ms|]] eqn:Hm; run;
      try (split; [discriminate | reflexivity]).
    pose proof Hm as Hm'. apply subscript_inr in Hm' as (n & Hn & _).
    rewrite (update_location_cache_writes_at _ _ _ _ _ n _ Hm Hc2)
      by (rewrite length_replicate; exact Hn).
    apply (update_location_on_resolved_entry fuel _ _ _ _
             (<[n:=Some (locate_entry (Some ms) camera_model (base s2))]>
                (replicate (length marker_cache) None)) n
             (locate_entry (Some ms) camera_model (base s2))).
    + unfold defined in *. cbn. rewrite Hb2. exact Hd.
    + reflexivity.
    + rewrite length_insert, length_replicate. exact Hn.
    + apply list_lookup_insert_eq. rewrite length_replicate.
      apply (norm_index_lt _ _ _ Hn).
Qed.

(** Extra X5: on a defined surface the recursive call of
    [update_location] goes one level deep at most: two units of fuel are
    enough for the call to return or raise, and more fuel does not change
    the outcome. *)
Theorem update_location_recursion_is_bounded (fuel : nat) (frame_idx : Z)
  (marker_cache : MarkerCache) (camera_model : CameraModel) (s : Surface_Offline) :
  defined s = true ->
  update_location (S (S fuel)) frame_idx marker_cache camera_model s <> OutOfFuel /\
  update_location (S (S fuel)) frame_idx marker_cache camera_model s =
  update_location 2 frame_idx marker_cache camera_model s.
Proof.
  intros Hd.
  pose (K := fun k : nat =>
     let* location :=
       try_except
         (location_cache_getitem frame_idx)
         (fun e => match e with TypeError | AttributeError => true | _ => false end)
         (_recalculate_location_cache frame_idx marker_cache camera_model >>
          ret None) in
     match location with
     | None =>
         let* entry := lift (subscript marker_cache frame_idx) in
         if negb (is_False entry) then
           update_location_cache frame_idx marker_cache camera_model >>
           update_location k frame_idx marker_cache camera_model
         else
           modify (set_base (adopt_location Surface_Location_not_detected))
     | Some location =>
         modify (set_base (adopt_location location))
     end).
  assert (E : forall k,
             update_location (S k) frame_idx marker_cache camera_model s =
             match _fetch_from_location_cache_filler s with
             | Return _ s1 => K k s1
             | Raise e s1 => Raise e s1
             | OutOfFuel => OutOfFuel
             end).
  { intros k. rewrite update_location_unfold. unfold bind at 1.
    rewrite prelude_defined_without_job by exact Hd. reflexivity. }
  rewrite (E (S fuel)), (E 1%nat).
  pose proof (fetch_terminates s) as Hterm.
  pose proof (fetch_keeps_definition s) as Hdef.
  destruct (_fetch_from_location_cache_filler s) as [[] s1|e s1|];
    [|split; [discriminate | reflexivity]|congruence].
  cbn in Hdef.
  apply (lookup_stage_bounded fuel frame_idx marker_cache camera_model s1 K).
  - intros k. reflexivity.
  - rewrite (definition_kept_defined _ _ Hdef). exact Hd.
Qed.

End Lookup.

Section Quiet.

Context {ext : External} {col : Collaborators}.

Lemma prelude_quiet (fuel : nat) (frame_idx : Z) (marker_cache : MarkerCache)
  (camera_model : CameraModel) (s : Surface_Offline) :
  defined s = true ->
  location_cache_filler s = None ->
  update_location_prelude fuel frame_idx marker_cache camera_model s = Return tt s.
Proof.
  intros Hd Hf. rewrite prelude_defined_without_job by exact Hd.
  apply fetch_without_job. exact Hf.
Qed.

(** Extra X6: on a defined surface with a cache and no live task,
    [update_location] at a frame within the cache and the recording returns
    without starting or cancelling a task, changes no cache entry other
    than the one of [frame_idx], and calling it again leaves the object as
    it is. *)
Theorem update_location_without_job (fuel fuel' : nat) (frame_idx : Z)
  (marker_cache : MarkerCache) (camera_model : CameraModel) (s : Surface_Offline)
  (cache : list CacheEntry) (n : nat) (entry : MarkerEntry) :
  defined s = true ->
  location_cache_filler s = None ->
  location_cache s = Some cache ->
  norm_index (length cache) frame_idx = Some n ->
  subscript marker_cache frame_idx = inr entry ->
  exists s' cache',
    update_location (S (S fuel)) frame_idx marker_cache camera_model s = Return tt s' /\
    location_cache_filler s' = None /\
    effects s' = effects s /\
    location_cache s' = Some cache' /\
    length cache' = length cache /\
    (forall k, k <> n -> cache' !! k = cache !! k) /\
    update_location (S (S fuel')) frame_idx marker_cache camera_model s' = Return tt s'.
Proof.
  intros Hd Hf Hc Hn Hm.
  destruct (lookup_lt_is_Some_2 cache n (norm_index_lt _ _ _ Hn)) as [e He].
  destruct e as [location|].
  - (* resolved: a pure read *)
    assert (Hsub : subscript cache frame_idx = inr (Some location))
      by (apply subscript_inr; eauto).
    exists (set_base (adopt_location location) s), cache.
    split; [|repeat split; try assumption].
    + apply (update_location_resolved _ _ _ _ s s cache location);
        [apply prelude_quiet; assumption | exact Hc | exact Hsub].
    + apply (update_location_resolved _ _ _ _ _ (set_base (adopt_location location) s)
               cache location); [|exact Hc | exact Hsub].
      apply prelude_quiet; [exact Hd | exact Hf].
  - assert (Hsub : subscript cache frame_idx = inr None) by (apply subscript_inr; eauto).
    destruct entry as [ms|].
    + (* computed on demand *)
      set (location := locate_entry (Some ms) camera_model (base s)).
      set (s3 := set_location_cache (Some (<[n:=Some location]> cache)) s).
      assert (Hsub3 : subscript (<[n:=Some location]> cache) frame_idx
                      = inr (Some location)).
      { apply subscript_inr. exists n. rewrite length_insert. split; [exact Hn|].
        apply list_lookup_insert_eq. apply (norm_index_lt _ _ _ Hn). }
      exists (set_base (adopt_location location) s3), (<[n:=Some location]> cache).
      split; [|repeat split; try assumption].
      * rewrite (update_location_on_demand _ _ _ _ s s cache n ms
                   (prelude_quiet _ _ _ _ s Hd Hf) Hc Hn He Hm).
        apply (update_location_resolved _ _ _ _ s3 s3
                 (<[n:=Some location]> cache) location);
          [apply prelude_quiet; assumption | reflexivity | exact Hsub3].
      * apply length_insert.
      * intros k Hk. apply list_lookup_insert_ne. congruence.
      * apply (update_location_resolved _ _ _ _ _ (set_base (adopt_location location) s3)
                 (<[n:=Some location]> cache) location); [|reflexivity | exact Hsub3].
        apply prelude_quiet; [exact Hd | exact Hf].
    + (* markers pending *)
      exists (set_base (adopt_location Surface_Location_not_detected) s), cache.
      split; [|repeat split; try assumption].
      * apply (update_location_pending _ _ _ _ s s cache);
          [apply prelude_quiet; assumption | exact Hc | exact Hsub | exact Hm].
      * apply (update_location_pending _ _ _ _ _
                 (set_base (adopt_location Surface_Location_not_detected) s) cache);
          [|exact Hc | exact Hsub | exact Hm].
        apply prelude_quiet; [exact Hd | exact Hf].
Qed.

(** Extra X7: on a defined surface with a cache and no live task, a
    [frame_idx] outside [-len, len) raises IndexError and leaves the object
    unchanged; a negative [frame_idx] within range counts from the end of
    the cache. *)
Theorem update_location_index_bounds (fuel : nat) (frame_idx : Z)
  (marker_cache : MarkerCache) (camera_model : CameraModel) (s : Surface_Offline)
  (cache : list CacheEntry) :
  defined s = true ->
  location_cache_filler s = None ->
  location_cache s = Some cache ->
  (frame_idx < - Z.of_nat (length cache) \/ Z.of_nat (length cache) <= frame_idx ->
   update_location (S fuel) frame_idx marker_cache camera_model s = Raise IndexError s) /\
  (forall location,
     - Z.of_nat (length cache) <= frame_idx < 0 ->
     cache !! Z.to_nat (Z.of_nat (length cache) + frame_idx) = Some (Some location) ->
     update_location (S fuel) frame_idx marker_cache camera_model s =
     Return tt (set_base (adopt_location location) s)).
Proof.
  intros Hd Hf Hc. split.
  - intros Hout. rewrite update_location_unfold. unfold bind at 1.
    rewrite (prelude_quiet _ _ _ _ s Hd Hf).
    unfold location_cache_getitem, subscript, getitem, norm_index. run. rewrite Hc. run.
    replace ((0 <=? frame_idx) && (frame_idx <? Z.of_nat (length cache))) with false
      by (symmetry; apply andb_false_iff; rewrite Z.leb_gt, Z.ltb_ge; lia).
    replace ((- Z.of_nat (length cache) <=? frame_idx) && (frame_idx <? 0)) with false
      by (symmetry; apply andb_false_iff; rewrite Z.leb_gt, Z.ltb_ge; lia).
    reflexivity.
  - intros location Hneg Hl.
    apply (update_location_resolved _ _ _ _ s s cache location);
      [apply prelude_quiet; assumption | exact Hc |].
    apply subscript_inr. exists (Z.to_nat (Z.of_nat (length cache) + frame_idx)).
    split; [|exact Hl]. unfold norm_index.
    replace ((0 <=? frame_idx) && (frame_idx <? Z.of_nat (length cache))) with false
      by (symmetry; apply andb_false_iff; rewrite Z.leb_gt, Z.ltb_ge; lia).
    replace ((- Z.of_nat (length cache) <=? frame_idx) && (frame_idx <? 0)) with true
      by (symmetry; apply andb_true_iff; rewrite Z.leb_le, Z.ltb_lt; lia).
    reflexivity.
Qed.

(** Extra X9: [update_location_cache] on an absent cache does not write
    the entry: for a frame of the recording it falls back to a full
    recalculation (stale task cancelled, one task started, cache
    all-[False]); for a frame outside the recording IndexError escapes and
    nothing is recalculated. *)
Theorem update_location_cache_on_absent_cache (frame_idx : Z)
  (marker_cache : MarkerCache) (camera_model : CameraModel) (s : Surface_Offline) :
  location_cache s = None ->
  (forall entry, subscript marker_cache frame_idx = inr entry ->
     exists s' j,
       update_location_cache frame_idx marker_cache camera_model s = Return tt s' /\
       location_cache s' = Some (replicate (length marker_cache) None) /\
       location_cache_filler s' = Some j /\
       effects s' = effects s ++
                    match location_cache_filler s with
                    | Some j0 => [JobCancelled j0]
                    | None => []
                    end ++ [JobStarted j]) /\
  (subscript marker_cache frame_idx = inl IndexError ->
   update_location_cache frame_idx marker_cache camera_model s = Raise IndexError s).
Proof.
  intros Hc. split.
  - intros entry Hm.
    destruct (recalculate_location_cache_spec frame_idx marker_cache camera_model s)
      as (s2 & j & Hr & _ & Hc2 & _ & Hf2 & He2 & _).
    exists s2, j. split; [|repeat split; assumption].
    unfold update_location_cache, location_cache_update. run. rewrite Hm. run.
    rewrite Hc. run. exact Hr.
  - intros Hm. unfold update_location_cache. run. rewrite Hm. reflexivity.
Qed.

(** Extra X10: after [move_corner] at a frame of the recording, on a
    surface without live task that is defined after the move,
    [update_location] at the same frame is a pure lookup: the cache stays as
    [move_corner] left it (all [False] but the entry of the frame), no task
    is started, and the six location attributes of the surface are those of
    the location computed with the moved corner: NotDetected for a frame
    without markers, and for a frame with markers what [Surface.locate]
    gives on the registered markers of the surface after the move. *)
Theorem move_corner_then_update_location (fuel : nat) (frame_idx : Z)
  (marker_cache : MarkerCache) (corner_idx : Z) (new_pos : Position)
  (camera_model : CameraModel) (s : Surface_Offline) (entry : MarkerEntry) :
  0 <= frame_idx < Z.of_nat (length marker_cache) ->
  marker_cache !! Z.to_nat frame_idx = Some entry ->
  location_cache_filler s = None ->
  defined (set_base (Surface_move_corner corner_idx new_pos camera_model) s) = true ->
  exists s1 s2 location,
    move_corner frame_idx marker_cache corner_idx new_pos camera_model s = Return tt s1 /\
    update_location (S fuel) frame_idx marker_cache camera_model s1 = Return tt s2 /\
    (forall m ms, entry = Some (m :: ms) ->
       location =
       Surface_locate (markers_by_id (m :: ms)) camera_model
         (registered_markers_undist
            (Surface_move_corner corner_idx new_pos camera_model (base s)))
         (registered_markers_dist
            (Surface_move_corner corner_idx new_pos camera_model (base s)))) /\
    (entry = None \/ entry = Some [] -> location = Surface_Location_not_detected) /\
    location_cache s1 =
    Some (<[Z.to_nat frame_idx:=Some location]> (replicate (length marker_cache) None)) /\
    location_cache s2 = location_cache s1 /\
    location_cache_filler s2 = None /\
    effects s2 = effects s /\
    detected (base s2) = loc_detected location /\
    dist_img_to_surf_trans (base s2) = loc_dist_img_to_surf_trans location /\
    surf_to_dist_img_trans (base s2) = loc_surf_to_dist_img_trans location /\
    img_to_surf_trans (base s2) = loc_img_to_surf_trans location /\
    surf_to_img_trans (base s2) = loc_surf_to_img_trans location /\
    num_detected_markers (base s2) = loc_num_detected_markers location.
Proof.
  intros Hi He Hf Hd.
  eexists _, _,
    (locate_entry entry camera_model
       (Surface_move_corner corner_idx new_pos camera_model (base s))).
  split; [apply (move_corner_in_range _ _ _ _ _ _ entry Hi He)|].
  split.
  { eapply update_location_resolved.
    - apply prelude_quiet; [exact Hd | exact Hf].
    - reflexivity.
    - apply subscript_inr. exists (Z.to_nat frame_idx). split.
      + rewrite length_insert, length_replicate. apply norm_index_in_range. exact Hi.
      + apply list_lookup_insert_eq. rewrite length_replicate. lia. }
  split; [intros m ms ->; reflexivity|].
  split; [intros [-> | ->]; reflexivity|].
  cbn. repeat split. exact Hf.
Qed.

End Quiet.

(** ** Progress of the scan *)

Section Progress.

Context {ext : External} {col : Collaborators}.

Lemma keeps_weaken {St A : Type} (R R' : St -> St -> Prop) (m : M St A) :
  (forall s s', R s s' -> R' s s') -> keeps R m -> keeps R' m.
Proof.
  intros Hw Hm s. specialize (Hm s). destruct (m s); cbn in *; auto.
Qed.

Lemma scan_progress_preorder : PreOrder scan_progress.
Proof.
  split.
  - intros s. split; [auto|]. split; [exists []; symmetry; apply app_nil_r | auto].
  - intros s1 s2 s3 (A1 & (l1 & A2) & A3) (B1 & (l2 & B2) & B3).
    split; [auto|]. split; [|auto].
    exists (l1 ++ l2). rewrite B2, A2, app_assoc. reflexivity.
Qed.

Local Existing Instance scan_progress_preorder.
Local Existing Instance definition_kept_preorder.

Lemma definition_kept_scan_progress (s s' : Surface_Offline) :
  definition_kept s s' -> scan_progress s s'.
Proof.
  intros (_ & _ & _ & _ & Ho & Hs). split; [intros i Hi; congruence|].
  split; [exists []; rewrite Ho, app_nil_r; reflexivity | rewrite Ho; auto].
Qed.

Lemma scan_progress_same (s s' : Surface_Offline) :
  observations_frame_idxs s' = observations_frame_idxs s ->
  start_idx s' = start_idx s ->
  scan_progress s s'.
Proof.
  intros Ho Hs. split; [intros i Hi; congruence|].
  split; [exists []; rewrite Ho, app_nil_r; reflexivity | rewrite Ho; auto].
Qed.

Lemma Z_in_elem_of (i : Z) (l : list Z) : Z_in i l = true <-> i ∈ l.
Proof.
  unfold Z_in. rewrite existsb_exists, list_elem_of_In. split.
  - intros (x & Hx & E). apply Z.eqb_eq in E. subst x. exact Hx.
  - intros Hi. exists i. split; [exact Hi | apply Z.eqb_refl].
Qed.

Lemma observe_frame_keeps_progress (camera_model : CameraModel)
  (marker_cache : MarkerCache) (i : Z) :
  keeps scan_progress (observe_frame camera_model marker_cache i).
Proof.
  intros s. unfold observe_frame, _update_definition. run.
  destruct (Z_in i (observations_frame_idxs s)) eqn:Hin; run; [reflexivity|].
  destruct (subscript marker_cache i) as [e|[ms|]]; run; try reflexivity.
  split; [auto|]. split; [eexists; reflexivity|].
  intros Hnd. apply NoDup_app. split; [exact Hnd|]. split; [|apply NoDup_singleton].
  intros x Hx Hxi. apply list_elem_of_singleton in Hxi. subst x.
  apply Z_in_elem_of in Hx. congruence.
Qed.

Lemma scan_body_keeps_progress (next : option Z -> M Surface_Offline unit)
  (camera_model : CameraModel) (frame_idx : Z) (marker_cache : MarkerCache) (i : Z) :
  (forall d, keeps scan_progress (next (Some d))) ->
  keeps scan_progress (scan_body next camera_model frame_idx marker_cache (Some i)).
Proof.
  intros Hnext s. unfold scan_body, marker_entry_is_False, subscript. run.
  destruct (getitem marker_cache i) as [[ms|]|]; run; try reflexivity.
  apply ends_in_bind; [typeclasses eauto | apply observe_frame_keeps_progress |].
  intros _ s1 _ _. destruct (i =? frame_idx - 1).
  - run. apply scan_progress_same; reflexivity.
  - apply Hnext.
Qed.

Lemma scan_else_keeps_progress (s0 : Surface_Offline) :
  keeps scan_progress
    (modify (set_location_cache None) >>
     match on_surface_change s0 with
     | Some _ => call_on_surface_change
     | None => ret tt
     end).
Proof.
  apply keeps_bind; [typeclasses eauto | |].
  - apply keeps_modify. intros s. apply scan_progress_same; reflexivity.
  - intros _. destruct (on_surface_change s0); [|apply keeps_ret; typeclasses eauto].
    apply (keeps_weaken definition_kept); [apply definition_kept_scan_progress|].
    apply call_on_surface_change_keeps_definition.
Qed.

Lemma scan_loop_keeps_progress (fuel : nat) (camera_model : CameraModel)
  (frame_idx : Z) (marker_cache : MarkerCache) :
  forall i, keeps scan_progress
              (scan_loop fuel camera_model frame_idx marker_cache (Some i)).
Proof.
  induction fuel as [|fuel IH]; intros i s; cbn [scan_loop]; unfold bind at 1, get.
  - destruct (defined s); [apply scan_else_keeps_progress | exact I].
  - destruct (defined s); [apply scan_else_keeps_progress|].
    unfold wrap_def_idx, def_idx_at_end.
    destruct ((i =? Z.of_nat (length marker_cache)) && (frame_idx >? 0));
      apply scan_body_keeps_progress; exact IH.
Qed.

Lemma build_definition_progress (fuel : nat) (camera_model : CameraModel)
  (frame_idx : Z) (marker_cache : MarkerCache) :
  keeps scan_progress
    (_build_definition_from_cache fuel camera_model frame_idx marker_cache).
Proof.
  intros s. unfold _build_definition_from_cache, bind at 1, get.
  destruct (start_idx s) as [i|] eqn:Hs; [apply scan_loop_keeps_progress|].
  destruct fuel as [|fuel]; cbn [scan_loop]; unfold bind at 1, get.
  - destruct (defined s); [apply scan_else_keeps_progress | exact I].
  - destruct (defined s); [apply scan_else_keeps_progress|].
    change (wrap_def_idx None frame_idx marker_cache) with (@None Z).
    unfold scan_body, marker_entry_is_False. run.
    assert (H1 : scan_progress s (set_start_idx (Some frame_idx) s)).
    { split; [intros i Hi; congruence|].
      split; [exists []; symmetry; apply app_nil_r | auto]. }
    pose proof (observe_frame_keeps_progress camera_model marker_cache frame_idx
                  (set_start_idx (Some frame_idx) s)) as H2.
    destruct (observe_frame camera_model marker_cache frame_idx
                (set_start_idx (Some frame_idx) s)) as [[] s2|e s2|]; cbn in H2 |- *;
      [|etransitivity; eassumption|exact I].
    assert (H12 : scan_progress s s2) by (etransitivity; eassumption).
    destruct (frame_idx =? frame_idx - 1).
    + run. etransitivity; [exact H12|]. apply scan_progress_same; reflexivity.
    + pose proof (scan_loop_keeps_progress fuel camera_model frame_idx marker_cache
                    (frame_idx + 1) s2) as H3.
      destruct (scan_loop fuel camera_model frame_idx marker_cache
                  (Some (frame_idx + 1)) s2); cbn in H3 |- *; [| |exact I];
        etransitivity; eassumption.
Qed.

(** Extra X12: however [_build_definition_from_cache] ends, a start of the
    scan that was set is unchanged, the observations have only been
    extended, and no frame has been added to them twice. *)
Theorem build_definition_keeps_progress (fuel : nat) (camera_model : CameraModel)
  (frame_idx : Z) (marker_cache : MarkerCache) (s : Surface_Offline) :
  ends_in
    (fun s' =>
       (forall i, start_idx s = Some i -> start_idx s' = Some i) /\
       (exists added,
          observations_frame_idxs s' = observations_frame_idxs s ++ added) /\
       (NoDup (observations_frame_idxs s) -> NoDup (observations_frame_idxs s')))
    (_build_definition_from_cache fuel camera_model frame_idx marker_cache s).
Proof.
  exact (build_definition_progress fuel camera_model frame_idx marker_cache s).
Qed.

(** Extra X13: however [update_location] ends, on a defined surface or not,
    a start of the scan that was set is never moved, and the observations
    are only extended, never shortened and never given a frame twice. *)
Theorem update_location_keeps_progress (fuel : nat) (frame_idx : Z)
  (marker_cache : MarkerCache) (camera_model : CameraModel) :
  keeps scan_progress (update_location fuel frame_idx marker_cache camera_model).
Proof.
  assert (W : forall A (m : M Surface_Offline A),
             keeps definition_kept m -> keeps scan_progress m)
    by (intros A m; apply keeps_weaken, definition_kept_scan_progress).
  induction fuel as [|fuel IH]; [intros s; exact I|].
  rewrite update_location_unfold.
  apply keeps_bind; [typeclasses eauto | |].
  { unfold update_location_prelude.
    apply keeps_bind; [typeclasses eauto | apply keeps_get; typeclasses eauto |].
    intros s0. apply keeps_bind; [typeclasses eauto | |].
    - destruct (negb (defined s0));
        [apply build_definition_progress | apply keeps_ret; typeclasses eauto].
    - intros _. apply W, fetch_keeps_definition. }
  intros _. apply keeps_bind; [typeclasses eauto | |].
  { apply W. apply keeps_try_except; [typeclasses eauto | |].
    - unfold location_cache_getitem.
      apply keeps_bind; [typeclasses eauto | apply keeps_get; typeclasses eauto |].
      intros s0. destruct (location_cache s0);
        [apply keeps_lift | apply keeps_raise]; typeclasses eauto.
    - apply keeps_bind; [typeclasses eauto | apply recalculate_keeps_definition |].
      intros _. apply keeps_ret; typeclasses eauto. }
  intros [location|].
  { apply W, keeps_modify. intros ?. repeat split. }
  apply keeps_bind; [typeclasses eauto | apply keeps_lift; typeclasses eauto |].
  intros entry. destruct (negb (is_False entry)).
  - apply keeps_bind; [typeclasses eauto | | intros _; exact IH].
    apply W, update_location_cache_keeps_definition.
  - apply W, keeps_modify. intros ?. repeat split.
Qed.

End Progress.

(** ** Sections, clamped *)

Section Sections.

Context {ext : External} {col : Collaborators}.

Lemma enumerate_from_length {A : Type} (l : list A) (k : Z) :
  length (enumerate_from k l) = length l.
Proof.
  revert k. induction l as [|x l IH]; intros k; cbn; [reflexivity|].
  rewrite IH. reflexivity.
Qed.

Lemma getslice_length_clamped {A : Type} (l : list A) (a b : Z) :
  0 <= a <= b ->
  length (getslice l (Slice a b)) =
  Z.to_nat (Z.min b (Z.of_nat (length l)) - Z.min a (Z.of_nat (length l))).
Proof.
  intros Hab. unfold getslice, clamp. cbn.
  replace (a <? 0) with false by lia. replace (b <? 0) with false by lia.
  rewrite length_take, length_drop. lia.
Qed.

(** Extra X15: [map_section] clamps the section to the cache: for
    [0 <= start <= stop] the result has [min(stop, len) - min(start, len)]
    entries, so a non-empty section that reaches past the end of the cache
    yields fewer entries than it has frames. *)
Theorem map_section_length_is_clamped (section : slice)
  (all_world_timestamps : Timestamps) (all_gaze_events : GazeEvents)
  (camera_model : CameraModel) (s : Surface_Offline) (cache : list CacheEntry) :
  location_cache s = Some cache ->
  0 <= start section <= stop section ->
  exists r,
    map_section section all_world_timestamps all_gaze_events camera_model s = inr r /\
    length r = Z.to_nat (Z.min (stop section) (Z.of_nat (length cache))
                         - Z.min (start section) (Z.of_nat (length cache))) /\
    (Z.of_nat (length cache) < stop section -> start section < stop section ->
     Z.of_nat (length r) < stop section - start section).
Proof.
  intros Hc Hab. rewrite map_section_as_map, Hc. eexists. split; [reflexivity|].
  rewrite length_map. unfold enumerate. rewrite enumerate_from_length.
  destruct section as [a b]; cbn in *.
  rewrite getslice_length_clamped by exact Hab. unfold CacheEntry in *.
  split; [reflexivity | lia].
Qed.

(** Extra X16: whatever the truth value of a location is, [map_section]
    yields the empty list for every frame whose cache entry is not
    Detected. *)
Theorem map_section_maps_only_detected (section : slice)
  (all_world_timestamps : Timestamps) (all_gaze_events : GazeEvents)
  (camera_model : CameraModel) (s : Surface_Offline) (cache : list CacheEntry)
  (r : list (list MappedPoint)) (k : nat) (entry : CacheEntry) :
  location_cache s = Some cache ->
  map_section section all_world_timestamps all_gaze_events camera_model s = inr r ->
  getslice cache section !! k = Some entry ->
  _cache_positive_eval_fn entry = false ->
  r !! k = Some [].
Proof.
  intros Hc Hr He Hneg. rewrite map_section_as_map, Hc in Hr. injection Hr as <-.
  rewrite list_lookup_fmap. unfold enumerate.
  rewrite enumerate_from_lookup, He. cbn. f_equal. unfold frame_gaze. cbn.
  destruct entry as [l|]; cbn in *; [|reflexivity].
  rewrite Hneg. destruct (Surface_Location_bool l); reflexivity.
Qed.

Lemma getslice_split {A : Type} (l : list A) (a b c : Z) :
  0 <= a <= b -> b <= c -> c <= Z.of_nat (length l) ->
  getslice l (Slice a c) = getslice l (Slice a b) ++ getslice l (Slice b c).
Proof.
  intros Hab Hbc Hc. rewrite !getslice_in_range by lia.
  replace (Z.to_nat (c - a)) with (Z.to_nat (b - a) + Z.to_nat (c - b))%nat by lia.
  rewrite <- take_take_drop, drop_drop. do 3 f_equal. lia.
Qed.

Lemma filter_length_le {A : Type} (f : A -> bool) (l : list A) :
  (length (List.filter f l) <= length l)%nat.
Proof.
  induction l as [|x l IH]; cbn; [lia|]. destruct (f x); cbn; lia.
Qed.

(** Extra X17: within the cache, the visible count of a section is the
    sum of the counts of its two parts, and it lies between 0 and the
    number of frames of the section. *)
Theorem visible_count_in_section_is_additive (s : Surface_Offline)
  (cache : list CacheEntry) (a b c : Z) :
  location_cache s = Some cache ->
  0 <= a <= b -> b <= c -> c <= Z.of_nat (length cache) ->
  visible_count_in_section (Slice a c) s =
  visible_count_in_section (Slice a b) s + visible_count_in_section (Slice b c) s /\
  0 <= visible_count_in_section (Slice a b) s <= b - a.
Proof.
  intros Hc Hab Hbc Hcl. rewrite !visible_count_in_section_counts_truthy, Hc.
  split.
  - rewrite (getslice_split cache a b c) by assumption.
    rewrite List.filter_app, length_app. lia.
  - pose proof (filter_length_le entry_bool (getslice cache (Slice a b))) as Hle.
    rewrite getslice_length in Hle by lia. lia.
Qed.

End Sections.

(** ** Loading *)

Section Persistence.

Context {ext : External} {col : Collaborators}.

Lemma cache_resolved_or_partial (cache : list CacheEntry) :
  (exists ls : list Surface_Location, cache = map Some ls) \/ In None cache.
Proof.
  induction cache as [|[l|] cache IH].
  - left. exists []. reflexivity.
  - destruct IH as [[ls ->]|Hin]; [left; exists (l :: ls); reflexivity|].
    right. right. exact Hin.
  - right. left. reflexivity.
Qed.

(** Extra X18: provided loading a serialised location gives the location
    back, saving and loading always returns and restores [start_idx] and
    [observations_frame_idxs] exactly, whatever the state of the cache; the
    handle of the task is not touched. *)
Theorem save_then_load_restores_scan
  (Hrt : forall l, load_from_serializable_copy (get_serializable_copy l) = inr l)
  (s s0 : Surface_Offline) :
  exists s',
    _load_from_dict (save_to_dict s) s0 = Return tt s' /\
    start_idx s' = start_idx s /\
    observations_frame_idxs s' = observations_frame_idxs s /\
    base s' = Surface_load_from_dict (Surface_save_to_dict (base s)) (base s0) /\
    location_cache_filler s' = location_cache_filler s0 /\
    effects s' = effects s0.
Proof.
  unfold _load_from_dict, save_to_dict, load_cache. run.
  destruct (location_cache s) as [cache|]; run.
  - destruct (cache_resolved_or_partial cache) as [[ls ->]|Hin].
    + rewrite save_loop_resolved. run. rewrite (load_loop_saved Hrt). run.
      eexists. split; [reflexivity|]. repeat split.
    + rewrite (save_loop_partial cache [] Hin). run.
      eexists. split; [reflexivity|]. repeat split.
  - eexists. split; [reflexivity|]. repeat split.
Qed.

(** Extra X19: a record without the key ["cache"], with a null cache, or
    with an element whose deserialisation raises KeyError or TypeError is
    loaded with the cache absent and without raising; any other exception
    of the deserialisation escapes [_load_from_dict]. *)
Theorem load_from_dict_malformed_cache (init_dict : SaveDict) (s0 : Surface_Offline) :
  (dict_cache init_dict = None -> load_cache init_dict = inl KeyError) /\
  (dict_cache init_dict = Some None -> load_cache init_dict = inl TypeError) /\
  (forall pre x post e,
     dict_cache init_dict = Some (Some (pre ++ x :: post)) ->
     (forall y, In y pre -> exists l, load_from_serializable_copy y = inr l) ->
     load_from_serializable_copy x = inl e ->
     load_cache init_dict = inl e) /\
  (forall e, load_cache init_dict = inl e ->
     match e with
     | KeyError | TypeError =>
         exists s', _load_from_dict init_dict s0 = Return tt s' /\
                    location_cache s' = None
     | _ =>
         _load_from_dict init_dict s0 =
         Raise e (set_base (Surface_load_from_dict (dict_base init_dict)) s0)
     end).
Proof.
  split; [|split; [|split]].
  - intros E. unfold load_cache. rewrite E. reflexivity.
  - intros E. unfold load_cache. rewrite E. reflexivity.
  - intros pre x post e E Hpre Hx. unfold load_cache. rewrite E. clear E.
    induction pre as [|y pre IH]; cbn.
    + rewrite Hx. reflexivity.
    + destruct (Hpre y) as [l Hl]; [left; reflexivity|]. rewrite Hl.
      rewrite IH; [reflexivity|]. intros z Hz. apply Hpre. right. exact Hz.
  - intros e He. unfold _load_from_dict. run. rewrite He.
    destruct e; run; try reflexivity;
      destruct (dict_added_in_player init_dict); run;
      eexists; split; reflexivity.
Qed.

(** Extra X20: a record without ["added_in_player"] is loaded as a fully
    defined surface with no observations and the scan start at frame 0. *)
Theorem load_from_dict_without_added_in_player (init_dict : SaveDict)
  (s0 : Surface_Offline) :
  dict_added_in_player init_dict = None ->
  (forall e, load_cache init_dict = inl e -> e = KeyError \/ e = TypeError) ->
  exists s',
    _load_from_dict init_dict s0 = Return tt s' /\
    defined s' = true /\
    observations_frame_idxs s' = [] /\
    start_idx s' = Some 0 /\
    location_cache s' = match load_cache init_dict with
                        | inr cache => Some cache
                        | inl _ => None
                        end.
Proof.
  intros Ha Hc. unfold _load_from_dict. run. rewrite Ha.
  destruct (load_cache init_dict) as [e|cache]; run.
  - destruct (Hc e eq_refl) as [-> | ->]; run;
      eexists; (split; [reflexivity|]); repeat split.
  - eexists. split; [reflexivity|]. repeat split.
Qed.

End Persistence.

(** ** After the lookup *)

Section Post.

Context {ext : External} {col : Collaborators}.

Lemma bind_Return_inv {St A B : Type} (m : M St A) (f : A -> M St B) (s s' : St) (b : B) :
  bind m f s = Return b s' ->
  exists a s1, m s = Return a s1 /\ f a s1 = Return b s'.
Proof.
  unfold bind. destruct (m s) as [a s1|e s1|]; [|discriminate|discriminate].
  intros H. exists a, s1. split; [reflexivity | exact H].
Qed.

Lemma subscript_replicate_None (N : nat) (i : Z) (n : nat) :
  norm_index N i = Some n ->
  subscript (replicate N (None : CacheEntry)) i = inr None.
Proof.
  intros Hn. apply subscript_inr. exists n. rewrite length_replicate.
  split; [exact Hn|]. apply lookup_replicate_2. apply (norm_index_lt _ _ _ Hn).
Qed.

(** A call that returns has gone through lines 87-92 with the entry the
    cache holds for the frame. *)
Lemma update_location_returns_adopting (fuel : nat) (frame_idx : Z)
  (marker_cache : MarkerCache) (camera_model : CameraModel) :
  forall s s' : Surface_Offline,
    update_location fuel frame_idx marker_cache camera_model s = Return tt s' ->
    exists cache entry b,
      location_cache s' = Some cache /\
      subscript cache frame_idx = inr entry /\
      base s' = adopt_location (default Surface_Location_not_detected entry) b.
Proof.
  induction fuel as [|fuel IH]; intros s s' Hrun; [discriminate|].
  rewrite update_location_unfold in Hrun.
  apply bind_Return_inv in Hrun as ([] & s1 & _ & Hrun).
  apply bind_Return_inv in Hrun as (location & s2 & Hlook & Hrun).
  assert (Hloc :
    (exists cache, location_cache s2 = Some cache /\
                   subscript cache frame_idx = inr location) \/
    (location = None /\
     location_cache s2 = Some (replicate (length marker_cache) None))).
  { revert Hlook. unfold location_cache_getitem. run.
    destruct (location_cache s1) as [cache|] eqn:Hc; run.
    - destruct (subscript cache frame_idx) as [e|entry] eqn:Hsub; run.
      + unfold subscript in Hsub. destruct (getitem cache frame_idx); [discriminate|].
        injection Hsub as <-. discriminate.
      + intros [= <- <-]. left. eauto.
    - destruct (recalculate_location_cache_spec frame_idx marker_cache camera_model s1)
        as (s2' & j & Hr & _ & Hc2 & _).
      rewrite Hr. intros [= <- <-]. right. split; [reflexivity | exact Hc2]. }
  destruct location as [location|].
  - revert Hrun. run. intros [= <-].
    destruct Hloc as [(cache & Hc & Hsub)|[? _]]; [|discriminate].
    exists cache, (Some location), (base s2). repeat split; assumption.
  - apply bind_Return_inv in Hrun as (entry & s3 & Hm & Hrun).
    destruct (subscript marker_cache frame_idx) as [e|entry'] eqn:Hsub;
      [discriminate|]. revert Hm. run. intros [= <- <-].
    destruct entry' as [ms|]; cbn [is_False negb] in Hrun.
    + apply bind_Return_inv in Hrun as ([] & s4 & _ & Hrun).
      apply (IH s4 s' Hrun).
    + revert Hrun. run. intros [= <-].
      destruct Hloc as [(cache & Hc & Hs)|[_ Hc]].
      * exists cache, None, (base s2). repeat split; assumption.
      * apply subscript_inr in Hsub as (n & Hn & _).
        exists (replicate (length marker_cache) None), None, (base s2).
        split; [exact Hc|]. split; [|reflexivity].
        apply (subscript_replicate_None _ _ n Hn).
Qed.

(** Extra X8: whenever [update_location] returns, the cache is present,
    [frame_idx] is within it, and the six location attributes of the
    surface ([detected], the four transformations and
    [num_detected_markers]) are those of the cache entry of that frame;
    while that entry is still [False] they are those of NotDetected: not
    detected, no transformation, no marker. *)
Theorem update_location_adopts_cache_entry (fuel : nat) (frame_idx : Z)
  (marker_cache : MarkerCache) (camera_model : CameraModel)
  (s s' : Surface_Offline) :
  update_location fuel frame_idx marker_cache camera_model s = Return tt s' ->
  exists cache entry,
    location_cache s' = Some cache /\
    subscript cache frame_idx = inr entry /\
    match entry with
    | Some location =>
        detected (base s') = loc_detected location /\
        dist_img_to_surf_trans (base s') = loc_dist_img_to_surf_trans location /\
        surf_to_dist_img_trans (base s') = loc_surf_to_dist_img_trans location /\
        img_to_surf_trans (base s') = loc_img_to_surf_trans location /\
        surf_to_img_trans (base s') = loc_surf_to_img_trans location /\
        num_detected_markers (base s') = loc_num_detected_markers location
    | None =>
        detected (base s') = false /\
        dist_img_to_surf_trans (base s') = None /\
        surf_to_dist_img_trans (base s') = None /\
        img_to_surf_trans (base s') = None /\
        surf_to_img_trans (base s') = None /\
        num_detected_markers (base s') = 0
    end.
Proof.
  intros Hrun.
  destruct (update_location_returns_adopting _ _ _ _ _ _ Hrun)
    as (cache & entry & b & Hc & Hsub & Hb).
  exists cache, entry. split; [exact Hc|]. split; [exact Hsub|].
  rewrite Hb. destruct entry as [location|]; repeat split.
Qed.

(** Extra X11: [move_corner] at a frame outside the recording raises
    IndexError after the corner has been moved and the cache has been
    reset to all-[False]. *)
Theorem move_corner_outside_recording (frame_idx : Z) (marker_cache : MarkerCache)
  (corner_idx : Z) (new_pos : Position) (camera_model : CameraModel)
  (s : Surface_Offline) :
  frame_idx < - Z.of_nat (length marker_cache) \/
  Z.of_nat (length marker_cache) <= frame_idx ->
  move_corner frame_idx marker_cache corner_idx new_pos camera_model s =
  Raise IndexError
    (set_location_cache (Some (replicate (length marker_cache) None))
       (set_base (Surface_move_corner corner_idx new_pos camera_model) s)).
Proof.
  intros Hout. unfold move_corner, update_location_cache, subscript, getitem, norm_index.
  run.
  replace ((0 <=? frame_idx) && (frame_idx <? Z.of_nat (length marker_cache)))
    with false by (symmetry; apply andb_false_iff; rewrite Z.leb_gt, Z.ltb_ge; lia).
  replace ((- Z.of_nat (length marker_cache) <=? frame_idx) && (frame_idx <? 0))
    with false by (symmetry; apply andb_false_iff; rewrite Z.leb_gt, Z.ltb_ge; lia).
  reflexivity.
Qed.

End Post.

(** ** Entering [update_location] again *)

Section Reentry.

Context {ext : External} {col : Collaborators}.

(** *** More fuel does not change a scan that has ended *)

Lemma scan_body_fuel (next next' : option Z -> M Surface_Offline unit)
  (camera_model : CameraModel) (frame_idx : Z) (marker_cache : MarkerCache)
  (def_idx : option Z) (s s' : Surface_Offline) :
  (forall d s1, next d s1 = Return tt s' -> next' d s1 = Return tt s') ->
  scan_body next camera_model frame_idx marker_cache def_idx s = Return tt s' ->
  scan_body next' camera_model frame_idx marker_cache def_idx s = Return tt s'.
Proof.
  intros Hnext. unfold scan_body. run.
  destruct (marker_entry_is_False marker_cache def_idx) as [[]|[]]; run;
    try discriminate; try (intros H; exact H).
  - destruct (observe_frame camera_model marker_cache frame_idx
                (set_start_idx (Some frame_idx) s)) as [[] s1|e s1|];
      try discriminate.
    destruct (frame_idx =? frame_idx - 1); [intros H; exact H | apply Hnext].
  - destruct def_idx as [i|]; run; [|intros H; exact H].
    destruct (observe_frame camera_model marker_cache i s) as [[] s1|e s1|];
      try discriminate.
    destruct (i =? frame_idx - 1); [intros H; exact H | apply Hnext].
Qed.

Lemma scan_loop_fuel (fuel : nat) (camera_model : CameraModel) (frame_idx : Z)
  (marker_cache : MarkerCache) :
  forall (def_idx : option Z) (s s' : Surface_Offline),
    scan_loop fuel camera_model frame_idx marker_cache def_idx s = Return tt s' ->
    scan_loop (S fuel) camera_model frame_idx marker_cache def_idx s = Return tt s'.
Proof.
  induction fuel as [|fuel IH]; intros def_idx s s' H; destruct (defined s) eqn:Hd.
  - rewrite scan_loop_defined in * by exact Hd. exact H.
  - cbn -[defined] in H. unfold bind, get in H. rewrite Hd in H. discriminate H.
  - rewrite scan_loop_defined in * by exact Hd. exact H.
  - rewrite scan_loop_unfold in * by exact Hd.
    revert H. apply scan_body_fuel. intros d s1. apply IH.
Qed.

Lemma update_location_prelude_fuel (fuel : nat) (frame_idx : Z)
  (marker_cache : MarkerCache) (camera_model : CameraModel) (s s1 : Surface_Offline) :
  update_location_prelude fuel frame_idx marker_cache camera_model s = Return tt s1 ->
  update_location_prelude (S fuel) frame_idx marker_cache camera_model s = Return tt s1.
Proof.
  unfold update_location_prelude, _build_definition_from_cache, bind, get.
  destruct (defined s); cbn [negb]; [intros H; exact H|].
  destruct (scan_loop fuel camera_model frame_idx marker_cache (start_idx s) s)
    as [[] sa|e sa|] eqn:E; try discriminate.
  rewrite (scan_loop_fuel _ _ _ _ _ _ _ E). intros H; exact H.
Qed.

(** *** Scanning again after a scan that was interrupted

    A scan that returned with the surface still undefined stopped at a
    [False] marker entry; entered again it walks over the frames it has
    already fed into the definition, stops at the same entry and changes
    nothing. *)

Lemma observe_frame_marks (camera_model : CameraModel) (marker_cache : MarkerCache)
  (i : Z) (s s1 : Surface_Offline) :
  observe_frame camera_model marker_cache i s = Return tt s1 ->
  Z_in i (observations_frame_idxs s1) = true.
Proof.
  unfold observe_frame, _update_definition. run.
  destruct (Z_in i (observations_frame_idxs s)) eqn:Hin; run.
  - intros [= <-]. exact Hin.
  - destruct (subscript marker_cache i) as [e|[ms|]]; run; try discriminate.
    intros [= <-].
    cbn [observations_frame_idxs set_base set_observations_frame_idxs].
    rewrite Z_in_snoc, Z.eqb_refl. apply orb_true_r.
Qed.

Lemma observe_frame_seen (camera_model : CameraModel) (marker_cache : MarkerCache)
  (i : Z) (t : Surface_Offline) :
  Z_in i (observations_frame_idxs t) = true ->
  observe_frame camera_model marker_cache i t = Return tt t.
Proof. intros Hin. unfold observe_frame. run. rewrite Hin. reflexivity. Qed.

Lemma scan_progress_observed (s s' : Surface_Offline) (i : Z) :
  scan_progress s s' ->
  Z_in i (observations_frame_idxs s) = true ->
  Z_in i (observations_frame_idxs s') = true.
Proof.
  intros (_ & (added & ->) & _) Hi. unfold Z_in in *.
  rewrite existsb_app, Hi. reflexivity.
Qed.

Lemma closed_is_defined
  (Hprune : forall b, build_up_status (Surface_prune_markers b) = build_up_status b)
  (s : Surface_Offline) :
  defined (set_base Surface_prune_markers (set_base (set_build_up_status 1) s)) = true.
Proof. unfold defined. cbn. rewrite Hprune. reflexivity. Qed.

Lemma scan_loop_else_defined (fuel : nat) (camera_model : CameraModel)
  (frame_idx : Z) (marker_cache : MarkerCache) (def_idx : option Z)
  (s sa : Surface_Offline) :
  defined s = true ->
  scan_loop fuel camera_model frame_idx marker_cache def_idx s = Return tt sa ->
  defined sa = true.
Proof.
  intros Hd. rewrite scan_loop_defined by exact Hd. intros [= <-].
  destruct (on_surface_change s); exact Hd.
Qed.

Lemma scan_loop_again
  (Hprune : forall b, build_up_status (Surface_prune_markers b) = build_up_status b)
  (fuel : nat) (camera_model : CameraModel) (frame_idx : Z)
  (marker_cache : MarkerCache) :
  forall (i : Z) (s sa : Surface_Offline),
    scan_loop fuel camera_model frame_idx marker_cache (Some i) s = Return tt sa ->
    defined sa = false ->
    forall t : Surface_Offline,
      defined t = false ->
      (forall x, Z_in x (observations_frame_idxs sa) = true ->
                 Z_in x (observations_frame_idxs t) = true) ->
      scan_loop fuel camera_model frame_idx marker_cache (Some i) t = Return tt t.
Proof.
  induction fuel as [|fuel IH]; intros i s sa H Hsa t Ht Hobs;
    destruct (defined s) eqn:Hd;
    try (rewrite (scan_loop_else_defined _ _ _ _ _ _ _ Hd H) in Hsa; discriminate Hsa).
  - cbn -[defined] in H. unfold bind, get in H. rewrite Hd in H. discriminate H.
  - rewrite scan_loop_unfold in H by exact Hd. rewrite scan_loop_unfold by exact Ht.
    destruct (wrap_def_idx (Some i) frame_idx marker_cache) as [i'|] eqn:Hw;
      [|unfold wrap_def_idx in Hw;
        destruct (def_idx_at_end (Some i) marker_cache && (frame_idx >? 0));
        discriminate Hw].
    revert H. unfold scan_body, marker_entry_is_False, subscript. run.
    destruct (getitem marker_cache i') as [[ms|]|]; run; try discriminate.
    + destruct (observe_frame camera_model marker_cache i' s) as [[] s1|e s1|] eqn:Ho;
        try discriminate.
      assert (Hin : Z_in i' (observations_frame_idxs s1) = true)
        by (apply (observe_frame_marks _ _ _ _ _ Ho)).
      destruct (i' =? frame_idx - 1).
      * run. intros [= <-]. rewrite (closed_is_defined Hprune) in Hsa. discriminate Hsa.
      * intros H.
        pose proof (scan_loop_keeps_progress fuel camera_model frame_idx marker_cache
                      (i' + 1) s1) as Hprog.
        rewrite H in Hprog. cbn in Hprog.
        rewrite observe_frame_seen
          by (apply Hobs, (scan_progress_observed s1 sa i' Hprog Hin)).
        apply (IH _ _ _ H Hsa t Ht Hobs).
    + intros _. reflexivity.
Qed.

Lemma subscript_below_length {A : Type} (l : list A) (i : Z) (x : A) :
  subscript l i = inr x -> i < Z.of_nat (length l).
Proof.
  intros H. apply subscript_inr in H as (n & Hn & _). revert Hn.
  unfold norm_index.
  destruct ((0 <=? i) && (i <? Z.of_nat (length l))) eqn:E1.
  - intros _. apply andb_true_iff in E1 as [_ E1]. apply Z.ltb_lt in E1. exact E1.
  - destruct ((- Z.of_nat (length l) <=? i) && (i <? 0)) eqn:E2; [|discriminate].
    intros _. apply andb_true_iff in E2 as [_ E2]. apply Z.ltb_lt in E2. lia.
Qed.

(** What [update_location] does before the lookup when it is entered again
    on the object it has just looked at, whatever has been written into the
    cache in between: the bootstrap scan, if it runs, changes nothing, so
    that only the drain is left. The frame at hand has been processed
    upstream. (Pruning is taken not to touch [build_up_status]; this is
    needed for an undefined surface only.) *)
Lemma update_location_prelude_again (fuel : nat) (frame_idx : Z)
  (marker_cache : MarkerCache) (camera_model : CameraModel)
  (s s1 : Surface_Offline) (c : option (list CacheEntry)) (markers : list Marker) :
  defined s1 = true \/
  (forall b, build_up_status (Surface_prune_markers b) = build_up_status b) ->
  update_location_prelude fuel frame_idx marker_cache camera_model s = Return tt s1 ->
  subscript marker_cache frame_idx = inr (Some markers) ->
  update_location_prelude fuel frame_idx marker_cache camera_model
    (set_location_cache c s1) =
  _fetch_from_location_cache_filler (set_location_cache c s1).
Proof.
  intros Hor Hp Hm. destruct (defined s1) eqn:Hd1.
  { apply prelude_defined_without_job. exact Hd1. }
  destruct Hor as [Hor|Hprune]; [discriminate Hor|].
  assert (Hs : defined s = false).
  { destruct (defined s) eqn:Hd; [|reflexivity].
    rewrite prelude_defined_without_job in Hp by exact Hd.
    pose proof (fetch_keeps_definition s) as K. rewrite Hp in K. cbn in K.
    rewrite (definition_kept_defined _ _ K) in Hd1. congruence. }
  unfold update_location_prelude in Hp. unfold bind at 1, get in Hp.
  rewrite Hs in Hp. cbn [negb] in Hp.
  apply bind_Return_inv in Hp as ([] & sa & Hb & Hf).
  pose proof (fetch_keeps_definition sa) as K. rewrite Hf in K. cbn in K.
  destruct K as (_ & _ & Kb & _ & Ko & Ks).
  assert (Hsa : defined sa = false)
    by (unfold defined in *; rewrite <- Kb; exact Hd1).
  set (t := set_location_cache c s1).
  assert (Ht : defined t = false) by exact Hd1.
  assert (Hobs : forall x, Z_in x (observations_frame_idxs sa) = true ->
                           Z_in x (observations_frame_idxs t) = true)
    by (intros x Hx; cbn; rewrite Ko; exact Hx).
  unfold update_location_prelude. unfold bind at 1, get. rewrite Ht. cbn [negb].
  assert (Hb' : _build_definition_from_cache fuel camera_model frame_idx marker_cache t
                = Return tt t); [|unfold bind; rewrite Hb'; reflexivity].
  unfold _build_definition_from_cache, bind, get in *.
  change (start_idx t) with (start_idx s1). rewrite Ks.
  destruct (start_idx s) as [i0|] eqn:Hs0.
  - pose proof (scan_loop_keeps_progress fuel camera_model frame_idx marker_cache i0 s)
      as P. rewrite Hb in P. destruct P as (Pst & _).
    rewrite (Pst i0 Hs0). apply (scan_loop_again Hprune _ _ _ _ _ _ _ Hb Hsa t Ht Hobs).
  - destruct fuel as [|fuel].
    { cbn -[defined] in Hb. unfold bind, get in Hb. rewrite Hs in Hb. discriminate Hb. }
    rewrite scan_loop_unfold in Hb by exact Hs.
    change (wrap_def_idx None frame_idx marker_cache) with (@None Z) in Hb.
    revert Hb. unfold scan_body at 1, marker_entry_is_False. run.
    pose proof (observe_frame_keeps_progress camera_model marker_cache frame_idx
                  (set_start_idx (Some frame_idx) s)) as Po.
    destruct (observe_frame camera_model marker_cache frame_idx
                (set_start_idx (Some frame_idx) s)) as [[] s1'|e s1'|] eqn:Ho;
      try discriminate.
    cbn in Po. destruct Po as (Pst' & _).
    replace (frame_idx =? frame_idx - 1) with false by lia. intros Hb.
    pose proof (scan_loop_keeps_progress fuel camera_model frame_idx marker_cache
                  (frame_idx + 1) s1') as P. rewrite Hb in P. cbn in P.
    assert (Hin : Z_in frame_idx (observations_frame_idxs t) = true)
      by (apply Hobs, (scan_progress_observed s1' sa _ P),
            (observe_frame_marks _ _ _ _ _ Ho)).
    destruct P as (Pst & _).
    rewrite (Pst frame_idx (Pst' frame_idx eq_refl)).
    rewrite scan_loop_unfold by exact Ht.
    rewrite wrap_def_idx_inside
      by (pose proof (subscript_below_length _ _ _ Hm); lia).
    unfold scan_body, marker_entry_is_False. run. rewrite Hm. run.
    rewrite (observe_frame_seen _ _ _ _ Hin).
    replace (frame_idx =? frame_idx - 1) with false by lia.
    apply (scan_loop_again Hprune _ _ _ _ _ _ _ Hb Hsa t Ht Hobs).
Qed.

(** Claim C5, as amended: when [update_location] reaches the lookup and
    the cache entry of [frame_idx] is [False]:

    - if the marker cache has nothing for the frame either, the call
      returns with the surface not detected, without transformation and
      without marker, and leaves the cache, the task and everything else
      as they were;
    - if the marker cache has the frame, its location is computed on the
      spot (NotDetected for a frame without markers, [Surface.locate] for a
      frame with markers), force-written into the cache, and the whole of
      [update_location] is entered again, drain included. The call then
      adopts what the cache holds for [frame_idx] after that second drain:
      without a live task the computed location; with a live task (one
      that goes on running, or completes while a subscriber is set), the
      computed location when the task delivers no result for the frame at
      that poll, and otherwise the last result the task delivers for the
      frame, which has overwritten the computed one.

    [fuel] is what the bootstrap scan needs before the lookup. On a
    surface that is still undefined the scan runs again at the re-entry
    and changes nothing; for this pruning is taken not to touch
    [build_up_status]. *)
Theorem update_location_on_unknown_entry (fuel : nat) (frame_idx : Z)
  (marker_cache : MarkerCache) (camera_model : CameraModel)
  (s s1 : Surface_Offline) (cache : list CacheEntry) (n : nat) :
  update_location_prelude fuel frame_idx marker_cache camera_model s = Return tt s1 ->
  location_cache s1 = Some cache ->
  norm_index (length cache) frame_idx = Some n ->
  cache !! n = Some None ->
  (subscript marker_cache frame_idx = inr None ->
   exists s',
     update_location (S (S fuel)) frame_idx marker_cache camera_model s = Return tt s' /\
     s' = set_base (adopt_location Surface_Location_not_detected) s1 /\
     detected (base s') = false /\
     dist_img_to_surf_trans (base s') = None /\
     surf_to_dist_img_trans (base s') = None /\
     img_to_surf_trans (base s') = None /\
     surf_to_img_trans (base s') = None /\
     num_detected_markers (base s') = 0 /\
     location_cache s' = Some cache /\
     location_cache_filler s' = location_cache_filler s1 /\
     effects s' = effects s1) /\
  (forall markers : list Marker,
     subscript marker_cache frame_idx = inr (Some markers) ->
     let location := locate_entry (Some markers) camera_model (base s1) in
     let s3 := set_location_cache (Some (<[n:=Some location]> cache)) s1 in
     (markers <> [] ->
      location = Surface_locate (markers_by_id markers) camera_model
                   (registered_markers_undist (base s1))
                   (registered_markers_dist (base s1))) /\
     (markers = [] -> location = Surface_Location_not_detected) /\
     update_location (S (S fuel)) frame_idx marker_cache camera_model s =
     update_location (S fuel) frame_idx marker_cache camera_model s3 /\
     (defined s1 = true \/
      (forall b, build_up_status (Surface_prune_markers b) = build_up_status b) ->
      (location_cache_filler s1 = None ->
       exists s',
         update_location (S (S fuel)) frame_idx marker_cache camera_model s =
         Return tt s' /\
         s' = set_base (adopt_location location) s3 /\
         detected (base s') = loc_detected location /\
         dist_img_to_surf_trans (base s') = loc_dist_img_to_surf_trans location /\
         surf_to_dist_img_trans (base s') = loc_surf_to_dist_img_trans location /\
         img_to_surf_trans (base s') = loc_img_to_surf_trans location /\
         surf_to_img_trans (base s') = loc_surf_to_img_trans location /\
         num_detected_markers (base s') = loc_num_detected_markers location /\
         location_cache s' = Some (<[n:=Some location]> cache) /\
         location_cache_filler s' = None /\
         effects s' = effects s1) /\
      (forall (j j' : Job) (results : list (Z * Surface_Location)),
         location_cache_filler s1 = Some j ->
         job_fetch j = (results, j') ->
         (job_completed j' = true -> on_surface_change s1 <> None) ->
         (forall r, In r results -> 0 <= fst r < Z.of_nat (length cache)) ->
         exists s' cache' adopted,
           update_location (S (S fuel)) frame_idx marker_cache camera_model s =
           Return tt s' /\
           location_cache s' = Some cache' /\
           length cache' = length cache /\
           cache' !! n = Some (Some adopted) /\
           location_cache_filler s' =
           (if job_completed j' then None else Some j') /\
           effects s' =
           effects s1 ++
           (if job_completed j' then
              match on_surface_change s1 with
              | Some cb => [SurfaceChanged cb]
              | None => []
              end
            else []) /\
           detected (base s') = loc_detected adopted /\
           dist_img_to_surf_trans (base s') = loc_dist_img_to_surf_trans adopted /\
           surf_to_dist_img_trans (base s') = loc_surf_to_dist_img_trans adopted /\
           img_to_surf_trans (base s') = loc_img_to_surf_trans adopted /\
           surf_to_img_trans (base s') = loc_surf_to_img_trans adopted /\
           num_detected_markers (base s') = loc_num_detected_markers adopted /\
           ((forall r, In r results -> Z.to_nat (fst r) <> n) -> adopted = location) /\
           (forall rs1 idx loc rs2,
              results = rs1 ++ (idx, loc) :: rs2 ->
              Z.to_nat idx = n ->
              (forall r, In r rs2 -> fst r <> idx) ->
              adopted = loc)))).
Proof.
  intros Hp Hc Hn Hl.
  pose proof (update_location_prelude_fuel _ _ _ _ _ _ Hp) as Hp'.
  assert (Hsub : subscript cache frame_idx = inr None) by (apply subscript_inr; eauto).
  assert (Hlt : (n < length cache)%nat) by (apply (norm_index_lt _ _ _ Hn)).
  split.
  - intros Hm. eexists. split.
    { apply (update_location_pending _ _ _ _ _ _ cache Hp' Hc Hsub Hm). }
    split; [reflexivity|]. cbn. repeat split. exact Hc.
  - intros markers Hm location s3.
    pose proof (update_location_on_demand _ _ _ _ _ _ _ _ _ Hp' Hc Hn Hl Hm) as Hgo.
    fold location in Hgo. fold s3 in Hgo.
    split; [|split; [|split; [exact Hgo|]]].
    + intros Hne. unfold location, locate_entry.
      destruct markers; [congruence | reflexivity].
    + intros ->. reflexivity.
    + intros Hor.
      pose proof (update_location_prelude_again fuel frame_idx marker_cache camera_model
                    s s1 (Some (<[n:=Some location]> cache)) markers Hor Hp Hm)
        as Hagain.
      fold s3 in Hagain.
      assert (Hwritten : (<[n:=Some location]> cache) !! n = Some (Some location))
        by (apply list_lookup_insert_eq; exact Hlt).
      split.
      * intros Hf.
        exists (set_base (adopt_location location) s3). split.
        { rewrite Hgo.
          apply (update_location_resolved _ _ _ _ _ _ (<[n:=Some location]> cache)).
          - rewrite Hagain. apply fetch_without_job. exact Hf.
          - reflexivity.
          - apply subscript_inr. exists n. split; [|exact Hwritten].
            rewrite length_insert. exact Hn. }
        split; [reflexivity|]. cbn. repeat split. exact Hf.
      * intros j j' results Hf Hj Hdone Hin.
        destruct (fetch_loop_merges results (<[n:=Some location]> cache)
                    (set_location_cache_filler (Some j') s3))
          as (cache' & Hrun & Hlen & Hout & Hlast);
          [reflexivity | intros r Hr; rewrite length_insert; apply Hin; exact Hr |].
        rewrite length_insert in Hlen.
        assert (Hfetch : exists s4,
          _fetch_from_location_cache_filler s3 = Return tt s4 /\
          base s4 = base s1 /\
          location_cache s4 = Some cache' /\
          location_cache_filler s4 = (if job_completed j' then None else Some j') /\
          effects s4 =
          effects s1 ++
          (if job_completed j' then
             match on_surface_change s1 with
             | Some cb => [SurfaceChanged cb]
             | None => []
             end
           else [])).
        { unfold _fetch_from_location_cache_filler. run.
          change (location_cache_filler s3) with (location_cache_filler s1).
          rewrite Hf, Hj. run. rewrite Hrun. run.
          destruct (job_completed j') eqn:Hc'.
          - unfold call_on_surface_change. run.
            destruct (on_surface_change s1) as [cb|] eqn:Hcb;
              [|exfalso; apply (Hdone eq_refl); reflexivity].
            eexists. split; [reflexivity|]. repeat split.
          - eexists. split; [reflexivity|]. repeat split.
            cbn. symmetry. apply app_nil_r. }
        destruct Hfetch as (s4 & Hfetch & Hb4 & Hc4 & Hf4 & He4).
        assert (Hres : exists adopted, cache' !! n = Some (Some adopted)).
        { pose proof (fetch_loop_keeps_shape results
                        (set_location_cache_filler (Some j') s3)) as K.
          rewrite Hrun in K. cbn in K.
          destruct K as (c'' & Hc'' & _ & Hkeep). injection Hc'' as <-.
          apply (Hkeep n location Hwritten). }
        destruct Hres as (adopted & Hadopted).
        exists (set_base (adopt_location adopted) s4), cache', adopted.
        split.
        { rewrite Hgo. apply (update_location_resolved _ _ _ _ _ _ cache').
          - rewrite Hagain. exact Hfetch.
          - exact Hc4.
          - apply subscript_inr. exists n. split; [|exact Hadopted].
            rewrite Hlen. exact Hn. }
        split; [exact Hc4|]. split; [exact Hlen|]. split; [exact Hadopted|].
        split; [exact Hf4|]. split; [exact He4|].
        cbn. repeat (split; [reflexivity|]). split.
        -- intros Hnone. pose proof (Hout n Hnone) as E1.
           assert (E2 : Some (Some adopted) = Some (Some location))
             by (etransitivity; [symmetry; exact Hadopted|];
                 etransitivity; [exact E1 | exact Hwritten]).
           injection E2 as ->. reflexivity.
        -- intros rs1 idx loc rs2 E Hidx Hrest.
           pose proof (Hlast rs1 idx loc rs2 E Hrest) as E1.
           assert (E2 : Some (Some adopted) = Some (Some loc))
             by (etransitivity; [symmetry; exact Hadopted|];
                 rewrite <- Hidx; exact E1).
           injection E2 as ->. reflexivity.
Qed.

End Reentry.

(** ** A full pass of the scan on a recording that feeds the definition *)

Section FullPass.

Context {ext : External} {col : Collaborators}.

Variable camera_model : CameraModel.
Variable frame_idx : Z.
Variable marker_cache : MarkerCache.

(** Every frame of the recording has been processed upstream. *)
Hypothesis every_frame_known :
  forall n : nat, (n < length marker_cache)%nat ->
    exists ms, marker_cache !! n = Some (Some ms).

Lemma feed_frames_app (p q : list Z) (b : Surface) :
  feed_frames camera_model marker_cache (p ++ q) b =
  feed_frames camera_model marker_cache q (feed_frames camera_model marker_cache p b).
Proof. apply fold_left_app. Qed.

Lemma seqZ_front (i : Z) (m : nat) :
  seqZ i (Z.of_nat (S m)) = i :: seqZ (i + 1) (Z.of_nat m).
Proof.
  rewrite seqZ_cons by lia. f_equal. f_equal; lia.
Qed.

Lemma take_seqZ (a len : Z) (m : nat) :
  Z.of_nat m <= len -> take m (seqZ a len) = seqZ a (Z.of_nat m).
Proof.
  intros Hm. replace len with (Z.of_nat m + (len - Z.of_nat m)) by lia.
  rewrite seqZ_app by lia. apply take_app_length'.
  rewrite length_seqZ. lia.
Qed.

Lemma Z_in_seqZ (x a len : Z) : Z_in x (seqZ a len) = true <-> a <= x < a + len.
Proof. rewrite Z_in_elem_of. apply elem_of_seqZ. Qed.

Lemma Z_in_app (x : Z) (p q : list Z) : Z_in x (p ++ q) = Z_in x p || Z_in x q.
Proof. unfold Z_in. apply existsb_app. Qed.

Lemma Z_in_false (x : Z) (l : list Z) : ~ Z_in x l = true -> Z_in x l = false.
Proof. destruct (Z_in x l); [intros H; exfalso; apply H; reflexivity | reflexivity]. Qed.

(** A frame that has not contributed yet is fed into the definition. *)
Lemma observe_new_frame (i : Z) (s : Surface_Offline) :
  0 <= i < Z.of_nat (length marker_cache) ->
  Z_in i (observations_frame_idxs s) = false ->
  observe_frame camera_model marker_cache i s =
  Return tt (set_base (feed_frames camera_model marker_cache [i])
               (set_observations_frame_idxs (observations_frame_idxs s ++ [i]) s)).
Proof.
  intros Hi Hin.
  destruct (known_frame marker_cache every_frame_known i Hi) as (ms & Hms & Hsub).
  unfold observe_frame, _update_definition. run. rewrite Hin. run. rewrite Hsub. run.
  unfold feed_frames, frame_markers. cbn. rewrite Hms. reflexivity.
Qed.

(** The scan over [k] consecutive frames from [i] on, none of which is the
    frame before [frame_idx]; [p] are the frames fed so far, [b0] is the
    definition the scan started with. *)
Lemma scan_run (b0 : Surface) (k : nat) :
  forall (fuel : nat) (i : Z) (p : list Z) (s : Surface_Offline),
    0 <= i ->
    i + Z.of_nat k <= Z.of_nat (length marker_cache) ->
    (forall x, i <= x < i + Z.of_nat k -> x <> frame_idx - 1) ->
    (forall x, i <= x < i + Z.of_nat k -> Z_in x p = false) ->
    (forall m, (m < k)%nat ->
       Qle_bool 1 (build_up_status
                     (feed_frames camera_model marker_cache
                        (p ++ seqZ i (Z.of_nat m)) b0)) = false) ->
    base s = feed_frames camera_model marker_cache p b0 ->
    observations_frame_idxs s = p ->
    exists s',
      scan_loop (k + fuel) camera_model frame_idx marker_cache (Some i) s =
      scan_loop fuel camera_model frame_idx marker_cache (Some (i + Z.of_nat k)) s' /\
      base s' = feed_frames camera_model marker_cache (p ++ seqZ i (Z.of_nat k)) b0 /\
      observations_frame_idxs s' = p ++ seqZ i (Z.of_nat k) /\
      start_idx s' = start_idx s /\
      location_cache s' = location_cache s /\
      location_cache_filler s' = location_cache_filler s /\
      on_surface_change s' = on_surface_change s /\
      cache_seek_idx s' = cache_seek_idx s /\
      effects s' = effects s.
Proof.
  induction k as [|k IH]; intros fuel i p s Hi Hk Hclose Hnew Hpend Hb Ho.
  - exists s. cbn [Nat.add Z.of_nat]. rewrite Z.add_0_r.
    change (seqZ i 0) with (@nil Z). rewrite app_nil_r.
    repeat split; assumption.
  - assert (Hd : defined s = false).
    { unfold defined. rewrite Hb. specialize (Hpend 0%nat ltac:(lia)).
      change (seqZ i (Z.of_nat 0)) with (@nil Z) in Hpend.
      rewrite app_nil_r in Hpend. exact Hpend. }
    assert (Hin : 0 <= i < Z.of_nat (length marker_cache)) by lia.
    destruct (known_frame marker_cache every_frame_known i Hin) as (ms & Hms & Hsub).
    pose (s1 := set_base (feed_frames camera_model marker_cache [i])
                  (set_observations_frame_idxs (observations_frame_idxs s ++ [i]) s)).
    destruct (IH fuel (i + 1) (p ++ [i]) s1) as (s' & Hrun & Hb' & Ho' & Hrest).
    + lia.
    + lia.
    + intros x Hx. apply Hclose. lia.
    + intros x Hx. rewrite Z_in_snoc, (Hnew x) by lia.
      cbn. apply Z.eqb_neq. lia.
    + intros m Hm. rewrite <- app_assoc. cbn [app].
      rewrite <- seqZ_front. apply Hpend. lia.
    + cbn. rewrite Hb, feed_frames_app. reflexivity.
    + cbn. rewrite Ho. reflexivity.
    + exists s'. split.
      * cbn [Nat.add]. rewrite scan_loop_unfold by exact Hd.
        rewrite wrap_def_idx_inside by lia.
        unfold scan_body, marker_entry_is_False. run. rewrite Hsub. run.
        rewrite observe_new_frame; [|exact Hin|rewrite Ho; apply Hnew; lia].
        replace (i =? frame_idx - 1) with false
          by (symmetry; apply Z.eqb_neq, Hclose; lia).
        fold s1. rewrite Hrun. do 2 f_equal. lia.
      * rewrite seqZ_front, Hb', Ho', <- !app_assoc. cbn [app].
        split; [reflexivity|]. split; [reflexivity|]. exact Hrest.
Qed.

Lemma take_full_pass_front (m : nat) :
  0 <= frame_idx ->
  Z.of_nat m <= Z.of_nat (length marker_cache) - frame_idx ->
  take m (full_pass frame_idx (length marker_cache)) = seqZ frame_idx (Z.of_nat m).
Proof.
  intros Hf Hm. unfold full_pass.
  rewrite take_app_le by (rewrite length_seqZ; lia).
  apply take_seqZ. exact Hm.
Qed.

Lemma take_full_pass_wrapped (m : nat) :
  0 <= frame_idx <= Z.of_nat (length marker_cache) ->
  Z.of_nat m <= frame_idx ->
  take (Z.to_nat (Z.of_nat (length marker_cache) - frame_idx) + m)
    (full_pass frame_idx (length marker_cache)) =
  seqZ frame_idx (Z.of_nat (length marker_cache) - frame_idx) ++ seqZ 0 (Z.of_nat m).
Proof.
  intros Hf Hm. unfold full_pass.
  rewrite take_app_add' by (rewrite length_seqZ; reflexivity).
  rewrite take_seqZ by exact Hm. reflexivity.
Qed.

(** Extra X14: on a recording whose frames have all been processed
    upstream, the scan of a fresh surface (no start, no observations) that
    starts at a frame other than 0 visits the frames from [frame_idx] to the
    end and from 0 to [frame_idx - 1], feeding each into the definition.
    Provided the definition is not complete before any of these visits,
    the loop is closed after the visit of [frame_idx - 1]: the build-up
    status of the definition fed with every frame is set to 1 and the
    markers are pruned, every frame is in the observations, in the order
    of the visits, and the cache, the task and the subscriber are left
    alone. *)
Theorem scan_closes_after_full_pass (fuel : nat) (s : Surface_Offline) :
  0 < frame_idx < Z.of_nat (length marker_cache) ->
  start_idx s = None ->
  observations_frame_idxs s = [] ->
  (forall k, (k < length marker_cache)%nat ->
     Qle_bool 1 (build_up_status
                   (feed_frames camera_model marker_cache
                      (take k (full_pass frame_idx (length marker_cache)))
                      (base s))) = false) ->
  exists s',
    _build_definition_from_cache (length marker_cache + fuel) camera_model
      frame_idx marker_cache s = Return tt s' /\
    base s' =
    Surface_prune_markers
      (set_build_up_status 1
         (feed_frames camera_model marker_cache
            (full_pass frame_idx (length marker_cache)) (base s))) /\
    observations_frame_idxs s' = full_pass frame_idx (length marker_cache) /\
    start_idx s' = Some frame_idx /\
    location_cache s' = location_cache s /\
    location_cache_filler s' = location_cache_filler s /\
    on_surface_change s' = on_surface_change s /\
    cache_seek_idx s' = cache_seek_idx s /\
    effects s' = effects s.
Proof.
  intros Hf Hstart Hobs Hpend.
  set (b0 := base s).
  set (k2 := (length marker_cache - Z.to_nat frame_idx - 1)%nat).
  set (k3 := (Z.to_nat frame_idx - 1)%nat).
  set (p := seqZ frame_idx (Z.of_nat (length marker_cache) - frame_idx)).
  assert (Hd : defined s = false) by (apply (Hpend 0%nat); lia).
  assert (Hp : [frame_idx] ++ seqZ (frame_idx + 1) (Z.of_nat k2) = p).
  { unfold p. replace (Z.of_nat (length marker_cache) - frame_idx) with (Z.of_nat (S k2)) by lia.
    rewrite seqZ_front. reflexivity. }
  unfold _build_definition_from_cache. run. rewrite Hstart.
  replace (length marker_cache + fuel)%nat with (S (k2 + (k3 + S fuel))) by lia.
  (* the first iteration sets the start and feeds [frame_idx] *)
  rewrite scan_loop_unfold by exact Hd.
  change (wrap_def_idx None frame_idx marker_cache) with (@None Z).
  unfold scan_body at 1, marker_entry_is_False. run.
  rewrite observe_new_frame; [|lia|cbn; rewrite Hobs; reflexivity].
  replace (frame_idx =? frame_idx - 1) with false by lia.
  cbn [observations_frame_idxs set_start_idx]. rewrite Hobs. cbn [app].
  set (s1 := set_base (feed_frames camera_model marker_cache [frame_idx])
               (set_observations_frame_idxs [frame_idx]
                  (set_start_idx (Some frame_idx) s))).
  (* up to the last frame *)
  destruct (scan_run b0 k2 (k3 + S fuel) (frame_idx + 1) [frame_idx] s1)
    as (s2 & Hrun2 & Hb2 & Ho2 & Hs2 & Hc2 & Hj2 & Hcb2 & Hk2 & He2).
  { lia. }
  { lia. }
  { intros x Hx. lia. }
  { intros x Hx. cbn. rewrite orb_false_r. apply Z.eqb_neq. lia. }
  { intros m Hm. cbn [app]. rewrite <- seqZ_front.
    rewrite <- take_full_pass_front by lia. apply Hpend. lia. }
  { reflexivity. }
  { reflexivity. }
  rewrite Hrun2. rewrite Hp in Hb2, Ho2.
  replace (frame_idx + 1 + Z.of_nat k2) with (Z.of_nat (length marker_cache)) by lia.
  assert (Hd2 : defined s2 = false).
  { unfold defined. rewrite Hb2. unfold p.
    replace (Z.of_nat (length marker_cache) - frame_idx)
      with (Z.of_nat (Z.to_nat (Z.of_nat (length marker_cache) - frame_idx))) by lia.
    rewrite <- take_full_pass_front by lia. apply Hpend. lia. }
  (* the wrap-around *)
  assert (Hwrap :
    scan_loop (k3 + S fuel) camera_model frame_idx marker_cache
      (Some (Z.of_nat (length marker_cache))) s2 =
    scan_loop (k3 + S fuel) camera_model frame_idx marker_cache (Some 0) s2).
  { replace (k3 + S fuel)%nat with (S (k3 + fuel)) by lia.
    rewrite !scan_loop_unfold by exact Hd2.
    rewrite wrap_def_idx_at_end by lia.
    rewrite wrap_def_idx_inside by lia. reflexivity. }
  rewrite Hwrap.
  (* from frame 0 to the frame before [frame_idx - 1] *)
  destruct (scan_run b0 k3 (S fuel) 0 p s2)
    as (s3 & Hrun3 & Hb3 & Ho3 & Hs3 & Hc3 & Hj3 & Hcb3 & Hk3 & He3).
  { lia. }
  { lia. }
  { intros x Hx. lia. }
  { intros x Hx. apply Z_in_false. unfold p. rewrite Z_in_seqZ. lia. }
  { intros m Hm. unfold p. rewrite <- take_full_pass_wrapped by lia.
    apply Hpend. lia. }
  { exact Hb2. }
  { exact Ho2. }
  rewrite Hrun3.
  replace (0 + Z.of_nat k3) with (frame_idx - 1) by lia.
  assert (Hd3 : defined s3 = false).
  { unfold defined. rewrite Hb3. unfold p.
    rewrite <- take_full_pass_wrapped by lia. apply Hpend. lia. }
  (* the frame before [frame_idx] closes the loop *)
  rewrite scan_loop_unfold by exact Hd3.
  rewrite wrap_def_idx_inside by lia.
  destruct (known_frame marker_cache every_frame_known (frame_idx - 1))
    as (ms & Hms & Hsub); [lia|].
  unfold scan_body, marker_entry_is_False. run. rewrite Hsub. run.
  rewrite observe_new_frame;
    [|lia|rewrite Ho3, Z_in_app; apply orb_false_iff; split; apply Z_in_false;
          unfold p; rewrite Z_in_seqZ; lia].
  rewrite Z.eqb_refl. run.
  assert (Hpath : (p ++ seqZ 0 (Z.of_nat k3)) ++ [frame_idx - 1] =
                  full_pass frame_idx (length marker_cache)).
  { unfold full_pass, p. rewrite <- app_assoc. f_equal.
    transitivity (seqZ 0 (Z.of_nat (S k3))); [|f_equal; lia].
    rewrite seqZ_S. do 2 f_equal. lia. }
  eexists. split; [reflexivity|].
  cbn [base set_base observations_frame_idxs set_observations_frame_idxs
       start_idx location_cache location_cache_filler on_surface_change
       cache_seek_idx effects].
  rewrite Hb3, Ho3, <- feed_frames_app, Hpath.
  unfold s1 in Hs2, Hc2, Hj2, Hcb2, Hk2, He2.
  cbn [set_base set_observations_frame_idxs set_start_idx
       start_idx location_cache location_cache_filler on_surface_change
       cache_seek_idx effects] in Hs2, Hc2, Hj2, Hcb2, Hk2, He2.
  repeat split; congruence.
Qed.

End FullPass.


(** ** Runs on the concrete recording *)

Import Scenario.

(** Claim C1 fails on the code: [update_location] lets exceptions escape.
    On [finishing] the task reports completion while no subscriber is set,
    and calling [None] raises TypeError; on [invalidated] the drain loop
    leaves through [break] after dropping the handle, and reading
    [completed] from [None] raises AttributeError; on a fresh surface at
    frame 0 the scan runs past the end of a recording without markers and
    raises IndexError; on a fresh surface whose current frame has not been
    processed the scan iterates over [False] and raises TypeError. *)
Theorem update_location_raises_to_caller :
  (exists s', update_location 2 0 (empty_frames 2) tt finishing = Raise TypeError s' /\
              location_cache_filler s' = None) /\
  (exists s', update_location 2 0 (empty_frames 1) tt invalidated = Raise AttributeError s' /\
              location_cache_filler s' = None) /\
  (exists s', update_location 4 0 (empty_frames 2) tt (fresh 0) = Raise IndexError s') /\
  (exists s', update_location 4 0 (unknown_frames 2) tt (fresh 0) = Raise TypeError s').
Proof.
  repeat split; eexists; try split; vm_compute; reflexivity.
Qed.

(** The closing test on the concrete recording: a scan that starts at
    frame 1 is closed after the wrap-around; the test compares with the
    current [frame_idx], not with [start_idx], so a scan begun at frame 0 in
    an earlier call is closed at [frame_idx - 1] with two of four frames
    visited. *)
Lemma scan_closing_test_runs :
  (exists s',
     _build_definition_from_cache 3 tt 1 (empty_frames 2) (fresh 0) = Return tt s' /\
     start_idx s' = Some 1 /\
     observations_frame_idxs s' = [1; 0] /\
     defined s' = true) /\
  (exists s',
     _build_definition_from_cache 3 tt 2 (empty_frames 4)
       (set_start_idx (Some 0) (fresh 0)) = Return tt s' /\
     observations_frame_idxs s' = [0; 1] /\
     defined s' = true).
Proof.
  repeat split; eexists; repeat split; vm_compute; reflexivity.
Qed.

(** Against claim C3 as stated: the scan meets a [False] entry at frame 1,
    and afterwards the provisional cache is still there and the subscriber
    has not been called. *)
Lemma scan_abort_keeps_cache_and_is_silent :
  defined provisional = false /\
  on_surface_change provisional = Some tt /\
  subscript (empty_frames 1 ++ unknown_frames 1) 1 = inr None /\
  exists s',
    _build_definition_from_cache 3 tt 0 (empty_frames 1 ++ unknown_frames 1) provisional = Return tt s' /\
    defined s' = false /\
    location_cache s' = Some [Some seen; None] /\
    effects s' = [].
Proof.
  repeat split. eexists. repeat split; vm_compute; reflexivity.
Qed.

(** Against claim C4 as stated: the lookup finds the cache absent, and the
    call reports Detected and leaves a resolved entry in the cache. *)
Lemma absent_cache_lookup_reports_detected :
  location_cache (fresh 1) = None /\
  exists s',
    update_location 3 0 (marker_frames 1) tt (fresh 1) = Return tt s' /\
    detected (base s') = true /\
    location_cache s' = Some [Some seen].
Proof.
  split; [reflexivity|]. eexists. repeat split; vm_compute; reflexivity.
Qed.

(** Against claim C5 as stated: the cache entry of frame 1 is [False] and
    the marker cache has the frame; the location computed on the spot is
    Detected and is written into the cache, but at the re-entry the
    background task delivers NotDetected for the same frame, and the call
    returns with the surface not detected and NotDetected in the cache. *)
Lemma on_demand_location_overwritten_by_task :
  location_cache racing = Some [Some seen; None] /\
  subscript (marker_frames 2) 1 = inr (Some [7]) /\
  locate_entry (Some [7]) tt (base racing) = seen /\
  loc_detected seen = true /\
  exists s',
    update_location 2 1 (marker_frames 2) tt racing = Return tt s' /\
    detected (base s') = false /\
    img_to_surf_trans (base s') = None /\
    location_cache s' = Some [Some seen; Some Surface_Location_not_detected].
Proof.
  repeat split. eexists. repeat split; vm_compute; reflexivity.
Qed.

(** Against claim C6 as stated: a background task is live, and after
    [move_corner] it still is and nothing has been cancelled. *)
Lemma move_corner_leaves_job_running :
  exists j s',
    location_cache_filler editing = Some j /\
    move_corner 0 (marker_frames 2) 0 (0, 0) tt editing = Return tt s' /\
    location_cache_filler s' = Some j /\
    effects s' = [].
Proof.
  eexists _, _. repeat split; vm_compute; reflexivity.
Qed.


(** *** The theorems at concrete inputs *)

Lemma scan_aborts_on_unknown_marker_entry_witness :
  defined provisional = false /\
  scan_loop 1 tt 0 (empty_frames 1 ++ unknown_frames 1) (Some 1) provisional
    = Return tt provisional.
Proof.
  split; [reflexivity|].
  exact (proj1 (scan_aborts_on_unknown_marker_entry 0 tt 0
                  (empty_frames 1 ++ unknown_frames 1) (Some 1) 1 provisional
                  eq_refl eq_refl eq_refl)).
Defined.

Lemma update_location_on_absent_cache_witness :
  update_location_prelude 1 0 (marker_frames 1) tt (fresh 1) = Return tt (fresh 1) /\
  location_cache (fresh 1) = None /\
  - 2 ^ 31 <= 0 < 2 ^ 31 /\
  exists s2 j s',
    _recalculate_location_cache 0 (marker_frames 1) tt (fresh 1) = Return tt s2 /\
    location_cache_filler s2 = Some j /\
    cache_seek_idx s2 = 0 /\
    effects s2 = [JobStarted j] /\
    update_location 2 0 (marker_frames 1) tt (fresh 1) = Return tt s' /\
    detected (base s') = true /\
    dist_img_to_surf_trans (base s') = Some 1 /\
    surf_to_dist_img_trans (base s') = Some 2 /\
    img_to_surf_trans (base s') = Some 3 /\
    surf_to_img_trans (base s') = Some 4 /\
    num_detected_markers (base s') = 1 /\
    location_cache s' = Some [Some seen].
Proof.
  assert (Hr : - 2 ^ 31 <= 0 < 2 ^ 31) by lia.
  split; [reflexivity|]. split; [reflexivity|]. split; [exact Hr|].
  destruct (update_location_on_absent_cache 0 0 (marker_frames 1) tt (fresh 1) (fresh 1)
              eq_refl eq_refl Hr)
    as (s2 & j & Hrec & Hj & _ & Hseek & Hf & Heff & _ & Hdemand & _).
  destruct (Hdemand [7] 0%nat eq_refl eq_refl) as (_ & _ & _ & Hadopt).
  assert (Hdef : defined (fresh 1) = true) by reflexivity.
  assert (Hfetch : job_fetch j = ([], j)) by (rewrite Hj; reflexivity).
  assert (Hdone : job_completed j = false) by (rewrite Hj; reflexivity).
  destruct (Hadopt j Hdef Hfetch Hdone)
    as (s' & Hrun & _ & Hd & Hm1 & Hm2 & Hm3 & Hm4 & Hnum & Hc & _).
  exists s2, j, s'. repeat (split; [assumption|]).
  repeat (split; [assumption|]). exact Hc.
Defined.

Lemma update_location_on_unknown_entry_witness :
  update_location_prelude 0 1 (marker_frames 2) tt half_filled = Return tt half_filled /\
  location_cache half_filled = Some [Some seen; None] /\
  norm_index 2 1 = Some 1%nat /\
  (exists s',
     update_location 2 1 (marker_frames 2) tt half_filled = Return tt s' /\
     location_cache s' = Some [Some seen; Some seen] /\
     detected (base s') = true /\
     dist_img_to_surf_trans (base s') = Some 1 /\
     surf_to_dist_img_trans (base s') = Some 2 /\
     img_to_surf_trans (base s') = Some 3 /\
     surf_to_img_trans (base s') = Some 4 /\
     num_detected_markers (base s') = 1) /\
  (exists s',
     update_location 2 1 (marker_frames 2) tt racing = Return tt s' /\
     location_cache s' = Some [Some seen; Some Surface_Location_not_detected] /\
     detected (base s') = false /\
     img_to_surf_trans (base s') = None) /\
  defined bootstrapping = false /\
  (exists s',
     update_location 4 0 (marker_frames 1 ++ unknown_frames 1) tt bootstrapping
     = Return tt s' /\
     location_cache s' = Some [Some seen; None] /\
     detected (base s') = true /\
     img_to_surf_trans (base s') = Some 3 /\
     defined s' = false).
Proof.
  split; [reflexivity|]. split; [reflexivity|]. split; [reflexivity|].
  split; [|split; [|split; [reflexivity|]]].
  - destruct (update_location_on_unknown_entry 0 1 (marker_frames 2) tt
                half_filled half_filled [Some seen; None] 1
                eq_refl eq_refl eq_refl eq_refl) as [_ Hdemand].
    destruct (Hdemand [7] eq_refl) as (_ & _ & _ & Hadopt).
    assert (Hdef : defined half_filled = true) by reflexivity.
    destruct (proj1 (Hadopt (or_introl Hdef)) eq_refl)
      as (s' & Hrun & _ & Hd & Hm1 & Hm2 & Hm3 & Hm4 & Hnum & Hc & _).
    exists s'. repeat (split; [assumption|]). exact Hnum.
  - destruct (update_location_on_unknown_entry 0 1 (marker_frames 2) tt
                racing
                (set_location_cache_filler
                   (Some (Build_Job [([(1, Surface_Location_not_detected)], false)]
                            false)) racing)
                [Some seen; None] 1
                eq_refl eq_refl eq_refl eq_refl) as [_ Hdemand].
    destruct (Hdemand [7] eq_refl) as (_ & _ & _ & Hadopt).
    assert (Hdef : defined racing = true) by reflexivity.
    destruct (proj2 (Hadopt (or_introl Hdef))
                (Build_Job [([(1, Surface_Location_not_detected)], false)] false)
                (Build_Job [] false)
                [(1, Surface_Location_not_detected)]
                eq_refl eq_refl)
      as (s' & cache' & adopted & Hrun & Hc & _ & _ & _ & _ &
          Hd & _ & _ & Hm3 & _ & _ & _ & Hlast).
    { intros Hdone. discriminate Hdone. }
    { intros r [<-|[]]; cbn; lia. }
    rewrite (Hlast [] 1 Surface_Location_not_detected [] eq_refl eq_refl) in Hd, Hm3
      by (intros r []).
    exists s'. split; [exact Hrun|]. split; [|split; [exact Hd | exact Hm3]].
    vm_compute in Hrun. injection Hrun as <-. reflexivity.
  - destruct (update_location_on_unknown_entry 2 0
                (marker_frames 1 ++ unknown_frames 1) tt
                bootstrapping bootstrapping [None; None] 0
                eq_refl eq_refl eq_refl eq_refl) as [_ Hdemand].
    destruct (Hdemand [7] eq_refl) as (_ & _ & _ & Hadopt).
    assert (Hprune : forall b : Surface,
              build_up_status (Surface_prune_markers b) = build_up_status b)
      by reflexivity.
    destruct (proj1 (Hadopt (or_intror Hprune)) eq_refl)
      as (s' & Hrun & Hs' & Hd & _ & _ & Hm3 & _ & _ & Hc & _).
    exists s'. split; [exact Hrun|]. split; [exact Hc|].
    split; [exact Hd|]. split; [exact Hm3|]. rewrite Hs'. reflexivity.
Defined.


Lemma move_corner_resets_and_resolves_one_witness :
  0 <= 0 < Z.of_nat (length (marker_frames 2)) /\
  exists s' cache',
    move_corner 0 (marker_frames 2) 0 (0, 0) tt editing = Return tt s' /\
    location_cache_filler s' = location_cache_filler editing /\
    location_cache s' = Some cache' /\
    length cache' = 2%nat.
Proof.
  assert (Hi : 0 <= 0 < Z.of_nat (length (marker_frames 2))) by (cbn; lia).
  split; [exact Hi|].
  destruct (move_corner_resets_and_resolves_one 0 (marker_frames 2) 0 (0, 0) tt
              editing Hi)
    as (s' & cache' & Hrun & Hf & _ & _ & Hc & Hlen & _).
  exists s', cache'. repeat split; assumption.
Defined.

Lemma deserialize_serialize (l : Surface_Location) :
  load_from_serializable_copy (get_serializable_copy l) = inr l.
Proof. destruct l. reflexivity. Defined.

Lemma save_then_load_round_trip_witness :
  (forall l, load_from_serializable_copy (get_serializable_copy l) = inr l) /\
  exists s', _load_from_dict (save_to_dict filled) (fresh 0) = Return tt s' /\
             location_cache s' = location_cache filled.
Proof.
  split; [exact deserialize_serialize|].
  apply (proj1 (save_then_load_round_trip deserialize_serialize filled (fresh 0))).
  - reflexivity.
  - intros [H | [H | []]]; discriminate H.
Defined.

Lemma map_section_aligned_with_range_witness :
  (forall l : Surface_Location,
     loc_detected l = true -> Surface_Location_bool l = true) /\
  map_section (Slice 0 2) tt [3; 14; 15] tt editing = inr [[(3, 3)]; [(3, 14); (3, 15)]].
Proof.
  assert (Hbool : forall l : Surface_Location,
             loc_detected l = true -> Surface_Location_bool l = true)
    by (intros l Hl; exact Hl).
  split; [exact Hbool|].
  destruct (proj2 (proj2 (map_section_aligned_with_range
                            Hbool (Slice 0 2) tt [3; 14; 15] tt editing))
              [Some seen; Some seen] eq_refl)
    as (r & Hr & _); [cbn; lia | cbn; lia |].
  rewrite Hr. vm_compute in Hr. injection Hr as <-. reflexivity.
Defined.


Lemma move_corner_unknown_markers_writes_not_detected_witness :
  0 <= 1 < Z.of_nat (length (marker_frames 1 ++ unknown_frames 1)) /\
  (marker_frames 1 ++ unknown_frames 1) !! Z.to_nat 1 = Some None /\
  exists s' cache',
    move_corner 1 (marker_frames 1 ++ unknown_frames 1) 0 (0, 0) tt editing
      = Return tt s' /\
    location_cache s' = Some cache' /\
    cache' !! Z.to_nat 1 = Some (Some Surface_Location_not_detected).
Proof.
  assert (Hi : 0 <= 1 < Z.of_nat (length (marker_frames 1 ++ unknown_frames 1)))
    by (cbn; lia).
  split; [exact Hi|]. split; [reflexivity|].
  exact (proj2 (move_corner_unknown_markers_writes_not_detected 1
                  (marker_frames 1 ++ unknown_frames 1) 0 (0, 0) tt editing
                  Hi eq_refl)).
Defined.

Lemma empty_frames_known :
  forall n : nat, (n < length (empty_frames 2))%nat ->
    exists ms, empty_frames 2 !! n = Some (Some ms).
Proof.
  intros [|[|n]] Hn; [eexists; reflexivity | eexists; reflexivity | cbn in Hn; lia].
Defined.

Lemma empty_frames_pending :
  forall (cm : CameraModel) (idx : Z) (n : nat) (ms : list Marker) (b : Surface),
    empty_frames 2 !! n = Some (Some ms) ->
    Qle_bool 1 (build_up_status b) = false ->
    Qle_bool 1 (build_up_status
                  (Surface_update_definition idx (markers_by_id ms) cm b)) = false.
Proof.
  intros cm idx [|[|n]] ms b Hm Hb; cbn in Hm; try discriminate;
    injection Hm as <-; exact Hb.
Defined.

Lemma scan_from_frame_zero_never_closes_witness :
  start_idx (fresh 0) = None /\
  defined (fresh 0) = false /\
  exists s',
    _build_definition_from_cache 3 tt 0 (empty_frames 2) (fresh 0)
      = Raise IndexError s' /\
    defined s' = false /\
    start_idx s' = Some 0.
Proof.
  split; [reflexivity|]. split; [reflexivity|].
  destruct (scan_from_frame_zero_never_closes (col := Scenario.col) tt 0
              (empty_frames 2)
              empty_frames_known (empty_frames_pending tt) 0 (fresh 0)
              eq_refl ltac:(cbn; lia) eq_refl eq_refl)
    as (s' & Hrun & Hd & Hs & _).
  exists s'. repeat split; assumption.
Defined.

(** *** Further theorems at concrete inputs *)

Lemma fetch_merges_last_write_wins_witness :
  location_cache draining = Some [None; None; None] /\
  exists s',
    _fetch_from_location_cache_filler draining = Return tt s' /\
    location_cache s' = Some [Some Surface_Location_not_detected; None; Some seen].
Proof.
  split; [reflexivity|].
  destruct (fetch_merges_last_write_wins draining
              (Build_Job
                 [([(0, seen); (2, seen); (0, Surface_Location_not_detected)], false)]
                 false)
              (Build_Job [] false)
              [(0, seen); (2, seen); (0, Surface_Location_not_detected)]
              [None; None; None] eq_refl eq_refl eq_refl eq_refl)
    as (c' & Hrun & _).
  { intros r [<-|[<-|[<-|[]]]]; cbn; lia. }
  eexists. split; [exact Hrun|].
  vm_compute in Hrun. injection Hrun as Hc. cbn. rewrite <- Hc. reflexivity.
Defined.

Lemma fetch_completed_notifies_once_witness :
  on_surface_change finishing_subscribed = Some tt /\
  exists s',
    _fetch_from_location_cache_filler finishing_subscribed = Return tt s' /\
    location_cache s' = Some [Some Surface_Location_not_detected; Some seen] /\
    location_cache_filler s' = None /\
    effects s' = [SurfaceChanged tt].
Proof.
  split; [reflexivity|].
  destruct (fetch_completed_notifies_once finishing_subscribed
              (Build_Job [([(0, Surface_Location_not_detected); (1, seen)], true)] false)
              (Build_Job [] true)
              [(0, Surface_Location_not_detected); (1, seen)]
              [None; None] tt eq_refl eq_refl eq_refl eq_refl eq_refl)
    as (s' & c' & Hrun & _).
  { intros r [<-|[<-|[]]]; cbn; lia. }
  exists s'. split; [exact Hrun|].
  vm_compute in Hrun. injection Hrun as <-. repeat split.
Defined.

Lemma update_location_keeps_definition_witness :
  defined half_filled = true /\
  ends_in (definition_kept half_filled)
    (update_location 2 1 (marker_frames 2) tt half_filled).
Proof.
  split; [reflexivity|].
  exact (update_location_keeps_definition 2 1 (marker_frames 2) tt half_filled eq_refl).
Defined.

Lemma update_location_recursion_is_bounded_witness :
  defined half_filled = true /\
  update_location 7 1 (marker_frames 2) tt half_filled =
  update_location 2 1 (marker_frames 2) tt half_filled.
Proof.
  split; [reflexivity|].
  exact (proj2 (update_location_recursion_is_bounded 5 1 (marker_frames 2) tt
                  half_filled eq_refl)).
Defined.

Lemma update_location_without_job_witness :
  defined half_filled = true /\
  location_cache_filler half_filled = None /\
  exists s',
    update_location 2 1 (marker_frames 2) tt half_filled = Return tt s' /\
    effects s' = effects half_filled /\
    update_location 2 1 (marker_frames 2) tt s' = Return tt s'.
Proof.
  split; [reflexivity|]. split; [reflexivity|].
  destruct (update_location_without_job 0 0 1 (marker_frames 2) tt half_filled
              [Some seen; None] 1 (Some [7]) eq_refl eq_refl eq_refl eq_refl eq_refl)
    as (s' & c' & Hrun & _ & He & _ & _ & _ & Hagain).
  exists s'. repeat split; assumption.
Defined.

Lemma update_location_index_bounds_witness :
  defined filled = true /\
  update_location 1 2 (marker_frames 2) tt filled = Raise IndexError filled /\
  update_location 1 (-2) (marker_frames 2) tt filled =
  Return tt (set_base (adopt_location seen) filled).
Proof.
  split; [reflexivity|].
  destruct (update_location_index_bounds 0 2 (marker_frames 2) tt filled
              [Some seen; Some Surface_Location_not_detected] eq_refl eq_refl eq_refl)
    as [Hout _].
  destruct (update_location_index_bounds 0 (-2) (marker_frames 2) tt filled
              [Some seen; Some Surface_Location_not_detected] eq_refl eq_refl eq_refl)
    as [_ Hneg].
  split; [apply Hout; cbn; lia | apply Hneg; [cbn; lia | reflexivity]].
Defined.

Lemma update_location_adopts_cache_entry_witness :
  exists s',
    update_location 2 1 (marker_frames 2) tt half_filled = Return tt s' /\
    location_cache s' = Some [Some seen; Some seen] /\
    detected (base s') = true /\
    dist_img_to_surf_trans (base s') = Some 1 /\
    surf_to_dist_img_trans (base s') = Some 2 /\
    img_to_surf_trans (base s') = Some 3 /\
    surf_to_img_trans (base s') = Some 4 /\
    num_detected_markers (base s') = 1.
Proof.
  assert (Hrun : update_location 2 1 (marker_frames 2) tt half_filled =
                 Return tt (set_base (adopt_location seen) filled_by_demand))
    by reflexivity.
  eexists. split; [exact Hrun|].
  destruct (update_location_adopts_cache_entry 2 1 (marker_frames 2) tt _ _ Hrun)
    as (cache & entry & Hc & Hsub & Hshown).
  injection Hc as <-. injection Hsub as <-. split; [reflexivity | exact Hshown].
Defined.

Lemma update_location_cache_on_absent_cache_witness :
  location_cache (fresh 1) = None /\
  exists s' j,
    update_location_cache 0 (marker_frames 1) tt (fresh 1) = Return tt s' /\
    location_cache s' = Some [None] /\
    effects s' = [JobStarted j].
Proof.
  split; [reflexivity|].
  destruct (proj1 (update_location_cache_on_absent_cache 0 (marker_frames 1) tt
                     (fresh 1) eq_refl) (Some [7]) eq_refl)
    as (s' & j & Hrun & Hc & _ & He).
  exists s', j. repeat split; assumption.
Defined.

Lemma move_corner_then_update_location_witness :
  0 <= 0 < Z.of_nat (length (marker_frames 2)) /\
  location_cache_filler filled = None /\
  exists s1 s2,
    move_corner 0 (marker_frames 2) 0 (0, 0) tt filled = Return tt s1 /\
    update_location 1 0 (marker_frames 2) tt s1 = Return tt s2 /\
    location_cache s2 = Some [Some (locate [(7, 7)] tt tt tt); None] /\
    location_cache_filler s2 = None /\
    detected (base s2) = true /\
    img_to_surf_trans (base s2) = Some 3 /\
    surf_to_img_trans (base s2) = Some 4 /\
    num_detected_markers (base s2) = 1.
Proof.
  assert (Hi : 0 <= 0 < Z.of_nat (length (marker_frames 2))) by (cbn; lia).
  split; [exact Hi|]. split; [reflexivity|].
  assert (Hdef : defined (set_base (Surface_move_corner 0 (0, 0) tt) filled) = true)
    by reflexivity.
  destruct (move_corner_then_update_location 0 0 (marker_frames 2) 0 (0, 0) tt filled
              (Some [7]) Hi eq_refl eq_refl Hdef)
    as (s1 & s2 & location & Hm & Hu & Hloc & _ & Hc1 & Hc2 & Hf & _ &
        Hd & _ & _ & Hi2s & Hs2i & Hnum).
  rewrite (Hloc 7 [] eq_refl) in Hc1, Hd, Hi2s, Hs2i, Hnum.
  exists s1, s2. split; [exact Hm|]. split; [exact Hu|].
  split; [rewrite Hc2; exact Hc1|]. split; [exact Hf|].
  split; [exact Hd|]. split; [exact Hi2s|]. split; [exact Hs2i | exact Hnum].
Defined.

Lemma move_corner_outside_recording_witness :
  Z.of_nat (length (marker_frames 2)) <= 5 /\
  exists s',
    move_corner 5 (marker_frames 2) 0 (0, 0) tt filled = Raise IndexError s' /\
    location_cache s' = Some [None; None].
Proof.
  assert (Ho : Z.of_nat (length (marker_frames 2)) <= 5) by (cbn; lia).
  split; [exact Ho|]. eexists. split.
  - exact (move_corner_outside_recording 5 (marker_frames 2) 0 (0, 0) tt filled
             (or_intror Ho)).
  - reflexivity.
Defined.

Lemma scan_from_later_frame_closes_witness :
  start_idx (fresh 0) = None /\
  defined (fresh 0) = false /\
  exists s',
    _build_definition_from_cache 2 tt 1 (empty_frames 2) (fresh 0) = Return tt s' /\
    start_idx s' = Some 1.
Proof.
  split; [reflexivity|]. split; [reflexivity|].
  destruct (scan_from_later_frame_closes (col := Scenario.col) tt 1
              (empty_frames 2) empty_frames_known (empty_frames_pending tt) 0 (fresh 0)
              ltac:(cbn; lia) eq_refl eq_refl)
    as (s' & b & Hrun & _ & Hs & _).
  exists s'. split; assumption.
Defined.

Lemma marker_frames_known :
  forall n : nat, (n < length (marker_frames 3))%nat ->
    exists ms, marker_frames 3 !! n = Some (Some ms).
Proof.
  intros [|[|[|n]]] Hn; [eexists; reflexivity | eexists; reflexivity
                        | eexists; reflexivity | cbn in Hn; lia].
Defined.

Lemma scan_closes_after_full_pass_witness :
  start_idx (fresh 0) = None /\
  observations_frame_idxs (fresh 0) = [] /\
  exists s',
    _build_definition_from_cache 3 tt 1 (marker_frames 3) (fresh 0) = Return tt s' /\
    build_up_status (base s') = 1%Q /\
    observations_frame_idxs s' = [1; 2; 0] /\
    start_idx s' = Some 1.
Proof.
  split; [reflexivity|]. split; [reflexivity|].
  assert (Hpend : forall k, (k < length (marker_frames 3))%nat ->
            Qle_bool 1 (build_up_status
                          (feed_frames tt (marker_frames 3)
                             (take k (full_pass 1 (length (marker_frames 3))))
                             (base (fresh 0)))) = false).
  { intros [|[|[|k]]] Hk; [reflexivity | reflexivity | reflexivity | cbn in Hk; lia]. }
  destruct (scan_closes_after_full_pass (col := Scenario.col) tt 1
              (marker_frames 3) marker_frames_known 0 (fresh 0)
              ltac:(cbn; lia) eq_refl eq_refl Hpend)
    as (s' & Hrun & Hb & Ho & Hs & _).
  exists s'. split; [exact Hrun|]. split; [rewrite Hb; reflexivity|].
  split; [exact Ho | exact Hs].
Defined.

Lemma map_section_length_is_clamped_witness :
  0 <= 1 <= 5 /\
  exists r, map_section (Slice 1 5) tt [3; 14; 15] tt filled = inr r /\
            length r = 1%nat.
Proof.
  assert (Hab : 0 <= 1 <= 5) by lia. split; [exact Hab|].
  destruct (map_section_length_is_clamped (col := Scenario.col) (Slice 1 5) tt [3; 14; 15] tt filled
              [Some seen; Some Surface_Location_not_detected] eq_refl Hab)
    as (r & Hr & Hlen & _).
  exists r. split; [exact Hr | exact Hlen].
Defined.

Lemma map_section_maps_only_detected_witness :
  _cache_positive_eval_fn (Some Surface_Location_not_detected) = false /\
  forall r, map_section (Slice 0 2) tt [3; 14; 15] tt filled = inr r ->
            r !! 1%nat = Some [].
Proof.
  split; [reflexivity|]. intros r Hr.
  exact (map_section_maps_only_detected (col := Scenario.col) (Slice 0 2) tt [3; 14; 15] tt filled
           [Some seen; Some Surface_Location_not_detected] r 1
           (Some Surface_Location_not_detected) eq_refl Hr eq_refl eq_refl).
Defined.

Lemma visible_count_in_section_is_additive_witness :
  0 <= 0 <= 1 /\
  visible_count_in_section (Slice 0 2) filled =
  visible_count_in_section (Slice 0 1) filled + visible_count_in_section (Slice 1 2) filled.
Proof.
  assert (Hab : 0 <= 0 <= 1) by lia. split; [exact Hab|].
  exact (proj1 (visible_count_in_section_is_additive (col := Scenario.col) filled
                  [Some seen; Some Surface_Location_not_detected] 0 1 2
                  eq_refl Hab ltac:(lia) ltac:(cbn; lia))).
Defined.

Lemma save_then_load_restores_scan_witness :
  (forall l, load_from_serializable_copy (get_serializable_copy l) = inr l) /\
  exists s',
    _load_from_dict (save_to_dict half_filled) (fresh 0) = Return tt s' /\
    start_idx s' = Some 0 /\
    location_cache s' = None.
Proof.
  split; [exact deserialize_serialize|].
  destruct (save_then_load_restores_scan (col := Scenario.col) deserialize_serialize half_filled (fresh 0))
    as (s' & Hrun & Hs & _).
  exists s'. split; [exact Hrun|]. split; [exact Hs|].
  vm_compute in Hrun. injection Hrun as <-. reflexivity.
Defined.

Lemma load_from_dict_without_added_in_player_witness :
  dict_added_in_player legacy_record = None /\
  exists s',
    _load_from_dict legacy_record (fresh 0) = Return tt s' /\
    defined s' = true /\
    start_idx s' = Some 0.
Proof.
  split; [reflexivity|].
  destruct (load_from_dict_without_added_in_player (col := Scenario.col) legacy_record (fresh 0) eq_refl)
    as (s' & Hrun & Hd & _ & Hs & _).
  { intros e He. vm_compute in He. injection He as <-. left. reflexivity. }
  exists s'. repeat split; assumption.
Defined.
